(** * GitHub Issues Explorer: the issue tree and the cache service

    A shallow embedding of the tree node class [GitHubIssue], of the
    cache and refresh service [GitHubIssueService] and of the tree data
    provider [GitHubIssuesProvider] of [src/extension.ts] (the handler
    [handleCheckboxChange], and what the view is given: [getTreeItem],
    [getChildren], [setIssues]), with the properties the specification
    states about them and further properties the code has.

    Conventions of the embedding:
    - a JavaScript string is the list of its UTF-16 code units;
    - a JavaScript number holding a progress value is an exact rational
      (the rounding of IEEE doubles is not modelled);
    - objects of class [GitHubIssue] live in a store and are referred to
      by address, so that [parent], [children] and [progressBar] alias
      the way the JavaScript references do;
    - an [async] method is run to completion in one piece; a call whose
      promise is not awaited is recorded as a pending task;
    - [toLowerCase], which goes by the Unicode tables, is a parameter of
      the search. *)

From Stdlib Require Import ZArith QArith Qround List Lia Lqa String Ascii Bool.
From stdpp Require Import base option list gmap.

Local Open Scope nat_scope.

(* ===================================================================== *)
(** * JavaScript strings *)
(* ===================================================================== *)

Module JS.

(** A string is a sequence of 16-bit code units. *)
Definition jsstring := list N.

(** The code units of an ASCII literal. *)
Fixpoint js (s : string) : jsstring :=
  match s with
  | EmptyString => []
  | String a s' => N_of_ascii a :: js s'
  end.

Definition LF : N := 10%N.
Definition CR : N := 13%N.

Definition digit (d : N) : N := (48 + d)%N.

(** Decimal rendering of a natural number, as [String(n)] does. *)
Fixpoint digits_of_uint (u : Decimal.uint) : jsstring :=
  match u with
  | Decimal.Nil => []
  | Decimal.D0 u' => digit 0 :: digits_of_uint u'
  | Decimal.D1 u' => digit 1 :: digits_of_uint u'
  | Decimal.D2 u' => digit 2 :: digits_of_uint u'
  | Decimal.D3 u' => digit 3 :: digits_of_uint u'
  | Decimal.D4 u' => digit 4 :: digits_of_uint u'
  | Decimal.D5 u' => digit 5 :: digits_of_uint u'
  | Decimal.D6 u' => digit 6 :: digits_of_uint u'
  | Decimal.D7 u' => digit 7 :: digits_of_uint u'
  | Decimal.D8 u' => digit 8 :: digits_of_uint u'
  | Decimal.D9 u' => digit 9 :: digits_of_uint u'
  end.

Definition string_of_nat (n : nat) : jsstring := digits_of_uint (Nat.to_uint n).
Definition string_of_N (n : N) : jsstring := digits_of_uint (N.to_uint n).

(** Decimal rendering of an integer ([-] for negatives). *)
Definition string_of_Z (z : Z) : jsstring :=
  match z with
  | Zneg p => js "-" ++ string_of_N (Npos p)
  | _ => string_of_N (Z.to_N z)
  end.

(** [Array.prototype.join] *)
Fixpoint join (sep : jsstring) (l : list jsstring) : jsstring :=
  match l with
  | [] => []
  | [x] => x
  | x :: l' => x ++ sep ++ join sep l'
  end.

(** [WhiteSpace] and [LineTerminator] of ECMAScript: what [\s] matches. *)
Definition is_line_terminator (c : N) : bool :=
  (c =? 10)%N || (c =? 13)%N || (c =? 8232)%N || (c =? 8233)%N.

Definition is_white_space (c : N) : bool :=
  is_line_terminator c
  || (c =? 9)%N || (c =? 11)%N || (c =? 12)%N || (c =? 32)%N
  || (c =? 160)%N || (c =? 5760)%N
  || ((8192 <=? c)%N && (c <=? 8202)%N)
  || (c =? 8239)%N || (c =? 8287)%N || (c =? 12288)%N || (c =? 65279)%N.

End JS.
Import JS.

(* ===================================================================== *)
(** * Regular expressions *)
(* ===================================================================== *)

(** The fragment of ECMAScript regular expressions the sources use: a
    sequence of line assertions and of greedy repetitions of a
    one-character class, each repetition optionally a capture group.
    Matching is by backtracking, longest repetition first, as
    [RegExp.prototype.exec] specifies; flags [g] and [m] are assumed. *)

Module RegExp.

Inductive cls : Type :=
| CChar (c : N)            (* a literal character *)
| CSet (cs : list N)       (* [abc] *)
| CSpace                   (* \s *)
| CDot.                    (* . *)

Definition cls_matches (k : cls) (c : N) : bool :=
  match k with
  | CChar c' => (c =? c')%N
  | CSet cs => existsb (N.eqb c) cs
  | CSpace => is_white_space c
  | CDot => negb (is_line_terminator c)
  end.

Inductive node : Type :=
| Bol                                                   (* ^ under flag m *)
| Eol                                                   (* $ under flag m *)
| Rep (cap : bool) (k : cls) (lo : nat) (hi : option nat). (* k{lo,hi} *)

Definition regex := list node.

Definition one (c : N) : node := Rep false (CChar c) 1 (Some 1).
Definition lit (s : jsstring) : regex := map one s.
Definition star (cap : bool) (k : cls) : node := Rep cap k 0 None.
Definition plus (cap : bool) (k : cls) : node := Rep cap k 1 None.

(** Length of the longest prefix of [s] whose characters are all in [k]. *)
Fixpoint run_length (k : cls) (s : jsstring) : nat :=
  match s with
  | c :: s' => if cls_matches k c then S (run_length k s') else 0
  | [] => 0
  end.

(** [prev] is the character before the current position, if any. *)
Definition at_line_start (prev : option N) : bool :=
  match prev with
  | None => true
  | Some c => is_line_terminator c
  end.

Definition at_line_end (s : jsstring) : bool :=
  match s with
  | [] => true
  | c :: _ => is_line_terminator c
  end.

Definition last_char (prev : option N) (consumed : jsstring) : option N :=
  match last consumed with
  | Some c => Some c
  | None => prev
  end.

(** Tries [attempt (lo + d)], [attempt (lo + d - 1)], ..., [attempt lo]. *)
Fixpoint backtrack {A} (attempt : nat -> option A) (lo d : nat) : option A :=
  match attempt (lo + d) with
  | Some r => Some r
  | None =>
      match d with
      | 0 => None
      | S d' => backtrack attempt lo d'
      end
  end.

(** Match [r] at the start of [s]; the result is the captures, in
    order of their groups, and the number of characters consumed. *)
Fixpoint rmatch (r : regex) (prev : option N) (s : jsstring)
  : option (list jsstring * nat) :=
  match r with
  | [] => Some ([], 0)
  | Bol :: r' => if at_line_start prev then rmatch r' prev s else None
  | Eol :: r' => if at_line_end s then rmatch r' prev s else None
  | Rep cap k lo hi :: r' =>
      let n := match hi with
               | Some h => Nat.min h (run_length k s)
               | None => run_length k s
               end in
      if n <? lo then None
      else backtrack
             (fun j =>
                match rmatch r' (last_char prev (take j s)) (drop j s) with
                | Some (caps, len) =>
                    Some (if cap then take j s :: caps else caps, j + len)
                | None => None
                end)
             lo (n - lo)
  end.

(** The array [exec] returns: [index], the groups 1.., and the end of
    the match, which becomes [lastIndex]. *)
Record MatchResult := mkMatch {
  m_index : nat;
  m_groups : list jsstring;
  m_end : nat
}.

(** Leftmost match at a position [>= i]; [s] is the input from [i] on. *)
Fixpoint search (r : regex) (prev : option N) (s : jsstring) (i : nat)
  : option MatchResult :=
  match rmatch r prev s with
  | Some (caps, len) => Some (mkMatch i caps (i + len))
  | None =>
      match s with
      | [] => None
      | c :: s' => search r (Some c) s' (S i)
      end
  end.

(** [r.exec(input)] with [r.lastIndex = lastIndex]; [None] is [null]
    (and [lastIndex] is then reset to 0). *)
Definition exec (r : regex) (input : jsstring) (lastIndex : nat)
  : option MatchResult :=
  if length input <? lastIndex then None
  else search r (last (take lastIndex input)) (drop lastIndex input) lastIndex.

(** [while ((m = r.exec(input)) !== null) ...]: the successive results,
    [None] when [fuel] iterations did not reach [null]. *)
Fixpoint execLoop (fuel : nat) (r : regex) (input : jsstring) (lastIndex : nat)
  : option (list MatchResult) :=
  match exec r input lastIndex with
  | None => Some []
  | Some m =>
      match fuel with
      | 0 => None
      | S fuel' => cons m <$> execLoop fuel' r input (m_end m)
      end
  end.

End RegExp.
Import RegExp.

(** The pattern of [parseCheckboxes], group by group (written here
    with blanks between its parts):
    [^ ( \s* ) - \s* \[ ( [ x] ) \] \s* ( .+ ) $], flags [gm]. *)
Definition checkboxRegex : regex :=
  [ Bol; star true CSpace; one 45%N; star false CSpace; one 91%N;
    Rep true (CSet [32%N; 120%N]) 1 (Some 1); one 93%N;
    star false CSpace; plus true CDot; Eol ].

(* ===================================================================== *)
(** * The tree node class [GitHubIssue] *)
(* ===================================================================== *)

(** [issue.number] is an integer on records of the remote and a string
    on the records the tree synthesizes. *)
Inductive IssueNumber : Type :=
| NumInt (n : Z)
| NumStr (s : jsstring).

(** What a template literal renders for [issue.number]. *)
Definition render_number (n : IssueNumber) : jsstring :=
  match n with
  | NumInt z => string_of_Z z
  | NumStr s => s
  end.

Inductive IssueState : Type := StOpen | StClosed.

(** The fields of the untyped [issue] record the program reads. A
    field that is absent ([undefined]) is [None]; [pull_request] tells
    whether that field is present. *)
Record Issue := mkIssue {
  number : IssueNumber;
  title : option jsstring;
  body : option jsstring;
  state : option IssueState;
  pull_request : bool
}.

Definition render_opt (o : option jsstring) : jsstring :=
  match o with
  | Some s => s
  | None => js "undefined"
  end.

Inductive NodeType : Type := TIssue | TPullRequest | TProgressBar.

#[global] Instance NodeType_eq_dec : EqDecision NodeType.
Proof. solve_decision. Defined.

Inductive CollapsibleState : Type := CNone | CCollapsed | CExpanded.

Inductive CheckboxState : Type := Unchecked | Checked.

Inductive Icon : Type :=
| IconPullRequestGreen | IconPullRequestPurple | IconIssuesGreen | IconIssueClosedRed.

(** The three numbers [createSvgProgressBar] writes into its SVG text. *)
Record Svg := mkSvg { svg_width : Z; svg_height : Z; svg_fillWidth : Z }.

Abbreviation addr := nat (only parsing).

(** An object of class [GitHubIssue]. References to other objects are
    addresses of the store. The constant [command] is left out. *)
Record GitHubIssue := mkNode {
  label : jsstring;
  collapsibleState : CollapsibleState;
  issue : Issue;
  type : NodeType;
  parent : option addr;
  isCheckbox : bool;
  checked : bool;
  children : list addr;
  progress : Q;
  progressBar : option addr;
  tooltip : option jsstring;
  description : option jsstring;
  iconPath : option Icon;
  checkboxState : option CheckboxState;
  contextValue : option jsstring;
  svgProgress : option Svg
}.

(** The store of [GitHubIssue] objects; [new] appends. *)
Abbreviation heap := (list GitHubIssue) (only parsing).

Definition set_issue (i : Issue) (n : GitHubIssue) : GitHubIssue :=
  mkNode (label n) (collapsibleState n) i (type n) (parent n) (isCheckbox n)
         (checked n) (children n) (progress n) (progressBar n) (tooltip n)
         (description n) (iconPath n) (checkboxState n) (contextValue n)
         (svgProgress n).

Definition set_collapsibleState (c : CollapsibleState) (n : GitHubIssue) : GitHubIssue :=
  mkNode (label n) c (issue n) (type n) (parent n) (isCheckbox n)
         (checked n) (children n) (progress n) (progressBar n) (tooltip n)
         (description n) (iconPath n) (checkboxState n) (contextValue n)
         (svgProgress n).

Definition set_checked (b : bool) (n : GitHubIssue) : GitHubIssue :=
  mkNode (label n) (collapsibleState n) (issue n) (type n) (parent n) (isCheckbox n)
         b (children n) (progress n) (progressBar n) (tooltip n)
         (description n) (iconPath n) (checkboxState n) (contextValue n)
         (svgProgress n).

Definition set_children (cs : list addr) (n : GitHubIssue) : GitHubIssue :=
  mkNode (label n) (collapsibleState n) (issue n) (type n) (parent n) (isCheckbox n)
         (checked n) cs (progress n) (progressBar n) (tooltip n)
         (description n) (iconPath n) (checkboxState n) (contextValue n)
         (svgProgress n).

Definition set_progress (q : Q) (n : GitHubIssue) : GitHubIssue :=
  mkNode (label n) (collapsibleState n) (issue n) (type n) (parent n) (isCheckbox n)
         (checked n) (children n) q (progressBar n) (tooltip n)
         (description n) (iconPath n) (checkboxState n) (contextValue n)
         (svgProgress n).

Definition set_progressBar (p : option addr) (n : GitHubIssue) : GitHubIssue :=
  mkNode (label n) (collapsibleState n) (issue n) (type n) (parent n) (isCheckbox n)
         (checked n) (children n) (progress n) p (tooltip n)
         (description n) (iconPath n) (checkboxState n) (contextValue n)
         (svgProgress n).

Definition set_tooltip (t : option jsstring) (n : GitHubIssue) : GitHubIssue :=
  mkNode (label n) (collapsibleState n) (issue n) (type n) (parent n) (isCheckbox n)
         (checked n) (children n) (progress n) (progressBar n) t
         (description n) (iconPath n) (checkboxState n) (contextValue n)
         (svgProgress n).

Definition set_checkboxState (c : option CheckboxState) (n : GitHubIssue) : GitHubIssue :=
  mkNode (label n) (collapsibleState n) (issue n) (type n) (parent n) (isCheckbox n)
         (checked n) (children n) (progress n) (progressBar n) (tooltip n)
         (description n) (iconPath n) c (contextValue n)
         (svgProgress n).

Definition set_svgProgress (s : option Svg) (n : GitHubIssue) : GitHubIssue :=
  mkNode (label n) (collapsibleState n) (issue n) (type n) (parent n) (isCheckbox n)
         (checked n) (children n) (progress n) (progressBar n) (tooltip n)
         (description n) (iconPath n) (checkboxState n) (contextValue n) s.

Definition set_body (b : option jsstring) (i : Issue) : Issue :=
  mkIssue (number i) (title i) b (state i) (pull_request i).

(** [Math.round]: the nearest integer, halves upwards. *)
Definition Math_round (q : Q) : Z := Qfloor (q + (1 # 2)).

Definition progress_tooltip (q : Q) : jsstring :=
  js "Progress: " ++ string_of_Z (Math_round q) ++ js "%".

(** [getIcon] *)
Definition getIcon (isCb : bool) (ty : NodeType) (i : Issue) : option Icon :=
  if isCb then None
  else match ty with
       | TPullRequest =>
           Some (match state i with
                 | Some StOpen => IconPullRequestGreen
                 | _ => IconPullRequestPurple
                 end)
       | _ =>
           Some (match state i with
                 | Some StOpen => IconIssuesGreen
                 | _ => IconIssueClosedRed
                 end)
       end.

(** [getCheckboxState] *)
Definition getCheckboxState (chk : bool) : CheckboxState :=
  if chk then Checked else Unchecked.

(** [createSvgProgressBar] *)
Definition createSvgProgressBar (q : Q) : Svg :=
  let width := 200%Z in
  let height := 10%Z in
  mkSvg width height (Math_round ((q / 100) * inject_Z width)).

(** The object right after [super(label, collapsibleState)], the
    parameter properties and the field initializers. *)
Definition initNode (lbl : jsstring) (cs : CollapsibleState) (i : Issue)
    (ty : NodeType) (par : option addr) (isCb chk : bool) : GitHubIssue :=
  mkNode lbl cs i ty par isCb chk [] 0%Q None None None None None None None.

(** The constructor on [type = 'progressBar'] (its [else] branch). *)
Definition newProgressBar (lbl : jsstring) (cs : CollapsibleState) (i : Issue)
    (par : option addr) (isCb chk : bool) (h : heap) : addr * heap :=
  let n := initNode lbl cs i TProgressBar par isCb chk in
  (length h, h ++ [set_tooltip (Some (progress_tooltip (progress n))) n]).

(** [updateProgressBar]; [None] only when [a] is not in the store. *)
Definition updateProgressBar (a : addr) (h : heap) : option heap :=
  n ← h !! a;
  let svg := createSvgProgressBar (progress n) in
  let '(pb, h1) :=
    match progressBar n with
    | None =>
        let '(pb, h') :=
          newProgressBar (js "Progress") CNone
            (mkIssue (NumStr (render_number (number (issue n)) ++ js ".progress"))
                     None None None false)
            (Some a) false false h in
        (pb, alter (fun m => set_children (pb :: children m)
                               (set_progressBar (Some pb) m)) a h')
    | Some pb => (pb, h)
    end in
  Some (alter (fun m => set_svgProgress (Some svg)
                          (set_tooltip (Some (progress_tooltip (progress n)))
                             (set_progress (progress n) m))) pb h1).

(** [calculateProgress]; [None] only on a dangling address. *)
Definition calculateProgress (a : addr) (h : heap) : option heap :=
  n ← h !! a;
  kids ← mapM (fun c => h !! c) (children n);
  let totalCheckboxes := length (children n) in
  let checkedCheckboxes := length (List.filter checked kids) in
  let p := if 0 <? totalCheckboxes
           then Qred ((inject_Z (Z.of_nat checkedCheckboxes)
                       / inject_Z (Z.of_nat totalCheckboxes)) * 100)
           else 0%Q in
  updateProgressBar a (alter (set_progress p) a h).

(** [toggleCheckbox] *)
Definition toggleCheckbox (a : addr) (h : heap) : option heap :=
  n ← h !! a;
  if isCheckbox n then
    let h1 := alter (fun m => set_checkboxState
                                (Some (getCheckboxState (negb (checked n))))
                                (set_checked (negb (checked n)) m)) a h in
    match parent n with
    | Some p => calculateProgress p h1
    | None => Some h1
    end
  else Some h.

(** The type of [new GitHubIssue(...)] as a store transformer. *)
Definition ctor : Type :=
  jsstring -> CollapsibleState -> Issue -> NodeType -> option addr ->
  bool -> bool -> heap -> option (addr * heap).

Definition is_x (s : jsstring) : bool := bool_decide (s = [120%N]).

(** The record [childIssue] of [parseCheckboxes]: the parent's record
    with [title], [body], [number] and [state] replaced. *)
Definition childIssue (i : Issue) (index : nat) (chk text : jsstring) : Issue :=
  mkIssue (NumStr (render_number (number i) ++ js "." ++ string_of_nat (index + 1)))
          (Some text) (Some [])
          (Some (if is_x chk then StClosed else StOpen))
          (pull_request i).

(** The [while] loop of [parseCheckboxes], with the [lastIndex] of the
    regular expression and the counter [index] as loop state; [mk] is
    the constructor it calls, [fuel] bounds the iterations. *)
Fixpoint parseLoop (fuel : nat) (mk : ctor) (a : addr) (lastIndex index : nat)
    (h : heap) : option heap :=
  n ← h !! a;
  match exec checkboxRegex (render_opt (body (issue n))) lastIndex with
  | None => Some h
  | Some m =>
      match fuel with
      | 0 => None
      | S fuel' =>
          match m_groups m with
          | [_; chk; text] =>
              '(c, h1) ← mk text CNone (childIssue (issue n) index chk text) TIssue
                            (Some a) true (is_x chk) h;
              parseLoop fuel' mk a (m_end m) (S index)
                (alter (fun p => set_children (children p ++ [c]) p) a h1)
          | _ => None
          end
      end
  end.

(** [parseCheckboxes]: every match moves [lastIndex] forward, so the
    length of the body, plus one, bounds the iterations. *)
Definition parseCheckboxes (mk : ctor) (a : addr) (h : heap) : option heap :=
  n ← h !! a;
  parseLoop (S (length (render_opt (body (issue n))))) mk a 0 0 h.

(** [this.issue.body || ''] *)
Definition body_or_empty (b : option jsstring) : jsstring :=
  match b with
  | Some (c :: s) => c :: s
  | _ => []
  end.

(** The object when the constructor reaches [this.parseCheckboxes()],
    on a type other than ['progressBar']. *)
Definition beforeParse (lbl : jsstring) (cs : CollapsibleState) (i : Issue)
    (ty : NodeType) (par : option addr) (isCb chk : bool) : GitHubIssue :=
  mkNode lbl cs (set_body (Some (body_or_empty (body i))) i) ty par
         isCb chk [] 0%Q None
         (Some (js "#" ++ render_number (number i) ++ js ": " ++ render_opt (title i)))
         (Some (if isCb then [] else js "#" ++ render_number (number i)))
         (getIcon isCb ty i)
         (if isCb then Some (getCheckboxState chk) else None)
         (if isCb then Some (js "checkbox") else None)
         None.

(** The constructor. It calls itself for the sub-items it finds;
    [depth] bounds the nesting of these calls ([None] when exceeded). *)
Fixpoint construct (depth : nat) (lbl : jsstring) (cs : CollapsibleState)
    (i : Issue) (ty : NodeType) (par : option addr) (isCb chk : bool)
    (h : heap) : option (addr * heap) :=
  match depth with
  | 0 => None
  | S depth' =>
      match ty with
      | TProgressBar => Some (newProgressBar lbl cs i par isCb chk h)
      | _ =>
          let a := length h in
          h1 ← parseCheckboxes (construct depth') a
                 (h ++ [beforeParse lbl cs i ty par isCb chk]);
          n1 ← h1 !! a;
          let h2 := alter (set_collapsibleState
                             (if 0 <? length (children n1)
                              then CExpanded else CNone)) a h1 in
          if 0 <? length (children n1)
          then h3 ← calculateProgress a h2; Some (a, h3)
          else Some (a, h2)
      end
  end.

(** [new GitHubIssue(...)]: two levels of calls always suffice, since a
    sub-item has an empty body (see [construct_total]). *)
Definition newGitHubIssue : ctor := construct 2.

(* ===================================================================== *)
(** * Promises: state and rejection *)
(* ===================================================================== *)

(** The result of an [async] function run to completion: fulfilled
    with a value, or rejected with an error, of which the message is
    kept. *)
Inductive outcome (A : Type) : Type :=
| Ok (a : A)
| Throw (e : jsstring).
Arguments Ok {A} a.
Arguments Throw {A} e.

Definition M (S A : Type) : Type := S -> outcome A * S.

Definition ret {S A} (a : A) : M S A := fun s => (Ok a, s).
Definition throw {S A} (e : jsstring) : M S A := fun s => (Throw e, s).
Definition bind {S A B} (c : M S A) (k : A -> M S B) : M S B :=
  fun s =>
    match c s with
    | (Ok a, s') => k a s'
    | (Throw e, s') => (Throw e, s')
    end.
(** [try { c } catch (error) { handler(error) }]: what [c] did to the
    state before it threw stays done. *)
Definition try_catch {S A} (c : M S A) (handler : jsstring -> M S A) : M S A :=
  fun s =>
    match c s with
    | (Ok a, s') => (Ok a, s')
    | (Throw e, s') => handler e s'
    end.
Definition gets {S A} (f : S -> A) : M S A := fun s => (Ok (f s), s).
Definition modify {S} (f : S -> S) : M S unit := fun s => (Ok tt, f s).

Declare Scope js_scope.
Delimit Scope js_scope with js.
Notation "'let*' x ':=' c 'in' k" := (bind c (fun x => k))
  (at level 10, x name, c at level 100, k at level 200) : js_scope.
Notation "'let*' ' p ':=' c 'in' k" := (bind c (fun x => match x with p => k end))
  (at level 10, p pattern, c at level 100, k at level 200) : js_scope.
Notation "c ';;;' k" := (bind c (fun _ => k))
  (at level 100, k at level 200, right associativity) : js_scope.

(* ===================================================================== *)
(** * The service [GitHubIssueService] *)
(* ===================================================================== *)

Module CachedIssues.
(** [interface CachedIssues] *)
Record t := mk {
  timestamp : Z;
  issues : list Issue;
  pullRequests : list Issue
}.
End CachedIssues.

Module Items.
(** The result type [{ issues: any[], pullRequests: any[] }]. *)
Record t := mk {
  issues : list Issue;
  pullRequests : list Issue
}.
Definition empty : t := mk [] [].
End Items.

(** What lies outside the program: the workspace and its git remotes,
    the GitHub session, and the repository on GitHub the [origin]
    remote names. *)
Record Env := mkEnv {
  workspaceRoot : option jsstring;
  git_remotes : list (jsstring * jsstring);   (* name, refs.fetch *)
  session : outcome (list jsstring);  (* [getSession]: the scopes, or why it rejects *)
  user : outcome (jsstring * Z * jsstring);
                     (* [users.getAuthenticated]: login, id and type *)
  remote_open : list Issue;           (* the open items, in listing order *)
  remote_closed : list Issue;         (* the closed items, in listing order *)
  list_error : option jsstring;      (* why listing rejects, if it does *)
  update_error : option jsstring     (* why an update rejects, if it does *)
}.

(** The REST endpoint behind [octokit.issues.listForRepo]: one page of
    at most [per_page] items of the requested state; the page is the
    first one unless the request names another. *)
Definition listForRepo (env : Env) (st : IssueState) (per_page : nat)
    (page : option nat) : outcome (list Issue) :=
  match list_error env with
  | Some e => Throw e
  | None =>
      let all := match st with
                 | StOpen => remote_open env
                 | StClosed => remote_closed env
                 end in
      Ok (take per_page (drop ((default 1 page - 1) * per_page) all))
  end.

(** The change an update asks for: [{ body }] or [{ title }]. *)
Inductive Patch : Type :=
| PatchBody (b : jsstring)
| PatchTitle (t : jsstring).

(** A call started without [await]. *)
Inductive Task : Type :=
| RefreshInBackground
| FetchAndUpdateInBackground
| InitializeInBackground.

Record Service := mkService {
  octokit : bool;                              (* [false] is [null] *)
  workspaceState : gmap jsstring CachedIssues.t;
  output : list jsstring;                      (* lines of [outputChannel] *)
  errorMessages : list jsstring;               (* [showErrorMessage] *)
  dataUpdated : list Items.t;                  (* [_onDataUpdated.fire] *)
  pending : list Task;                         (* started, not awaited *)
  refreshInterval : bool;                      (* the timer is set *)
  updates : list (IssueNumber * Patch);        (* updates the remote took *)
  now : Z                                      (* [Date.now()] *)
}.

Definition set_octokit (b : bool) (s : Service) : Service :=
  mkService b (workspaceState s) (output s) (errorMessages s) (dataUpdated s)
            (pending s) (refreshInterval s) (updates s) (now s).
Definition set_workspaceState (w : gmap jsstring CachedIssues.t) (s : Service) : Service :=
  mkService (octokit s) w (output s) (errorMessages s) (dataUpdated s)
            (pending s) (refreshInterval s) (updates s) (now s).
Definition set_output (o : list jsstring) (s : Service) : Service :=
  mkService (octokit s) (workspaceState s) o (errorMessages s) (dataUpdated s)
            (pending s) (refreshInterval s) (updates s) (now s).
Definition set_errorMessages (o : list jsstring) (s : Service) : Service :=
  mkService (octokit s) (workspaceState s) (output s) o (dataUpdated s)
            (pending s) (refreshInterval s) (updates s) (now s).
Definition set_dataUpdated (d : list Items.t) (s : Service) : Service :=
  mkService (octokit s) (workspaceState s) (output s) (errorMessages s) d
            (pending s) (refreshInterval s) (updates s) (now s).
Definition set_pending (p : list Task) (s : Service) : Service :=
  mkService (octokit s) (workspaceState s) (output s) (errorMessages s) (dataUpdated s)
            p (refreshInterval s) (updates s) (now s).
Definition set_refreshInterval (b : bool) (s : Service) : Service :=
  mkService (octokit s) (workspaceState s) (output s) (errorMessages s) (dataUpdated s)
            (pending s) b (updates s) (now s).
Definition set_updates (u : list (IssueNumber * Patch)) (s : Service) : Service :=
  mkService (octokit s) (workspaceState s) (output s) (errorMessages s) (dataUpdated s)
            (pending s) (refreshInterval s) u (now s).
Definition set_now (t : Z) (s : Service) : Service :=
  mkService (octokit s) (workspaceState s) (output s) (errorMessages s) (dataUpdated s)
            (pending s) (refreshInterval s) (updates s) t.

(** The pattern of [getGitHubRepoInfo]: [github\.com], one of [:/],
    [(.+)], a slash, [(.+)], [\.git]. *)
Definition githubRegex : regex :=
  lit (js "github.com") ++ [Rep false (CSet [58%N; 47%N]) 1 (Some 1); plus true CDot; one 47%N;
                            plus true CDot] ++ lit (js ".git").

Section Service.
Variable env : Env.
Local Open Scope js_scope.

Definition appendLine (line : jsstring) : M Service unit :=
  modify (fun s => set_output (output s ++ [line]) s).

Definition showErrorMessage (msg : jsstring) : M Service unit :=
  modify (fun s => set_errorMessages (errorMessages s ++ [msg]) s).

Definition fire (d : Items.t) : M Service unit :=
  modify (fun s => set_dataUpdated (dataUpdated s ++ [d]) s).

Definition spawn (t : Task) : M Service unit :=
  modify (fun s => set_pending (pending s ++ [t]) s).

(** [getGitHubRepoInfo] *)
Definition getGitHubRepoInfo : M Service (jsstring * jsstring) :=
  match workspaceRoot env with
  | Some (_ :: _) =>
      match List.find (fun r => bool_decide (r.1 = js "origin")) (git_remotes env) with
      | None => throw (js "No origin remote found")
      | Some originRemote =>
          match search githubRegex None originRemote.2 0 with
          | Some (mkMatch _ [owner; repo] _) => ret (owner, repo)
          | _ => throw (js "Unable to parse GitHub repository information")
          end
      end
  | _ => throw (js "No workspace root found")
  end.

(** [getCacheKey] *)
Definition getCacheKey : M Service jsstring :=
  let* '(owner, repo) := getGitHubRepoInfo in
  ret (js "githubIssues_" ++ owner ++ js "_" ++ repo).

(** [handleError] *)
Definition handleError (message error : jsstring) : M Service unit :=
  appendLine (message ++ js ": " ++ error) ;;;
  showErrorMessage (message ++ js ". Check output for details.").

(** [getFallbackItems] *)
Definition getFallbackItems : M Service Items.t :=
  let* cacheKey := getCacheKey in
  let* cachedData := gets (fun s => workspaceState s !! cacheKey) in
  match cachedData with
  | Some c =>
      appendLine (js "Using fallback cached issues and pull requests due to fetch error") ;;;
      ret (Items.mk (CachedIssues.issues c) (CachedIssues.pullRequests c))
  | None => ret Items.empty
  end.

(** [fetchItems] *)
Definition fetchItems (owner repo : jsstring) (st : IssueState) : M Service (list Issue) :=
  let* client := gets octokit in
  if negb client then throw (js "GitHub API is not initialized")
  else fun s => (listForRepo env st 100 None, s).

Definition state_name (st : IssueState) : jsstring :=
  match st with StOpen => js "open" | StClosed => js "closed" end.

(** [fetchAndCacheIssues] *)
Definition fetchAndCacheIssues : M Service Items.t :=
  try_catch
    (let* '(owner, repo) := getGitHubRepoInfo in
     let* openItems := fetchItems owner repo StOpen in
     let* closedItems := fetchItems owner repo StClosed in
     let allItems := openItems ++ closedItems in
     let issues := List.filter (fun item => negb (pull_request item)) allItems in
     let pullRequests := List.filter (fun item => pull_request item) allItems in
     let* t := gets now in
     let cachedData := CachedIssues.mk t issues pullRequests in
     let* cacheKey := getCacheKey in
     modify (fun s => set_workspaceState (<[cacheKey := cachedData]> (workspaceState s)) s) ;;;
     appendLine (js "Fetched and cached " ++ string_of_nat (length issues)
                 ++ js " GitHub issues and " ++ string_of_nat (length pullRequests)
                 ++ js " pull requests for " ++ owner ++ js "/" ++ repo) ;;;
     fire (Items.mk issues pullRequests) ;;;
     ret (Items.mk issues pullRequests))
    (fun error =>
       handleError (js "Error fetching GitHub issues and pull requests") error ;;;
       getFallbackItems).

(** [refreshInBackground] *)
Definition refreshInBackground : M Service unit :=
  appendLine (js "Starting background refresh of GitHub issues") ;;;
  let* _ := fetchAndCacheIssues in
  ret tt.

(** [getCachedOrFetchIssues] *)
Definition getCachedOrFetchIssues : M Service Items.t :=
  let* cacheKey := getCacheKey in
  let* cachedData := gets (fun s => workspaceState s !! cacheKey) in
  let* t := gets now in
  let fresh :=
    match cachedData with
    | Some c =>
        let cacheAge := (t - CachedIssues.timestamp c)%Z in
        let cacheExpirationTime := (30 * 60 * 1000)%Z in
        if (cacheAge <? cacheExpirationTime)%Z then Some (c, cacheAge) else None
    | None => None
    end in
  match fresh with
  | Some (c, cacheAge) =>
      appendLine (js "Using cached GitHub issues and pull requests") ;;;
      (if (5 * 60 * 1000 <? cacheAge)%Z then spawn RefreshInBackground else ret tt) ;;;
      ret (Items.mk (CachedIssues.issues c) (CachedIssues.pullRequests c))
  | None =>
      let* client := gets octokit in
      if negb client then
        appendLine (js "Not authenticated yet, returning empty result") ;;;
        ret Items.empty
      else fetchAndCacheIssues
  end.

(** [clearCache] *)
Definition clearCache : M Service unit :=
  let* cacheKey := getCacheKey in
  modify (fun s => set_workspaceState (delete cacheKey (workspaceState s)) s) ;;;
  appendLine (js "Cleared GitHub issues cache for the current workspace").

(** [getCachedIssues] *)
Definition getCachedIssues : M Service Items.t :=
  let* cacheKey := getCacheKey in
  let* cachedData := gets (fun s => workspaceState s !! cacheKey) in
  match cachedData with
  | Some c =>
      appendLine (js "Using cached GitHub issues and pull requests") ;;;
      ret (Items.mk (CachedIssues.issues c) (CachedIssues.pullRequests c))
  | None => ret Items.empty
  end.

(** [fetchAndUpdateInBackground] *)
Definition fetchAndUpdateInBackground : M Service unit :=
  try_catch
    (let* r := fetchAndCacheIssues in
     fire (Items.mk (Items.issues r) (Items.pullRequests r)))
    (fun error =>
       handleError (js "Error fetching and updating GitHub issues and pull requests") error).

(** [loadCacheAndFetch] *)
Definition loadCacheAndFetch : M Service Items.t :=
  let* cachedData := getCachedIssues in
  spawn FetchAndUpdateInBackground ;;;
  ret cachedData.

(** [initializeInBackground] *)
Definition initializeInBackground : M Service unit :=
  try_catch
    (let* scopes := (fun s => (session env, s)) in
     modify (set_octokit true) ;;;
     appendLine (js "Successfully authenticated with GitHub") ;;;
     appendLine (js "Authenticated with the following scopes: " ++ join (js ", ") scopes) ;;;
     let* '(login, id, type) := (fun s => (user env, s)) in
     appendLine (js "Authenticated as: " ++ login) ;;;
     appendLine (js "User ID: " ++ string_of_Z id) ;;;
     appendLine (js "Account type: " ++ type) ;;;
     let* _ := fetchAndCacheIssues in
     ret tt)
    (fun error => handleError (js "Failed to authenticate with GitHub") error).

(** [initialize] *)
Definition initialize : M Service unit := spawn InitializeInBackground.

(** [startBackgroundRefresh] and [dispose] *)
Definition startBackgroundRefresh : M Service unit := modify (set_refreshInterval true).
Definition dispose : M Service unit := modify (set_refreshInterval false).

(** The callback of the timer, every 30 minutes while it is set. *)
Definition timer_tick : M Service unit :=
  let* on := gets refreshInterval in
  if on then spawn RefreshInBackground else ret tt.

(** [updateIssue], as the command [editIssue] calls it: with a new
    title. *)
Definition updateIssue (owner repo : jsstring) (issueNumber : IssueNumber)
    (newTitle : jsstring) : M Service unit :=
  let* client := gets octokit in
  if negb client then throw (js "GitHub API is not initialized")
  else
    try_catch
      (match update_error env with
       | Some e => throw e
       | None => modify (fun s => set_updates
                                    (updates s ++ [(issueNumber, PatchTitle newTitle)]) s)
       end ;;;
       appendLine (js "Updated issue #" ++ render_number issueNumber))
      (fun error =>
         handleError (js "Failed to update issue #" ++ render_number issueNumber) error ;;;
         throw error).

(** [updateIssueBody] *)
Definition updateIssueBody (owner repo : jsstring) (issueNumber : IssueNumber)
    (newBody : jsstring) : M Service unit :=
  let* client := gets octokit in
  if negb client then throw (js "GitHub API is not initialized")
  else
    try_catch
      (match update_error env with
       | Some e => throw e
       | None => modify (fun s => set_updates
                                    (updates s ++ [(issueNumber, PatchBody newBody)]) s)
       end ;;;
       appendLine (js "Updated body of issue #" ++ render_number issueNumber))
      (fun error =>
         handleError (js "Failed to update body of issue #" ++ render_number issueNumber) error ;;;
         throw error).

(** A pending task, run to completion. *)
Definition run_task (t : Task) : M Service unit :=
  match t with
  | RefreshInBackground => refreshInBackground
  | FetchAndUpdateInBackground => fetchAndUpdateInBackground
  | InitializeInBackground => initializeInBackground
  end.

(** The event loop taking up the oldest pending task. *)
Definition run_next : M Service unit :=
  let* p := gets pending in
  match p with
  | [] => ret tt
  | t :: rest => modify (set_pending rest) ;;; run_task t
  end.

End Service.

(** The constructor of the service: nothing cached is touched, the
    timer is set. *)
Definition newService (w : gmap jsstring CachedIssues.t) (t : Z) : Service :=
  mkService false w [] [] [] [] true [] t.

(* ===================================================================== *)
(** * [String.prototype.replace] with a global pattern *)
(* ===================================================================== *)

(** The replacement text of one match, for a pattern without capture
    groups: [$$] is a dollar sign, [$&] the match, [$`] the input
    before the match and [$'] the input after it; any other dollar sign
    stands for itself. *)
Fixpoint getSubstitution (replacement matched before after : jsstring) : jsstring :=
  match replacement with
  | [] => []
  | c :: r =>
      if (c =? 36)%N then
        match r with
        | d :: r' =>
            if (d =? 36)%N then 36%N :: getSubstitution r' matched before after
            else if (d =? 38)%N then matched ++ getSubstitution r' matched before after
            else if (d =? 96)%N then before ++ getSubstitution r' matched before after
            else if (d =? 39)%N then after ++ getSubstitution r' matched before after
            else c :: getSubstitution r matched before after
        | [] => [c]
        end
      else c :: getSubstitution r matched before after
  end.

(** The result string, from the matches and the position in the input
    after the previous match. *)
Fixpoint replace_matches (replacement input : jsstring) (ms : list MatchResult)
    (nextSourcePosition : nat) : jsstring :=
  match ms with
  | [] => drop nextSourcePosition input
  | m :: ms' =>
      take (m_index m - nextSourcePosition) (drop nextSourcePosition input)
      ++ getSubstitution replacement
           (take (m_end m - m_index m) (drop (m_index m) input))
           (take (m_index m) input) (drop (m_end m) input)
      ++ replace_matches replacement input ms' (m_end m)
  end.

(** [input.replace(new RegExp(r, 'gm'), replacement)] for a pattern [r]
    that matches no empty string (so that each match moves [lastIndex]
    forward and the length of the input bounds their number). *)
Definition replace (r : regex) (replacement input : jsstring) : jsstring :=
  match execLoop (length input) r input 0 with
  | Some ms => replace_matches replacement input ms 0
  | None => input
  end.

(* ===================================================================== *)
(** * The provider: [handleCheckboxChange] *)
(* ===================================================================== *)

(** An element of the tree view: [IssueTreeItem | GitHubIssue]. *)
Inductive TreeElement : Type :=
| ElemTreeItem (lbl : jsstring)
| ElemIssue (a : addr).

(** The state the handler works on: the store of tree nodes, the
    module variable [issueService], and what the provider sent to the
    user interface. *)
Record App := mkApp {
  tree : heap;
  issueService : option Service;
  windowErrors : list jsstring;       (* [showErrorMessage] of the provider *)
  treeDataChanged : list addr;        (* [_onDidChangeTreeData.fire] *)
  issueViewProvider : bool;           (* [setIssueViewProvider] was called *)
  viewUpdates : list Issue            (* [issueViewProvider.updateIssue] *)
}.

Definition set_tree (h : heap) (s : App) : App :=
  mkApp h (issueService s) (windowErrors s) (treeDataChanged s)
        (issueViewProvider s) (viewUpdates s).
Definition set_issueService (v : option Service) (s : App) : App :=
  mkApp (tree s) v (windowErrors s) (treeDataChanged s)
        (issueViewProvider s) (viewUpdates s).
Definition set_windowErrors (e : list jsstring) (s : App) : App :=
  mkApp (tree s) (issueService s) e (treeDataChanged s)
        (issueViewProvider s) (viewUpdates s).
Definition set_treeDataChanged (l : list addr) (s : App) : App :=
  mkApp (tree s) (issueService s) (windowErrors s) l
        (issueViewProvider s) (viewUpdates s).
Definition set_viewUpdates (l : list Issue) (s : App) : App :=
  mkApp (tree s) (issueService s) (windowErrors s) (treeDataChanged s)
        (issueViewProvider s) l.

(** Reading a property of what is not an object. *)
Definition TypeError : jsstring := js "TypeError".

Section Provider.
Variable env : Env.
Local Open Scope js_scope.

(** A method of the service, called on the object the module variable
    [issueService] holds. *)
Definition on_service {A} (c : M Service A) : M App A :=
  fun s =>
    match issueService s with
    | Some svc => let '(r, svc') := c svc in (r, set_issueService (Some svc') s)
    | None => (Throw TypeError, s)
    end.

Definition deref (a : addr) : M App GitHubIssue :=
  fun s =>
    match tree s !! a with
    | Some n => (Ok n, s)
    | None => (Throw TypeError, s)
    end.

(** A method of a tree node, called on the object at an address. *)
Definition on_tree (f : heap -> option heap) : M App unit :=
  fun s =>
    match f (tree s) with
    | Some h => (Ok tt, set_tree h s)
    | None => (Throw TypeError, s)
    end.

(** The pattern [handleCheckboxChange] builds: the label with its
    special characters escaped matches itself, so the pattern is the
    literal text of an item in state [mark]. *)
Definition itemPattern (mark : N) (itemLabel : jsstring) : regex :=
  lit (js "- [" ++ [mark] ++ js "] " ++ itemLabel).

(** The body of the loop of [handleCheckboxChange], for one pair of
    [e.items]. *)
Definition handleItem (item : TreeElement) (st : CheckboxState) : M App unit :=
  match item with
  | ElemTreeItem _ => ret tt
  | ElemIssue a =>
      let* n := deref a in
      match isCheckbox n, parent n with
      | true, Some p =>
          let chk := match st with Checked => true | Unchecked => false end in
          let* pn := deref p in
          let* parentBody := match body (issue pn) with
                             | Some b => ret b
                             | None => throw TypeError
                             end in
          let itemLabel := label n in
          let updatedBody :=
            replace (itemPattern (if chk then 32%N else 120%N) itemLabel)
                    (js "- [" ++ [if chk then 120%N else 32%N] ++ js "] " ++ itemLabel)
                    parentBody in
          let* svc := gets issueService in
          match svc with
          | Some _ =>
              let* '(owner, repo) := on_service (getGitHubRepoInfo env) in
              on_service (updateIssueBody env owner repo (number (issue pn)) updatedBody) ;;;
              modify (fun s =>
                set_tree (alter (fun m => set_issue (set_body (Some updatedBody) (issue m)) m)
                                p (tree s)) s) ;;;
              modify (fun s => set_tree (alter (set_checked chk) a (tree s)) s) ;;;
              on_tree (calculateProgress p) ;;;
              modify (fun s => set_treeDataChanged (treeDataChanged s ++ [p]) s) ;;;
              let* view := gets issueViewProvider in
              if view then
                let* pn' := deref p in
                modify (fun s => set_viewUpdates (viewUpdates s ++ [issue pn']) s)
              else ret tt
          | None =>
              modify (fun s => set_windowErrors
                (windowErrors s ++ [js "GitHub Issue Service is not initialized"]) s)
          end
      | _, _ => ret tt
      end
  end.

(** [handleCheckboxChange]: the pairs of [e.items] in order; a
    rejection ends the loop. *)
Fixpoint handleCheckboxChange (items : list (TreeElement * CheckboxState)) : M App unit :=
  match items with
  | [] => ret tt
  | (item, st) :: rest => handleItem item st ;;; handleCheckboxChange rest
  end.

End Provider.

(* ===================================================================== *)
(** * The provider: what the tree view shows *)
(* ===================================================================== *)

(** [String.prototype.includes] *)
Fixpoint includes (s t : jsstring) : bool :=
  bool_decide (take (length t) s = t)
  || match s with
     | [] => false
     | _ :: s' => includes s' t
     end.






(* ===================================================================== *)
(** * The provider: the items of the view *)
(* ===================================================================== *)

(** What the view is given: an [IssueTreeItem], a value with its label,
    its collapsible state and its optional [items], or a tree node. *)
#[warnings="-register-all"]
Inductive ViewItem : Type :=
| IssueTreeItem (lbl : jsstring) (cs : CollapsibleState) (items : option (list ViewItem))
| NodeItem (a : addr).

Module GitHubIssuesProvider.
(** The fields of the provider the view goes by, with the store of
    tree nodes. [hasSearchQuery] is the context key of that name, once
    set; [refreshes] counts the calls of [refresh]. *)
Record t := mk {
  nodes : list GitHubIssue;
  issues : list addr;
  pullRequests : list addr;
  searchQuery : jsstring;
  hasSearchQuery : option bool;
  refreshes : nat
}.
End GitHubIssuesProvider.

(** [array.some(f)]: stops at the first element that satisfies [f]. *)
Fixpoint Array_some {A} (f : A -> option bool) (l : list A) : option bool :=
  match l with
  | [] => Some false
  | x :: l' =>
      match f x with
      | Some true => Some true
      | Some false => Array_some f l'
      | None => None
      end
  end.

(** [array.filter(f)] *)
Fixpoint Array_filter {A} (f : A -> option bool) (l : list A) : option (list A) :=
  match l with
  | [] => Some []
  | x :: l' =>
      match f x, Array_filter f l' with
      | Some b, Some r => Some (if b then x :: r else r)
      | _, _ => None
      end
  end.

(** [items.map(item => new GitHubIssue(item.title, None, item, type))],
    the map of [fetchIssues] and of [setIssues]. A record of the remote
    carries its title; the result is [None] on one that does not. *)
Fixpoint newRoots (ty : NodeType) (items : list Issue) (h : heap)
  : option (list addr * heap) :=
  match items with
  | [] => Some ([], h)
  | i :: rest =>
      match title i with
      | None => None
      | Some lbl =>
          match newGitHubIssue lbl CNone i ty None false false h with
          | None => None
          | Some (a, h1) =>
              match newRoots ty rest h1 with
              | None => None
              | Some (l, h2) => Some (a :: l, h2)
              end
          end
      end
  end.

(** [setIssues] *)
Definition setIssues (issues pullRequests : list Issue) (p : GitHubIssuesProvider.t)
  : option GitHubIssuesProvider.t :=
  match newRoots TIssue issues (GitHubIssuesProvider.nodes p) with
  | None => None
  | Some (roots, h1) =>
      match newRoots TPullRequest pullRequests h1 with
      | None => None
      | Some (prs, h2) =>
          Some (GitHubIssuesProvider.mk h2 roots prs (GitHubIssuesProvider.searchQuery p)
                  (GitHubIssuesProvider.hasSearchQuery p)
                  (GitHubIssuesProvider.refreshes p))
      end
  end.


(** [refresh] *)
Definition refresh (p : GitHubIssuesProvider.t) : GitHubIssuesProvider.t :=
  GitHubIssuesProvider.mk (GitHubIssuesProvider.nodes p) (GitHubIssuesProvider.issues p)
    (GitHubIssuesProvider.pullRequests p) (GitHubIssuesProvider.searchQuery p)
    (GitHubIssuesProvider.hasSearchQuery p) (S (GitHubIssuesProvider.refreshes p)).

(** [setSearchQuery] *)
Definition setSearchQuery (query : jsstring) (p : GitHubIssuesProvider.t)
  : GitHubIssuesProvider.t :=
  refresh (GitHubIssuesProvider.mk (GitHubIssuesProvider.nodes p)
             (GitHubIssuesProvider.issues p) (GitHubIssuesProvider.pullRequests p)
             query (Some true) (GitHubIssuesProvider.refreshes p)).

(** [clearSearch] *)
Definition clearSearch (p : GitHubIssuesProvider.t) : GitHubIssuesProvider.t :=
  refresh (GitHubIssuesProvider.mk (GitHubIssuesProvider.nodes p)
             (GitHubIssuesProvider.issues p) (GitHubIssuesProvider.pullRequests p)
             [] (Some false) (GitHubIssuesProvider.refreshes p)).

Section TreeView.
(** [String.prototype.toLowerCase], which goes by the Unicode tables. *)
Variable toLowerCase : jsstring -> jsstring.

(** [matchesSearch]; [fuel] bounds the nesting of the calls on
    children ([None] when exceeded, or on a dangling address). *)
Fixpoint matchesSearch_from (fuel : nat) (h : heap) (searchQuery : jsstring)
    (item : ViewItem) : option bool :=
  match searchQuery with
  | [] => Some true
  | _ :: _ =>
      match item with
      | IssueTreeItem _ _ _ => Some true
      | NodeItem a =>
          match fuel with
          | 0 => None
          | S fuel' =>
              match h !! a with
              | None => None
              | Some n =>
                  let lowercaseQuery := toLowerCase searchQuery in
                  let matchesTitle := includes (toLowerCase (label n)) lowercaseQuery in
                  let matchesBody :=
                    match body (issue n) with
                    | Some (c :: b) => includes (toLowerCase (c :: b)) lowercaseQuery
                    | _ => false
                    end in
                  match Array_some
                          (fun child => matchesSearch_from fuel' h searchQuery (NodeItem child))
                          (children n) with
                  | None => None
                  | Some matchesChildren =>
                      Some (matchesTitle || matchesBody || matchesChildren)
                  end
              end
          end
      end
  end.

(** The nesting is bounded by the number of nodes. *)
Definition matchesSearch (p : GitHubIssuesProvider.t) (item : ViewItem) : option bool :=
  matchesSearch_from (S (length (GitHubIssuesProvider.nodes p)))
    (GitHubIssuesProvider.nodes p) (GitHubIssuesProvider.searchQuery p) item.

(** [issue.issue.state === st] *)
Definition state_is (h : heap) (st : IssueState) (a : addr) : option bool :=
  match h !! a with
  | None => None
  | Some n =>
      Some (match state (issue n), st with
            | Some StOpen, StOpen | Some StClosed, StClosed => true
            | _, _ => false
            end)
  end.

Definition counted (name : string) (n : nat) : jsstring :=
  js name ++ js " (" ++ string_of_nat n ++ js ")".

(** [getRootItems] *)
Definition getRootItems (p : GitHubIssuesProvider.t) : option (list ViewItem) :=
  let h := GitHubIssuesProvider.nodes p in
  let issues := GitHubIssuesProvider.issues p in
  let pullRequests := GitHubIssuesProvider.pullRequests p in
  match GitHubIssuesProvider.searchQuery p with
  | _ :: _ =>
      match Array_filter (matchesSearch p) (NodeItem <$> issues),
            Array_filter (matchesSearch p) (NodeItem <$> pullRequests) with
      | Some filteredIssues, Some filteredPRs =>
          Some [IssueTreeItem
                  (js "Search Results for " ++ [34%N] ++ GitHubIssuesProvider.searchQuery p
                   ++ [34%N] ++ js " ("
                   ++ string_of_nat (length filteredIssues + length filteredPRs) ++ js ")")
                  CExpanded (Some (filteredIssues ++ filteredPRs))]
      | _, _ => None
      end
  | [] =>
      match Array_filter (state_is h StOpen) issues,
            Array_filter (state_is h StClosed) issues,
            Array_filter (state_is h StOpen) pullRequests,
            Array_filter (state_is h StClosed) pullRequests with
      | Some openIssues, Some closedIssues, Some openPRs, Some closedPRs =>
          Some [IssueTreeItem (counted "Issues" (length issues)) CExpanded
                  (Some [IssueTreeItem (counted "Open Issues" (length openIssues))
                           CExpanded (Some (NodeItem <$> openIssues));
                         IssueTreeItem (counted "Closed Issues" (length closedIssues))
                           CCollapsed (Some (NodeItem <$> closedIssues))]);
                IssueTreeItem (counted "Pull Requests" (length pullRequests)) CCollapsed
                  (Some [IssueTreeItem (counted "Open Pull Requests" (length openPRs))
                           CCollapsed (Some (NodeItem <$> openPRs));
                         IssueTreeItem (counted "Closed Pull Requests" (length closedPRs))
                           CCollapsed (Some (NodeItem <$> closedPRs))])]
      | _, _, _, _ => None
      end
  end.

(** [getChildren(element)] on an element *)
Definition getChildren_of (p : GitHubIssuesProvider.t) (element : ViewItem)
  : option (list ViewItem) :=
  match element with
  | IssueTreeItem _ _ (Some items) => Array_filter (matchesSearch p) items
  | IssueTreeItem _ _ None => Some []
  | NodeItem a =>
      match GitHubIssuesProvider.nodes p !! a with
      | None => None
      | Some n => Some (NodeItem <$> children n)
      end
  end.


End TreeView.

(* ===================================================================== *)
(** * Notions used in the statements *)
(* ===================================================================== *)

(** The least number of characters a match of [r] consumes. *)
Fixpoint min_len (r : regex) : nat :=
  match r with
  | [] => 0
  | Rep _ _ lo _ :: r' => lo + min_len r'
  | _ :: r' => min_len r'
  end.

(** The number of capture groups of a pattern. *)
Fixpoint count_caps (r : regex) : nat :=
  match r with
  | [] => 0
  | Rep true _ _ _ :: r' => S (count_caps r')
  | _ :: r' => count_caps r'
  end.

(** The node [parseCheckboxes] builds for the match [m], the
    [index]-th one (from 0), under the parent at [a] with record [pi]. *)
Definition subItem (pi : Issue) (a : addr) (index : nat) (m : MatchResult)
  : GitHubIssue :=
  let chk := nth 1 (m_groups m) [] in
  let text := nth 2 (m_groups m) [] in
  beforeParse text CNone (childIssue pi index chk text) TIssue (Some a) true (is_x chk).

Definition push_children (cs : list addr) (p : GitHubIssue) : GitHubIssue :=
  set_children (children p ++ cs) p.

(** The value [calculateProgress] stores, from the number of children
    with [checked] set and the number of children. *)
Definition percent (checkedCheckboxes totalCheckboxes : nat) : Q :=
  if 0 <? totalCheckboxes
  then Qred ((inject_Z (Z.of_nat checkedCheckboxes)
              / inject_Z (Z.of_nat totalCheckboxes)) * 100)
  else 0%Q.

(** The progress node as [updateProgressBar] leaves it. *)
Definition progressNode (pi : Issue) (a : addr) (q : Q) : GitHubIssue :=
  mkNode (js "Progress") CNone
         (mkIssue (NumStr (render_number (number pi) ++ js ".progress"))
                  None None None false)
         TProgressBar (Some a) false false [] q None
         (Some (progress_tooltip q)) None None None None
         (Some (createSvgProgressBar q)).

(** What [updateProgressBar] does to the node at [a] when it makes a
    new progress node at [pb]. *)
Definition link_progressBar (pb : addr) (m : GitHubIssue) : GitHubIssue :=
  set_children (pb :: children m) (set_progressBar (Some pb) m).

(** What [updateProgressBar] does to the progress node. *)
Definition fill_progressBar (q : Q) (m : GitHubIssue) : GitHubIssue :=
  set_svgProgress (Some (createSvgProgressBar q))
    (set_tooltip (Some (progress_tooltip q)) (set_progress q m)).

(** The children of the node at [a] that are sub-items (checklist
    items), in the order of [children]. *)
Definition sub_items (h : heap) (a : addr) : list GitHubIssue :=
  match h !! a with
  | Some n => List.filter isCheckbox (omap (fun c => h !! c) (children n))
  | None => []
  end.

(** The children of the node at [a] that are progress nodes. *)
Definition progress_children (h : heap) (a : addr) : list GitHubIssue :=
  match h !! a with
  | Some n =>
      List.filter (fun c => bool_decide (type c = TProgressBar))
                  (omap (fun c => h !! c) (children n))
  | None => []
  end.

(** Following the specification: the lines of a body ... *)
Fixpoint split_lines (s : jsstring) (line : jsstring) : list jsstring :=
  match s with
  | [] => [rev line]
  | c :: s' =>
      if is_line_terminator c then rev line :: split_lines s' []
      else split_lines s' (c :: line)
  end.

(** ... and a line that is a checklist item: optional leading
    whitespace, the list marker, a checkbox marker, free text to the end
    of the line; the pattern of the code, held against the line alone. *)
Definition spec_line_item (line : jsstring) : option (bool * jsstring) :=
  match rmatch checkboxRegex None line with
  | Some ([_; chk; text], len) =>
      if len =? length line then Some (is_x chk, text) else None
  | _ => None
  end.

(** Following the specification: the items of a body, one per matching
    line, in line order, as [(checked, text)]. *)
Definition spec_items (b : jsstring) : list (bool * jsstring) :=
  omap spec_line_item (split_lines b []).

(** What the specification says of the sub-item made from an item. *)
Definition item_view (n : GitHubIssue) : bool * jsstring :=
  (checked n, label n).

(** The fields of a node that recomputing a progress leaves alone. *)
Definition same_item (n n' : GitHubIssue) : Prop :=
  label n' = label n /\ issue n' = issue n /\ type n' = type n
  /\ parent n' = parent n /\ isCheckbox n' = isCheckbox n
  /\ checked n' = checked n.

(** [toggleCheckbox] on the node itself: the flag and its view. *)
Definition flip_checked (n : GitHubIssue) : GitHubIssue :=
  set_checkboxState (Some (getCheckboxState (negb (checked n))))
                    (set_checked (negb (checked n)) n).

Section ServiceNotions.
Variable env : Env.

(** The key [getCacheKey] makes of the repository. *)
Definition cacheKey_of (owner repo : jsstring) : jsstring :=
  js "githubIssues_" ++ owner ++ js "_" ++ repo.

(** The two pages a fetch asks for. *)
Definition firstPage (st : IssueState) : list Issue :=
  take 100 (match st with
            | StOpen => remote_open env
            | StClosed => remote_closed env
            end).

(** The state after a fetch that succeeded with [items]. *)
Definition fetched (owner repo : jsstring) (allItems : list Issue) (s : Service)
  : Items.t * Service :=
  let issues := List.filter (fun item => negb (pull_request item)) allItems in
  let pullRequests := List.filter (fun item => pull_request item) allItems in
  (Items.mk issues pullRequests,
   set_dataUpdated (dataUpdated s ++ [Items.mk issues pullRequests])
     (set_output
        (output s ++ [js "Fetched and cached " ++ string_of_nat (length issues)
                      ++ js " GitHub issues and " ++ string_of_nat (length pullRequests)
                      ++ js " pull requests for " ++ owner ++ js "/" ++ repo])
        (set_workspaceState
           (<[cacheKey_of owner repo := CachedIssues.mk (now s) issues pullRequests]>
              (workspaceState s)) s))).

(** Why fetching items raises in state [s], if it does. *)
Definition fetch_error (s : Service) : option jsstring :=
  if octokit s then list_error env else Some (js "GitHub API is not initialized").

(** The state after a fetch that raised [e]: the error is reported,
    and the cached entry, if any, is the result. *)
Definition fallen_back (owner repo e : jsstring) (s : Service)
  : outcome Items.t * Service :=
  let message := js "Error fetching GitHub issues and pull requests" in
  let s1 := set_errorMessages
              (errorMessages s ++ [message ++ js ". Check output for details."])
              (set_output (output s ++ [message ++ js ": " ++ e]) s) in
  match workspaceState s !! cacheKey_of owner repo with
  | Some c =>
      (Ok (Items.mk (CachedIssues.issues c) (CachedIssues.pullRequests c)),
       set_output
         (output s1
          ++ [js "Using fallback cached issues and pull requests due to fetch error"])
         s1)
  | None => (Ok Items.empty, s1)
  end.

End ServiceNotions.

(** The remote [getGitHubRepoInfo] reads: the first one named
    [origin]. *)
Definition origin_url (env : Env) : option jsstring :=
  snd <$> List.find (fun r => bool_decide (r.1 = js "origin")) (git_remotes env).

(** The line the cache reads log when they serve an entry. *)
Definition using_cached : jsstring := js "Using cached GitHub issues and pull requests".

(** The state after [handleError message error]. *)
Definition reported (message error : jsstring) (s : Service) : Service :=
  set_errorMessages (errorMessages s ++ [message ++ js ". Check output for details."])
    (set_output (output s ++ [message ++ js ": " ++ error]) s).

(** What no fetch changes: the client, the timer, the tasks started,
    the updates sent and the clock. *)
Definition same_frame (s s1 : Service) : Prop :=
  octokit s1 = octokit s /\ refreshInterval s1 = refreshInterval s
  /\ pending s1 = pending s /\ updates s1 = updates s /\ now s1 = now s.

(** The text of a checklist line as [handleCheckboxChange] writes it,
    with [mark] between the brackets. *)
Definition itemLine (mark : N) (itemLabel : jsstring) : jsstring :=
  js "- [" ++ [mark] ++ js "] " ++ itemLabel.

(** The [updatedBody] of [handleCheckboxChange]. *)
Definition updatedBody (chk : bool) (itemLabel parentBody : jsstring) : jsstring :=
  replace (itemPattern (if chk then 32%N else 120%N) itemLabel)
          (js "- [" ++ [if chk then 120%N else 32%N] ++ js "] " ++ itemLabel)
          parentBody.

(** The text [seg1 t seg2 t ... segn t last]. *)
Fixpoint interleave (segs : list jsstring) (t last : jsstring) : jsstring :=
  match segs with
  | [] => last
  | seg :: segs' => seg ++ t ++ interleave segs' t last
  end.

(** No occurrence of [t] starts within [seg] when [t] follows it. *)
Definition none_starts_in (t seg : jsstring) : Prop :=
  includes (seg ++ take (length t - 1) t) t = false.

(** An element the loop of [handleCheckboxChange] passes over. *)
Definition passed_over (h : heap) (item : TreeElement) : Prop :=
  match item with
  | ElemTreeItem _ => True
  | ElemIssue a =>
      exists n, h !! a = Some n /\ (isCheckbox n = false \/ parent n = None)
  end.

(** What an update of issue [num] with [patch] comes to, [r] being the
    result and the service after it: one update sent and nothing shown
    when it fulfils; when it rejects, no update sent, and either no
    client and nothing logged, or the remote's refusal logged and
    shown under [failed]. The cache, the subscribers and the tasks are
    out of it. *)
Definition update_outcome (env : Env) (svc : Service) (failed : jsstring)
    (num : IssueNumber) (patch : Patch) (r : outcome unit * Service) : Prop :=
  workspaceState r.2 = workspaceState svc
  /\ dataUpdated r.2 = dataUpdated svc
  /\ pending r.2 = pending svc
  /\ match r.1 with
     | Ok _ =>
         octokit svc = true /\ update_error env = None
         /\ updates r.2 = updates svc ++ [(num, patch)]
         /\ errorMessages r.2 = errorMessages svc
     | Throw e =>
         updates r.2 = updates svc
         /\ ((octokit svc = false /\ e = js "GitHub API is not initialized" /\ r.2 = svc)
             \/ (octokit svc = true /\ update_error env = Some e
                 /\ output r.2
                    = output svc ++ [(failed ++ render_number num) ++ js ": " ++ e]
                 /\ errorMessages r.2
                    = errorMessages svc
                      ++ [(failed ++ render_number num) ++ js ". Check output for details."]))
     end.

(** A root node built from the record [i] of the remote: what
    [setIssues] and [fetchIssues] leave at address [a] of the store. *)
Definition root_of (h : heap) (ty : NodeType) (a : addr) (i : Issue) : Prop :=
  exists n,
    h !! a = Some n
    /\ Some (label n) = title i
    /\ type n = ty
    /\ parent n = None
    /\ isCheckbox n = false
    /\ issue n = set_body (Some (body_or_empty (body i))) i.

(** [item.state === st] on a record. *)
Definition has_state (st : IssueState) (i : Issue) : bool :=
  match state i, st with
  | Some StOpen, StOpen | Some StClosed, StClosed => true
  | _, _ => false
  end.

Section SearchNotions.
Variable toLowerCase : jsstring -> jsstring.

(** The node itself matches the query: by its label or by its body. *)
Definition matches_own (q : jsstring) (n : GitHubIssue) : bool :=
  includes (toLowerCase (label n)) (toLowerCase q)
  || match body (issue n) with
     | Some (c :: b) => includes (toLowerCase (c :: b)) (toLowerCase q)
     | _ => false
     end.

End SearchNotions.

(** The two groups [getRootItems] makes of a list of roots. *)
Definition state_groups (total open closed : string) (openState : CollapsibleState)
    (cs : CollapsibleState) (n nOpen nClosed : nat) (openRoots closedRoots : list addr)
  : ViewItem :=
  IssueTreeItem (counted total n) cs
    (Some [IssueTreeItem (counted open nOpen) openState (Some (NodeItem <$> openRoots));
           IssueTreeItem (counted closed nClosed) CCollapsed
             (Some (NodeItem <$> closedRoots))]).

(* ===================================================================== *)
(** * Sample data *)
(* ===================================================================== *)

Module Sample.

Definition an_issue (n : Z) (t : string) (b : jsstring) : Issue :=
  mkIssue (NumInt n) (Some (js t)) (Some b) (Some StOpen) false.

(** Four checklist lines, the first one checked. *)
Definition body4 : jsstring :=
  js "- [x] a" ++ [LF] ++ js "- [ ] b" ++ [LF] ++ js "- [ ] c" ++ [LF] ++ js "- [ ] d".

(** An item without text, then a line of plain text. *)
Definition body_split : jsstring := js "- [ ]" ++ [LF] ++ js "foo".

Definition env : Env :=
  mkEnv (Some (js "/w"))
        [(js "origin", js "git@github.com:MadcowD/github-issues.git")]
        (Ok [js "repo"]) (Ok (js "octocat", 1%Z, js "User"))
        [an_issue 1 "one" []; mkIssue (NumInt 2) (Some (js "two")) None (Some StOpen) true]
        [an_issue 3 "three" body4]
        None None.

Definition key : jsstring := js "githubIssues_MadcowD_github-issues".

Definition minutes (n : Z) : Z := (n * 60 * 1000)%Z.

(** An entry written at time 1000, holding two items. *)
Definition entry : CachedIssues.t :=
  CachedIssues.mk 1000 [an_issue 9 "old" []]
                  [mkIssue (NumInt 8) (Some (js "pr")) None (Some StClosed) true].

(** A service with [entry] cached, [age] milliseconds later. *)
Definition svc (authenticated : bool) (age : Z) : Service :=
  mkService authenticated {[ key := entry ]} [] [] [] [] true [] (1000 + age).

(** A signed-in service with nothing cached. *)
Definition svc_empty : Service := mkService true ∅ [] [] [] [] true [] 5000.

(** The remote does not answer. *)
Definition env_down : Env :=
  mkEnv (workspaceRoot env) (git_remotes env) (session env) (user env)
        (remote_open env) (remote_closed env)
        (Some (js "Network error")) (Some (js "Network error")).

(** The tree of an issue with the four checklist lines of [body4]:
    the node at 0, its sub-items at 1 to 4, its progress node at 5. *)
Definition tree4 : list GitHubIssue :=
  match newGitHubIssue (js "T") CNone (an_issue 7 "T" body4) TIssue None false false [] with
  | Some (_, h) => h
  | None => []
  end.

(** The provider over [tree4], with a signed-in service. *)
Definition app4 : App :=
  mkApp tree4 (Some (mkService true ∅ [] [] [] [] true [] 5000)) [] [] true [].

(** A repository with 101 open issues. *)
Definition env_many : Env :=
  mkEnv (workspaceRoot env) (git_remotes env) (session env) (user env)
        (map (fun n => an_issue (Z.of_nat n) "item" []) (seq 1 101)) []
        None None.

Definition tree4_toggled : list GitHubIssue :=
  match toggleCheckbox 2 tree4 with Some h => h | None => [] end.

(** The [origin] remote is no GitHub repository. *)
Definition env_gitlab : Env :=
  mkEnv (workspaceRoot env) [(js "origin", js "https://gitlab.com/a/b.git")]
        (session env) (user env)
        (remote_open env) (remote_closed env) None None.

(** The user declines to sign in. *)
Definition env_declined : Env :=
  mkEnv (workspaceRoot env) (git_remotes env)
        (Throw (js "User did not consent to login.")) (user env)
        (remote_open env) (remote_closed env) None None.

(** The session is granted, the user lookup is refused. *)
Definition env_no_user : Env :=
  mkEnv (workspaceRoot env) (git_remotes env)
        (session env) (Throw (js "Bad credentials"))
        (remote_open env) (remote_closed env) None None.

(** A clone over HTTPS of a URL without the [.git] suffix. *)
Definition env_bare : Env :=
  mkEnv (workspaceRoot env)
        [(js "upstream", js "git@github.com:octo/up.git");
         (js "origin", js "https://github.com/MadcowD/github-issues")]
        (session env) (user env)
        (remote_open env) (remote_closed env) None None.

(** A provider that holds nothing yet. *)
Definition provider0 : GitHubIssuesProvider.t :=
  GitHubIssuesProvider.mk [] [] [] [] None 0.

(** [toLowerCase] on the letters A to Z; the samples hold no other
    character with a lower case. *)
Definition lower (s : jsstring) : jsstring :=
  map (fun c => if ((65 <=? c) && (c <=? 90))%N then (c + 32)%N else c) s.

End Sample.

(* ===================================================================== *)
(** * The loops terminate *)
(* ===================================================================== *)

Section RegExpFacts.

Lemma backtrack_Some {A} (attempt : nat -> option A) lo d x :
  backtrack attempt lo d = Some x ->
  exists j, lo <= j <= lo + d /\ attempt j = Some x.
Proof.
  induction d as [|d IH]; simpl.
  - destruct (attempt (lo + 0)) eqn:E; [|discriminate].
    intros [= <-]. exists (lo + 0). split; [lia|exact E].
  - destruct (attempt (lo + S d)) eqn:E.
    + intros [= <-]. exists (lo + S d). split; [lia|exact E].
    + intros H. destruct (IH H) as (j & Hj & Hx). exists j. split; [lia|exact Hx].
Qed.

Lemma run_length_le k s : run_length k s <= length s.
Proof.
  induction s as [|c s IH]; simpl; [lia|].
  destruct (cls_matches k c); simpl; lia.
Qed.

Lemma rmatch_len r : forall prev s caps len,
  rmatch r prev s = Some (caps, len) -> min_len r <= len <= length s.
Proof.
  induction r as [|nd r IH]; intros prev s caps len; simpl.
  - intros [= _ <-]. lia.
  - destruct nd as [| |cap k lo hi].
    + destruct (at_line_start prev); [apply IH|discriminate].
    + destruct (at_line_end s); [apply IH|discriminate].
    + set (n := match hi with
                | Some h => Nat.min h (run_length k s)
                | None => run_length k s
                end).
      assert (Hn : n <= length s).
      { pose proof (run_length_le k s). subst n. destruct hi; lia. }
      destruct (n <? lo) eqn:Hlt; [discriminate|].
      apply Nat.ltb_ge in Hlt.
      intros H. apply backtrack_Some in H as (j & Hj & H).
      destruct (rmatch r (last_char prev (take j s)) (drop j s))
        as [[caps' len']|] eqn:E; [|discriminate].
      injection H as _ <-.
      apply IH in E. rewrite length_drop in E. lia.
Qed.

Lemma search_bounds r : forall s prev i m,
  search r prev s i = Some m ->
  i <= m_index m /\ m_index m + min_len r <= m_end m /\ m_end m <= i + length s.
Proof.
  induction s as [|c s IH]; intros prev i m; simpl.
  - destruct (rmatch r prev []) as [[caps len]|] eqn:E; [|discriminate].
    intros [= <-]. apply rmatch_len in E. simpl in *. lia.
  - destruct (rmatch r prev (c :: s)) as [[caps len]|] eqn:E.
    + intros [= <-]. apply rmatch_len in E. simpl in *. lia.
    + intros H. apply IH in H. lia.
Qed.

Lemma exec_bounds r input lastIndex m :
  exec r input lastIndex = Some m ->
  lastIndex <= m_index m /\ m_index m + min_len r <= m_end m
  /\ m_end m <= length input.
Proof.
  unfold exec. destruct (length input <? lastIndex) eqn:E; [discriminate|].
  apply Nat.ltb_ge in E. intros H. apply search_bounds in H.
  rewrite length_drop in H. lia.
Qed.

(** A pattern that matches no empty string is found at most as many
    times as the input has characters: the loop on [exec] ends. *)
Lemma execLoop_total r : 0 < min_len r ->
  forall fuel input lastIndex,
    length input <= lastIndex + fuel ->
    is_Some (execLoop fuel r input lastIndex).
Proof.
  intros Hr fuel. induction fuel as [|fuel IH]; intros input lastIndex Hf; simpl.
  - destruct (exec r input lastIndex) as [m|] eqn:E; [|by eexists].
    apply exec_bounds in E. lia.
  - destruct (exec r input lastIndex) as [m|] eqn:E; [|by eexists].
    apply exec_bounds in E.
    destruct (IH input (m_end m)) as [ms Hms]; [lia|].
    rewrite Hms. by eexists.
Qed.

Lemma min_len_checkboxRegex : min_len checkboxRegex = 5.
Proof. reflexivity. Qed.

Lemma min_len_lit s : min_len (lit s) = length s.
Proof. induction s as [|c s IH]; simpl; [reflexivity|]. by rewrite <- IH. Qed.

(** The replacement loop of [handleCheckboxChange] never runs out. *)
Lemma replace_itemPattern_total mark itemLabel input :
  is_Some (execLoop (length input) (itemPattern mark itemLabel) input 0).
Proof.
  apply execLoop_total; [|lia].
  unfold itemPattern. rewrite min_len_lit. simpl. lia.
Qed.

End RegExpFacts.

Section TreeFacts.

Lemma rmatch_caps r : forall prev s caps len,
  rmatch r prev s = Some (caps, len) -> length caps = count_caps r.
Proof.
  induction r as [|nd r IH]; intros prev s caps len; simpl.
  - by intros [= <- _].
  - destruct nd as [| |cap k lo hi].
    + destruct (at_line_start prev); [apply IH|discriminate].
    + destruct (at_line_end s); [apply IH|discriminate].
    + match goal with |- context [if ?c then _ else _] => destruct c end;
        [discriminate|].
      intros H. apply backtrack_Some in H as (j & _ & H).
      destruct (rmatch r (last_char prev (take j s)) (drop j s))
        as [[caps' len']|] eqn:E; [|discriminate].
      injection H as <- _. apply IH in E.
      destruct cap; simpl; by rewrite E.
Qed.

Lemma search_caps r : forall s prev i m,
  search r prev s i = Some m -> length (m_groups m) = count_caps r.
Proof.
  induction s as [|c s IH]; intros prev i m; simpl.
  - destruct (rmatch r prev []) as [[caps len]|] eqn:E; [|discriminate].
    intros [= <-]. simpl. by eapply rmatch_caps.
  - destruct (rmatch r prev (c :: s)) as [[caps len]|] eqn:E.
    + intros [= <-]. simpl. by eapply rmatch_caps.
    + apply IH.
Qed.

(** A match of the checklist pattern has its three groups. *)
Lemma exec_checkbox_groups input lastIndex m :
  exec checkboxRegex input lastIndex = Some m ->
  exists indent chk text, m_groups m = [indent; chk; text].
Proof.
  unfold exec. destruct (length input <? lastIndex); [discriminate|].
  intros H. apply search_caps in H. change (count_caps checkboxRegex) with 3 in H.
  destruct (m_groups m) as [|g1 [|g2 [|g3 [|g4 l]]]]; try discriminate.
  by exists g1, g2, g3.
Qed.

Lemma exec_checkbox_empty : exec checkboxRegex [] 0 = None.
Proof. reflexivity. Qed.

Lemma set_collapsibleState_beforeParse lbl i ty par isCb chk :
  set_collapsibleState CNone (beforeParse lbl CNone i ty par isCb chk)
  = beforeParse lbl CNone i ty par isCb chk.
Proof. reflexivity. Qed.

Lemma alter_snoc {A} (f : A -> A) (l : list A) (x : A) :
  alter f (length l) (l ++ [x]) = l ++ [f x].
Proof.
  replace (length l) with (length l + 0) by lia. by rewrite alter_app_r.
Qed.

Lemma lookup_snoc {A} (l : list A) (x : A) : (l ++ [x]) !! length l = Some x.
Proof. by apply list_lookup_middle. Qed.

(** A node whose body holds no match of the checklist pattern is built
    without children and without a progress node, at any depth bound
    of at least one. *)
Lemma construct_no_match depth lbl cs i ty par isCb chk h :
  ty <> TProgressBar ->
  exec checkboxRegex (body_or_empty (body i)) 0 = None ->
  construct (S depth) lbl cs i ty par isCb chk h
  = Some (length h,
          h ++ [set_collapsibleState CNone (beforeParse lbl cs i ty par isCb chk)]).
Proof.
  intros Hty Hex. simpl.
  assert (Hp : parseCheckboxes (construct depth) (length h)
                 (h ++ [beforeParse lbl cs i ty par isCb chk])
               = Some (h ++ [beforeParse lbl cs i ty par isCb chk])).
  { unfold parseCheckboxes. rewrite lookup_snoc. simpl.
    rewrite lookup_snoc. simpl. by rewrite Hex. }
  destruct ty; [| |congruence]; rewrite Hp; simpl; rewrite lookup_snoc; simpl;
    by rewrite alter_snoc.
Qed.

Lemma push_children_nil p : push_children [] p = p.
Proof. unfold push_children. rewrite app_nil_r. by destruct p. Qed.

Lemma push_children_app cs1 cs2 p :
  push_children cs2 (push_children cs1 p) = push_children (cs1 ++ cs2) p.
Proof. unfold push_children. simpl. by rewrite app_assoc. Qed.

(** The loop of [parseCheckboxes] in closed form: one new node per
    match, allocated in match order right after the store, and their
    addresses pushed onto the children of the parent. *)
Lemma construct_S depth lbl cs i ty par isCb chk (h : heap) :
  ty <> TProgressBar ->
  construct (S depth) lbl cs i ty par isCb chk h
  = (parseCheckboxes (construct depth) (length h)
      (h ++ [beforeParse lbl cs i ty par isCb chk]))
    ≫= (fun h1 =>
          h1 !! length h
          ≫= (fun n1 =>
                let h2 := alter (set_collapsibleState
                                   (if 0 <? length (children n1)
                                    then CExpanded else CNone))
                                (length h) h1 in
                if 0 <? length (children n1)
                then calculateProgress (length h) h2
                     ≫= (fun h3 => Some (length h, h3))
                else Some (length h, h2))).
Proof. intros Hty. destruct ty; [reflexivity|reflexivity|congruence]. Qed.

#[local] Arguments construct : simpl never.

Lemma parseLoop_spec depth a b : forall fuel lastIndex index (h : heap) n ms,
  h !! a = Some n ->
  body (issue n) = Some b ->
  execLoop fuel checkboxRegex b lastIndex = Some ms ->
  parseLoop fuel (construct (S depth)) a lastIndex index h
  = Some (alter (push_children (seq (length h) (length ms))) a h
          ++ imap (fun k m => subItem (issue n) a (index + k) m) ms).
Proof.
  induction fuel as [|fuel IH]; intros lastIndex index h n ms Ha Hb; simpl;
    rewrite Ha; simpl; rewrite Hb; simpl.
  - destruct (exec checkboxRegex b lastIndex) as [m|]; [discriminate|].
    intros [= <-]. simpl. rewrite app_nil_r.
    rewrite list_alter_id; [done|apply push_children_nil].
  - destruct (exec checkboxRegex b lastIndex) as [m|] eqn:E.
    2:{ intros [= <-]. simpl. rewrite app_nil_r.
        rewrite list_alter_id; [done|apply push_children_nil]. }
    destruct (execLoop fuel checkboxRegex b (m_end m)) as [ms'|] eqn:E';
      [|discriminate].
    intros [= <-].
    destruct (exec_checkbox_groups _ _ _ E) as (g1 & chk & text & Hg).
    rewrite Hg.
    rewrite construct_no_match; [|discriminate|reflexivity].
    simpl. rewrite set_collapsibleState_beforeParse.
    assert (Hlt : a < length h) by (by eapply lookup_lt_Some).
    rewrite alter_app_l by exact Hlt.
    erewrite (IH (m_end m) (S index) _ (push_children [length h] n) ms');
      [| |exact Hb|exact E'].
    2:{ rewrite lookup_app_l by (by rewrite length_alter).
        rewrite list_lookup_alter_eq, Ha. reflexivity. }
    f_equal. rewrite alter_app_l by (by rewrite length_alter).
    rewrite list_alter_alter_eq. rewrite <- app_assoc. f_equal.
    + apply list_alter_ext; [|reflexivity]. intros x _. simpl.
      change (set_children (children x ++ [length h]) x)
        with (push_children [length h] x).
      rewrite push_children_app. do 2 f_equal.
      rewrite length_app, length_alter. simpl.
      replace (length h + 1) with (S (length h)) by lia. reflexivity.
    + simpl. f_equal.
      * unfold subItem. rewrite Hg. simpl. by rewrite Nat.add_0_r.
      * apply imap_ext. intros k m' _. simpl.
        by rewrite Nat.add_succ_r.
Qed.

Lemma calculateProgress_eq (h : heap) a n kids :
  h !! a = Some n ->
  mapM (fun c => h !! c) (children n) = Some kids ->
  calculateProgress a h
  = updateProgressBar a
      (alter (set_progress (percent (length (List.filter checked kids))
                                    (length (children n)))) a h).
Proof. intros Ha Hk. unfold calculateProgress. rewrite Ha. simpl. by rewrite Hk. Qed.

Lemma updateProgressBar_new (h : heap) a n :
  h !! a = Some n ->
  progressBar n = None ->
  updateProgressBar a h
  = Some (alter (link_progressBar (length h)) a h
          ++ [progressNode (issue n) a (progress n)]).
Proof.
  intros Ha Hp. unfold updateProgressBar. rewrite Ha. simpl. rewrite Hp.
  unfold newProgressBar. f_equal.
  assert (Hlt : a < length h) by (by eapply lookup_lt_Some).
  rewrite alter_app_l by exact Hlt.
  rewrite <- (length_alter (link_progressBar (length h)) h a) at 1.
  by rewrite alter_snoc.
Qed.

Lemma updateProgressBar_old (h : heap) a n pb :
  h !! a = Some n ->
  progressBar n = Some pb ->
  updateProgressBar a h = Some (alter (fill_progressBar (progress n)) pb h).
Proof. intros Ha Hp. unfold updateProgressBar. rewrite Ha. simpl. by rewrite Hp. Qed.

Lemma mapM_lookup_seq {A} (l pre post : list A) :
  mapM (fun c => (pre ++ l ++ post) !! c) (seq (length pre) (length l)) = Some l.
Proof.
  apply mapM_Some_2. revert pre. induction l as [|x l IH]; intros pre; simpl.
  - constructor.
  - constructor.
    + by apply list_lookup_middle.
    + specialize (IH (pre ++ [x])). rewrite length_app in IH. simpl in IH.
      replace (length pre + 1) with (S (length pre)) in IH by lia.
      by rewrite <- app_assoc in IH.
Qed.

Lemma alter_root {A} (f : A -> A) (h : list A) x l :
  alter f (length h) ((h ++ [x]) ++ l) = (h ++ [f x]) ++ l.
Proof.
  rewrite alter_app_l by (rewrite length_app; simpl; lia). by rewrite alter_snoc.
Qed.

Lemma lookup_root {A} (h : list A) x l : ((h ++ [x]) ++ l) !! length h = Some x.
Proof.
  rewrite lookup_app_l by (rewrite length_app; simpl; lia). apply lookup_snoc.
Qed.

(** The constructor in closed form, on a body with at least one match:
    the store grows by the node, its sub-items in match order, and the
    progress node, in this order. *)
Lemma construct_spec depth lbl cs i ty par isCb chk (h : heap) ms :
  ty <> TProgressBar ->
  execLoop (S (length (body_or_empty (body i)))) checkboxRegex
           (body_or_empty (body i)) 0 = Some ms ->
  ms <> [] ->
  let a := length h in
  let k := length ms in
  let i' := set_body (Some (body_or_empty (body i))) i in
  let leaves := imap (fun j m => subItem i' a j m) ms in
  let q := percent (length (List.filter checked leaves)) k in
  construct (S (S depth)) lbl cs i ty par isCb chk h
  = Some (a, (h ++ [link_progressBar (S a + k)
                      (set_progress q
                         (set_collapsibleState CExpanded
                            (push_children (seq (S a) k)
                               (beforeParse lbl cs i ty par isCb chk))))])
              ++ leaves ++ [progressNode i' a q]).
Proof.
  intros Hty Hms Hne a k i' leaves q.
  assert (Hk : (0 <? k) = true).
  { apply Nat.ltb_lt. subst k. destruct ms; [congruence|simpl; lia]. }
  assert (Hlen : length leaves = k) by (subst leaves; by rewrite length_imap).
  rewrite construct_S by exact Hty.
  assert (Hp : parseCheckboxes (construct (S depth)) (length h)
                 (h ++ [beforeParse lbl cs i ty par isCb chk])
               = Some ((h ++ [push_children (seq (S a) k)
                                (beforeParse lbl cs i ty par isCb chk)])
                       ++ leaves)).
  { unfold parseCheckboxes. rewrite lookup_snoc.
    change (Some ?x ≫= ?f) with (f x). cbv beta.
    erewrite (parseLoop_spec depth _ (body_or_empty (body i)));
      [|apply lookup_snoc|reflexivity|exact Hms].
    rewrite length_app. simpl length.
    replace (length h + 1) with (S a) by (subst a; lia).
    rewrite alter_snoc. reflexivity. }
  rewrite Hp. clear Hp.
  change (Some ?x ≫= ?f) with (f x). cbv beta.
  rewrite lookup_root.
  change (Some ?x ≫= ?f) with (f x). cbv beta zeta.
  replace (length (children (push_children (seq (S a) k)
             (beforeParse lbl cs i ty par isCb chk)))) with k
    by (simpl; by rewrite length_seq).
  rewrite Hk.
  rewrite alter_root.
  set (root := set_collapsibleState CExpanded
                 (push_children (seq (S a) k) (beforeParse lbl cs i ty par isCb chk))).
  assert (Hkids : mapM (fun c => ((h ++ [root]) ++ leaves) !! c) (children root)
                  = Some leaves).
  { pose proof (mapM_lookup_seq leaves (h ++ [root]) []) as H.
    rewrite app_nil_r, length_app, Hlen in H. simpl in H.
    replace (length h + 1) with (S a) in H by (subst a; lia).
    exact H. }
  rewrite (calculateProgress_eq _ _ root leaves (lookup_root _ _ _) Hkids).
  rewrite alter_root.
  replace (length (children root)) with k by (simpl; by rewrite length_seq).
  fold q.
  erewrite updateProgressBar_new; [|apply lookup_root|reflexivity].
  rewrite alter_root. simpl.
  rewrite !length_app, Hlen. simpl.
  replace (length h + 1 + k) with (S (a + k)) by (subst a; lia).
  by rewrite <- app_assoc.
Qed.

Lemma execLoop_nil fuel r input lastIndex :
  execLoop (S fuel) r input lastIndex = Some [] -> exec r input lastIndex = None.
Proof.
  simpl. destruct (exec r input lastIndex) as [m|]; [|done].
  by destruct (execLoop fuel r input (m_end m)).
Qed.

(** The constructor returns, and a depth bound above two changes
    nothing. *)
Lemma construct_total depth lbl cs i ty par isCb chk (h : heap) :
  is_Some (newGitHubIssue lbl cs i ty par isCb chk h)
  /\ construct (2 + depth) lbl cs i ty par isCb chk h
     = newGitHubIssue lbl cs i ty par isCb chk h.
Proof.
  unfold newGitHubIssue. change (2 + depth) with (S (S depth)).
  destruct (decide (ty = TProgressBar)) as [->|Hty];
    [split; [by eexists|reflexivity]|].
  destruct (execLoop_total checkboxRegex ltac:(rewrite min_len_checkboxRegex; lia)
              (S (length (body_or_empty (body i)))) (body_or_empty (body i)) 0
              ltac:(lia)) as [ms Hms].
  destruct ms as [|m ms].
  - apply execLoop_nil in Hms.
    rewrite !construct_no_match by done. split; [by eexists|done].
  - rewrite (construct_spec depth _ _ _ _ _ _ _ _ _ Hty Hms) by done.
    rewrite (construct_spec 0 _ _ _ _ _ _ _ _ _ Hty Hms) by done.
    split; [by eexists|done].
Qed.

End TreeFacts.

(* ===================================================================== *)
(** * The service: fetching, caching, falling back *)
(* ===================================================================== *)

Section ServiceFacts.
Variable env : Env.

Ltac mred :=
  unfold bind, ret, gets, modify, throw, try_catch, appendLine,
         showErrorMessage, fire, spawn; simpl.

(** Resolving the repository reads the environment only. *)
Lemma getGitHubRepoInfo_pure s s' r s1 :
  getGitHubRepoInfo env s = (r, s1) ->
  s1 = s /\ getGitHubRepoInfo env s' = (r, s').
Proof.
  unfold getGitHubRepoInfo.
  destruct (workspaceRoot env) as [[|c w]|]; mred;
    try (intros [= <- <-]; done).
  destruct (List.find _ (git_remotes env)) as [originRemote|]; mred;
    try (intros [= <- <-]; done).
  destruct (search githubRegex None originRemote.2 0) as [[ix [|o [|r' [|x l]]] en]|];
    mred; intros [= <- <-]; done.
Qed.

Lemma getCacheKey_ok s owner repo :
  getGitHubRepoInfo env s = (Ok (owner, repo), s) ->
  forall s', getCacheKey env s' = (Ok (cacheKey_of owner repo), s').
Proof.
  intros H s'. destruct (getGitHubRepoInfo_pure _ s' _ _ H) as [_ H'].
  unfold getCacheKey, bind. rewrite H'. reflexivity.
Qed.

Lemma listForRepo_ok st :
  list_error env = None -> listForRepo env st 100 None = Ok (firstPage env st).
Proof. intros H. unfold listForRepo, firstPage. rewrite H. by destruct st. Qed.

Lemma bind_ok {S A B} (c : M S A) (k : A -> M S B) s a s' :
  c s = (Ok a, s') -> bind c k s = k a s'.
Proof. intros H. unfold bind. by rewrite H. Qed.

Lemma bind_throw {S A B} (c : M S A) (k : A -> M S B) s e s' :
  c s = (Throw e, s') -> bind c k s = (Throw e, s').
Proof. intros H. unfold bind. by rewrite H. Qed.

Lemma fetchItems_ok s owner repo st :
  octokit s = true -> list_error env = None ->
  fetchItems env owner repo st s = (Ok (firstPage env st), s).
Proof.
  intros Hok Hlist. unfold fetchItems.
  erewrite bind_ok by reflexivity. rewrite Hok. simpl.
  by rewrite listForRepo_ok.
Qed.

(** A fetch with the repository resolved, the client signed in and the
    remote answering. *)
Lemma fetchAndCacheIssues_success s owner repo :
  getGitHubRepoInfo env s = (Ok (owner, repo), s) ->
  octokit s = true ->
  list_error env = None ->
  fetchAndCacheIssues env s
  = (Ok (fetched owner repo (firstPage env StOpen ++ firstPage env StClosed) s).1,
     (fetched owner repo (firstPage env StOpen ++ firstPage env StClosed) s).2).
Proof.
  intros Hrepo Hok Hlist.
  unfold fetchAndCacheIssues, try_catch.
  erewrite bind_ok by exact Hrepo. cbv beta iota.
  erewrite bind_ok by (by apply fetchItems_ok).
  erewrite bind_ok by (by apply fetchItems_ok).
  erewrite bind_ok by reflexivity.
  erewrite bind_ok by (by eapply getCacheKey_ok).
  reflexivity.
Qed.

Lemma fetchItems_throw s owner repo st e :
  fetch_error env s = Some e ->
  fetchItems env owner repo st s = (Throw e, s).
Proof.
  unfold fetch_error, fetchItems. intros H.
  erewrite bind_ok by reflexivity.
  destruct (octokit s); simpl.
  - unfold listForRepo. by rewrite H.
  - by injection H as <-.
Qed.

Lemma fetchItems_cases s owner repo st :
  (fetch_error env s = None /\
   fetchItems env owner repo st s = (Ok (firstPage env st), s))
  \/ (exists e, fetch_error env s = Some e /\
                fetchItems env owner repo st s = (Throw e, s)).
Proof.
  destruct (fetch_error env s) as [e|] eqn:E.
  - right. exists e. split; [done|by apply fetchItems_throw].
  - left. split; [done|]. unfold fetch_error in E.
    destruct (octokit s) eqn:Hok; [|discriminate]. by apply fetchItems_ok.
Qed.

Lemma fetchAndCacheIssues_failure s owner repo e :
  getGitHubRepoInfo env s = (Ok (owner, repo), s) ->
  fetch_error env s = Some e ->
  fetchAndCacheIssues env s = fallen_back owner repo e s.
Proof.
  intros Hrepo He.
  unfold fetchAndCacheIssues, try_catch.
  erewrite bind_ok by exact Hrepo. cbv beta iota.
  erewrite bind_throw by (by apply fetchItems_throw).
  erewrite bind_ok by reflexivity.
  unfold getFallbackItems.
  erewrite bind_ok by (by eapply getCacheKey_ok).
  erewrite bind_ok by reflexivity.
  unfold fallen_back. simpl.
  by destruct (workspaceState s !! cacheKey_of owner repo).
Qed.

End ServiceFacts.

(* ===================================================================== *)
(** * The service: the stated properties *)
(* ===================================================================== *)

Section ServiceProperties.

Lemma filter_partition_perm {A} (f : A -> bool) (l : list A) :
  List.filter (fun x => negb (f x)) l ++ List.filter f l ≡ₚ l.
Proof.
  induction l as [|x l IH]; simpl; [done|].
  destruct (f x); simpl.
  - rewrite <- Permutation_middle. by constructor.
  - by constructor.
Qed.

(** C5, as the code has it. The specification says a fetch retrieves
    all pages of the open and of the closed items. The code asks for one
    page of 100 items per state and never for a second one: a fetch with
    the repository resolved, the client signed in and the remote
    answering takes the first page (at most 100 items) of the open items
    and the first page of the closed ones, splits them on [pull_request],
    and writes both lists to the cache under the key of the repository
    with the time of the fetch. *)
Theorem C5_fetch_caches_first_pages env s owner repo :
  getGitHubRepoInfo env s = (Ok (owner, repo), s) ->
  octokit s = true ->
  list_error env = None ->
  let allItems := take 100 (remote_open env) ++ take 100 (remote_closed env) in
  let issues := List.filter (fun item => negb (pull_request item)) allItems in
  let pullRequests := List.filter (fun item => pull_request item) allItems in
  exists s',
    fetchAndCacheIssues env s = (Ok (Items.mk issues pullRequests), s')
    /\ workspaceState s'
       = <[cacheKey_of owner repo := CachedIssues.mk (now s) issues pullRequests]>
           (workspaceState s)
    /\ length allItems <= 200.
Proof.
  intros Hrepo Hok Hlist allItems issues pullRequests.
  rewrite (fetchAndCacheIssues_success env s owner repo Hrepo Hok Hlist).
  eexists. split; [reflexivity|]. split; [reflexivity|].
  subst allItems. rewrite length_app, !length_take. lia.
Qed.

Lemma C5_fetch_caches_first_pages_witness :
  getGitHubRepoInfo Sample.env Sample.svc_empty
    = (Ok (js "MadcowD", js "github-issues"), Sample.svc_empty)
  /\ octokit Sample.svc_empty = true
  /\ list_error Sample.env = None
  /\ exists s',
       fetchAndCacheIssues Sample.env Sample.svc_empty
       = (Ok (Items.mk [Sample.an_issue 1 "one" []; Sample.an_issue 3 "three" Sample.body4]
                       [mkIssue (NumInt 2) (Some (js "two")) None (Some StOpen) true]),
          s')
       /\ workspaceState s' !! Sample.key
          = Some (CachedIssues.mk 5000
                    [Sample.an_issue 1 "one" []; Sample.an_issue 3 "three" Sample.body4]
                    [mkIssue (NumInt 2) (Some (js "two")) None (Some StOpen) true]).
Proof.
  assert (H1 : getGitHubRepoInfo Sample.env Sample.svc_empty
               = (Ok (js "MadcowD", js "github-issues"), Sample.svc_empty))
    by reflexivity.
  assert (H2 : octokit Sample.svc_empty = true) by reflexivity.
  assert (H3 : list_error Sample.env = None) by reflexivity.
  split; [exact H1|]. split; [exact H2|]. split; [exact H3|].
  destruct (C5_fetch_caches_first_pages Sample.env Sample.svc_empty _ _ H1 H2 H3)
    as (s' & Hf & Hw & _).
  exists s'. split; [exact Hf|]. rewrite Hw. vm_compute. reflexivity.
Defined.

(** C5, as the specification states it, fails: of a repository with
    101 open issues the fetch caches the first 100; the last one is on
    the remote and not in the cache. *)
Lemma C5_counterexample :
  exists r s' c,
    fetchAndCacheIssues Sample.env_many Sample.svc_empty = (Ok r, s')
    /\ workspaceState s' !! Sample.key = Some c
    /\ length (remote_open Sample.env_many) = 101
    /\ length (CachedIssues.issues c ++ CachedIssues.pullRequests c) = 100
    /\ remote_open Sample.env_many !! 100 = Some (Sample.an_issue 101 "item" [])
    /\ (CachedIssues.issues c ++ CachedIssues.pullRequests c) !! 100 = None.
Proof.
  destruct (fetchAndCacheIssues Sample.env_many Sample.svc_empty) as [r s'] eqn:E.
  vm_compute in E. injection E as <- <-.
  do 3 eexists. split; [reflexivity|].
  split; [vm_compute; reflexivity|].
  repeat split; vm_compute; reflexivity.
Qed.

(** C10. After a fetch that succeeded, the issues and the pull requests
    of the cached entry split the fetched items on the presence of
    [pull_request]: together they are the fetched items, each item is in
    exactly one of the two lists, and in each list the items of the open
    listing come, in their order, before those of the closed listing. *)
Theorem C10_partition_open_before_closed env s owner repo openItems closedItems :
  getGitHubRepoInfo env s = (Ok (owner, repo), s) ->
  fetchItems env owner repo StOpen s = (Ok openItems, s) ->
  fetchItems env owner repo StClosed s = (Ok closedItems, s) ->
  exists r s' c,
    fetchAndCacheIssues env s = (Ok r, s')
    /\ workspaceState s' !! cacheKey_of owner repo = Some c
    /\ CachedIssues.timestamp c = now s
    /\ CachedIssues.issues c ++ CachedIssues.pullRequests c ≡ₚ openItems ++ closedItems
    /\ (forall item, In item (CachedIssues.issues c)
                     <-> In item (openItems ++ closedItems) /\ pull_request item = false)
    /\ (forall item, In item (CachedIssues.pullRequests c)
                     <-> In item (openItems ++ closedItems) /\ pull_request item = true)
    /\ CachedIssues.issues c
       = List.filter (fun item => negb (pull_request item)) openItems
         ++ List.filter (fun item => negb (pull_request item)) closedItems
    /\ CachedIssues.pullRequests c
       = List.filter (fun item => pull_request item) openItems
         ++ List.filter (fun item => pull_request item) closedItems.
Proof.
  intros Hrepo Hopen Hclosed.
  destruct (fetchItems_cases env s owner repo StOpen) as [[He Ho]|(e & He & Ho)];
    [|rewrite Ho in Hopen; discriminate].
  rewrite Ho in Hopen. injection Hopen as <-.
  destruct (fetchItems_cases env s owner repo StClosed) as [[_ Hc]|(e & _ & Hc)];
    [|rewrite Hc in Hclosed; discriminate].
  rewrite Hc in Hclosed. injection Hclosed as <-.
  unfold fetch_error in He. destruct (octokit s) eqn:Hok; [|discriminate].
  rewrite (fetchAndCacheIssues_success env s owner repo Hrepo Hok He).
  do 3 eexists. split; [reflexivity|].
  split; [simpl; apply lookup_insert_eq|].
  split; [reflexivity|]. simpl.
  split; [apply filter_partition_perm|].
  split.
  { intros item. rewrite filter_In. split; intros [H1 H2]; split; try done.
    - by apply negb_true_iff.
    - by apply negb_true_iff. }
  split.
  { intros item. by rewrite filter_In. }
  split; apply List.filter_app.
Qed.

Lemma C10_partition_open_before_closed_witness :
  exists r s' c,
    fetchAndCacheIssues Sample.env Sample.svc_empty = (Ok r, s')
    /\ workspaceState s' !! Sample.key = Some c
    /\ CachedIssues.issues c
       = [Sample.an_issue 1 "one" []; Sample.an_issue 3 "three" Sample.body4]
    /\ CachedIssues.pullRequests c
       = [mkIssue (NumInt 2) (Some (js "two")) None (Some StOpen) true].
Proof.
  destruct (C10_partition_open_before_closed Sample.env Sample.svc_empty
              (js "MadcowD") (js "github-issues")
              (remote_open Sample.env) (remote_closed Sample.env)
              eq_refl eq_refl eq_refl)
    as (r & s' & c & Hf & Hw & _ & _ & _ & _ & Hi & Hp).
  exists r, s', c. split; [exact Hf|]. split; [exact Hw|].
  split; [exact Hi|exact Hp].
Defined.

(** C7. When fetching items raises while the repository resolves, the
    refresh does not raise: [fetchAndCacheIssues] reports the error on
    the output channel and to the user, leaves the cache and the
    subscribers alone, and returns the cached entry, whatever its age,
    or the empty result when nothing is cached. The background callers
    [refreshInBackground] and [fetchAndUpdateInBackground] fulfil as
    well. *)
Theorem C7_fetch_failure_falls_back env s owner repo e :
  getGitHubRepoInfo env s = (Ok (owner, repo), s) ->
  fetchItems env owner repo StOpen s = (Throw e, s) ->
  exists s',
    fetchAndCacheIssues env s
    = (Ok (match workspaceState s !! cacheKey_of owner repo with
           | Some c => Items.mk (CachedIssues.issues c) (CachedIssues.pullRequests c)
           | None => Items.empty
           end), s')
    /\ workspaceState s' = workspaceState s
    /\ dataUpdated s' = dataUpdated s
    /\ In (js "Error fetching GitHub issues and pull requests" ++ js ": " ++ e)
          (output s')
    /\ (refreshInBackground env s).1 = Ok tt
    /\ (fetchAndUpdateInBackground env s).1 = Ok tt
    /\ (exists r, (getCachedOrFetchIssues env s).1 = Ok r).
Proof.
  intros Hrepo Hthrow.
  assert (He : fetch_error env s = Some e).
  { destruct (fetchItems_cases env s owner repo StOpen) as [[_ Ho]|(e' & He & Ho)];
      rewrite Ho in Hthrow; [discriminate|]. by injection Hthrow as <-. }
  pose proof (fetchAndCacheIssues_failure env s owner repo e Hrepo He) as Hf.
  assert (Hrepo' : forall s0, getGitHubRepoInfo env s0 = (Ok (owner, repo), s0)).
  { intros s0. by destruct (getGitHubRepoInfo_pure env s s0 _ _ Hrepo). }
  assert (He' : fetch_error env
                  (set_output (output s ++ [js "Starting background refresh of GitHub issues"]) s)
                = Some e) by exact He.
  assert (Hfb : forall s0, exists r s1, fallen_back owner repo e s0 = (Ok r, s1)).
  { intros s0. unfold fallen_back.
    destruct (workspaceState s0 !! cacheKey_of owner repo); by do 2 eexists. }
  assert (Hbg : (refreshInBackground env s).1 = Ok tt).
  { unfold refreshInBackground.
    erewrite bind_ok by reflexivity.
    destruct (Hfb (set_output
                (output s ++ [js "Starting background refresh of GitHub issues"]) s))
      as (r & s1 & Hr).
    erewrite bind_ok; [reflexivity|].
    rewrite (fetchAndCacheIssues_failure env _ owner repo e (Hrepo' _) He').
    exact Hr. }
  assert (Hfu : (fetchAndUpdateInBackground env s).1 = Ok tt).
  { unfold fetchAndUpdateInBackground, try_catch.
    destruct (Hfb s) as (r & s1 & Hr).
    erewrite bind_ok; [reflexivity|].
    rewrite Hf. exact Hr. }
  assert (Hq : exists r, (getCachedOrFetchIssues env s).1 = Ok r).
  { assert (Hexp : exists r,
              (bind (gets octokit)
                 (fun client : bool =>
                    if negb client
                    then bind (appendLine (js "Not authenticated yet, returning empty result"))
                              (fun _ => ret Items.empty)
                    else fetchAndCacheIssues env) s).1 = Ok r).
    { erewrite bind_ok by reflexivity.
      destruct (octokit s); simpl.
      - destruct (Hfb s) as (r & s1 & Hr). exists r. by rewrite Hf, Hr.
      - by eexists. }
    unfold getCachedOrFetchIssues.
    erewrite bind_ok by (by eapply getCacheKey_ok).
    erewrite bind_ok by reflexivity.
    erewrite bind_ok by reflexivity.
    destruct (workspaceState s !! cacheKey_of owner repo) as [c|]; [|exact Hexp].
    destruct (now s - CachedIssues.timestamp c <? 30 * 60 * 1000)%Z; [|exact Hexp].
    destruct (5 * 60 * 1000 <? now s - CachedIssues.timestamp c)%Z; by eexists. }
  rewrite Hf. unfold fallen_back.
  destruct (workspaceState s !! cacheKey_of owner repo) as [c|];
    eexists; (split; [reflexivity|]); simpl;
    (split; [reflexivity|]); (split; [reflexivity|]);
    (split; [|split; [|split]; assumption]);
    rewrite ?in_app_iff; simpl; auto.
Qed.

Lemma C7_fetch_failure_falls_back_witness :
  getGitHubRepoInfo Sample.env_down (Sample.svc true (Sample.minutes 4320))
    = (Ok (js "MadcowD", js "github-issues"), Sample.svc true (Sample.minutes 4320))
  /\ fetchItems Sample.env_down (js "MadcowD") (js "github-issues") StOpen
       (Sample.svc true (Sample.minutes 4320))
     = (Throw (js "Network error"), Sample.svc true (Sample.minutes 4320))
  /\ exists s',
       fetchAndCacheIssues Sample.env_down (Sample.svc true (Sample.minutes 4320))
       = (Ok (Items.mk (CachedIssues.issues Sample.entry)
                       (CachedIssues.pullRequests Sample.entry)), s').
Proof.
  assert (H1 : getGitHubRepoInfo Sample.env_down (Sample.svc true (Sample.minutes 4320))
               = (Ok (js "MadcowD", js "github-issues"),
                  Sample.svc true (Sample.minutes 4320))) by reflexivity.
  assert (H2 : fetchItems Sample.env_down (js "MadcowD") (js "github-issues") StOpen
                 (Sample.svc true (Sample.minutes 4320))
               = (Throw (js "Network error"), Sample.svc true (Sample.minutes 4320)))
    by reflexivity.
  split; [exact H1|]. split; [exact H2|].
  destruct (C7_fetch_failure_falls_back Sample.env_down _ _ _ _ H1 H2)
    as (s' & Hf & _).
  exists s'. rewrite Hf. vm_compute. reflexivity.
Defined.

(** C3, as the code has it. For an entry written at [T] and a query at
    [T + age]: up to 5 minutes the entry is returned and nothing else
    happens; above 5 and below 30 minutes (so at 10 as at 20 minutes)
    the entry is returned and one [refreshInBackground] is started
    without being awaited; from 30 minutes on (so at 40 minutes) the
    entry is not served: a signed-in service fetches synchronously, and
    a service not signed in returns the empty result. *)
Theorem C3_cache_freshness env s owner repo c age :
  getGitHubRepoInfo env s = (Ok (owner, repo), s) ->
  workspaceState s !! cacheKey_of owner repo = Some c ->
  now s = (CachedIssues.timestamp c + age)%Z ->
  let entry := Items.mk (CachedIssues.issues c) (CachedIssues.pullRequests c) in
  let served :=
    set_output (output s ++ [js "Using cached GitHub issues and pull requests"]) s in
  ((age <= 5 * 60 * 1000)%Z ->
   getCachedOrFetchIssues env s = (Ok entry, served))
  /\ ((5 * 60 * 1000 < age < 30 * 60 * 1000)%Z ->
      getCachedOrFetchIssues env s
      = (Ok entry, set_pending (pending s ++ [RefreshInBackground]) served))
  /\ ((30 * 60 * 1000 <= age)%Z ->
      getCachedOrFetchIssues env s
      = if octokit s then fetchAndCacheIssues env s
        else (Ok Items.empty,
              set_output (output s ++ [js "Not authenticated yet, returning empty result"]) s)).
Proof.
  intros Hrepo Hc Hnow entry served.
  unfold getCachedOrFetchIssues.
  erewrite bind_ok by (by eapply getCacheKey_ok).
  erewrite bind_ok by reflexivity.
  erewrite bind_ok by reflexivity.
  rewrite Hc, Hnow.
  replace (CachedIssues.timestamp c + age - CachedIssues.timestamp c)%Z with age by lia.
  split_and!; intros Hage.
  - destruct (Z.ltb_spec age (30 * 60 * 1000)); [|lia].
    destruct (Z.ltb_spec (5 * 60 * 1000) age); [lia|]. reflexivity.
  - destruct (Z.ltb_spec age (30 * 60 * 1000)); [|lia].
    destruct (Z.ltb_spec (5 * 60 * 1000) age); [|lia]. reflexivity.
  - destruct (Z.ltb_spec age (30 * 60 * 1000)); [lia|].
    erewrite bind_ok by reflexivity.
    destruct (octokit s); reflexivity.
Qed.

Lemma C3_cache_freshness_witness :
  getGitHubRepoInfo Sample.env (Sample.svc true (Sample.minutes 20))
    = (Ok (js "MadcowD", js "github-issues"), Sample.svc true (Sample.minutes 20))
  /\ workspaceState (Sample.svc true (Sample.minutes 20))
       !! cacheKey_of (js "MadcowD") (js "github-issues") = Some Sample.entry
  /\ now (Sample.svc true (Sample.minutes 20))
     = (CachedIssues.timestamp Sample.entry + Sample.minutes 20)%Z
  /\ (getCachedOrFetchIssues Sample.env (Sample.svc true (Sample.minutes 20))).1
     = Ok (Items.mk (CachedIssues.issues Sample.entry)
                    (CachedIssues.pullRequests Sample.entry))
  /\ pending (getCachedOrFetchIssues Sample.env (Sample.svc true (Sample.minutes 20))).2
     = [RefreshInBackground].
Proof.
  assert (H1 : getGitHubRepoInfo Sample.env (Sample.svc true (Sample.minutes 20))
               = (Ok (js "MadcowD", js "github-issues"),
                  Sample.svc true (Sample.minutes 20))) by reflexivity.
  assert (H2 : workspaceState (Sample.svc true (Sample.minutes 20))
                 !! cacheKey_of (js "MadcowD") (js "github-issues") = Some Sample.entry)
    by (vm_compute; reflexivity).
  assert (H3 : now (Sample.svc true (Sample.minutes 20))
               = (CachedIssues.timestamp Sample.entry + Sample.minutes 20)%Z)
    by reflexivity.
  split; [exact H1|]. split; [exact H2|]. split; [exact H3|].
  destruct (C3_cache_freshness Sample.env _ _ _ _ _ H1 H2 H3) as (_ & Hmid & _).
  rewrite Hmid by (vm_compute; split; reflexivity).
  split; reflexivity.
Defined.

(** C3, as the specification states it, fails at [T + 10] minutes: the
    entry is returned, and a background refresh is started, where the
    specification has none. *)
Lemma C3_counterexample :
  now (Sample.svc true (Sample.minutes 10))
  = (CachedIssues.timestamp Sample.entry + 10 * 60 * 1000)%Z
  /\ workspaceState (Sample.svc true (Sample.minutes 10)) !! Sample.key
     = Some Sample.entry
  /\ (getCachedOrFetchIssues Sample.env (Sample.svc true (Sample.minutes 10))).1
     = Ok (Items.mk (CachedIssues.issues Sample.entry)
                    (CachedIssues.pullRequests Sample.entry))
  /\ pending (Sample.svc true (Sample.minutes 10)) = []
  /\ pending (getCachedOrFetchIssues Sample.env (Sample.svc true (Sample.minutes 10))).2
     = [RefreshInBackground]
  /\ pending (getCachedOrFetchIssues Sample.env (Sample.svc true (Sample.minutes 10))).2
     <> pending (Sample.svc true (Sample.minutes 10)).
Proof.
  split_and!; try (vm_compute; reflexivity).
  vm_compute. discriminate.
Qed.

(** The notifications of one refresh that succeeds, in general: two
    through [fetchAndUpdateInBackground], one through
    [refreshInBackground]. *)
Lemma notifications_of_a_refresh env s owner repo :
  getGitHubRepoInfo env s = (Ok (owner, repo), s) ->
  octokit s = true ->
  list_error env = None ->
  let d := (fetched owner repo (firstPage env StOpen ++ firstPage env StClosed) s).1 in
  dataUpdated (fetchAndUpdateInBackground env s).2 = dataUpdated s ++ [d; d]
  /\ dataUpdated (refreshInBackground env s).2 = dataUpdated s ++ [d].
Proof.
  intros Hrepo Hok Hlist d. split.
  - unfold fetchAndUpdateInBackground, try_catch.
    erewrite bind_ok by (by apply fetchAndCacheIssues_success).
    simpl. by rewrite <- app_assoc.
  - unfold refreshInBackground.
    erewrite bind_ok by reflexivity.
    erewrite bind_ok.
    2:{ apply fetchAndCacheIssues_success; [|exact Hok|exact Hlist].
        by destruct (getGitHubRepoInfo_pure env s
                       (set_output (output s
                          ++ [js "Starting background refresh of GitHub issues"]) s)
                       _ _ Hrepo). }
    reflexivity.
Qed.

(** C6 (defect of the code). One completed refresh started by
    [loadCacheAndFetch] delivers the notification twice: once from
    [fetchAndCacheIssues], and once more, with the same data, from
    [fetchAndUpdateInBackground]. The same refresh through
    [refreshInBackground], as the timer and [getCachedOrFetchIssues]
    start it, delivers it once. *)
Theorem C6_loadCacheAndFetch_notifies_twice :
  exists r s1 s2 d,
    loadCacheAndFetch Sample.env Sample.svc_empty = (Ok r, s1)
    /\ pending s1 = [FetchAndUpdateInBackground]
    /\ dataUpdated s1 = []
    /\ run_next Sample.env s1 = (Ok tt, s2)
    /\ pending s2 = []
    /\ dataUpdated s2 = [d; d]
    /\ dataUpdated (refreshInBackground Sample.env Sample.svc_empty).2 = [d].
Proof.
  destruct (loadCacheAndFetch Sample.env Sample.svc_empty) as [r s1] eqn:E1.
  vm_compute in E1. injection E1 as <- <-.
  destruct (run_next Sample.env
              (set_pending [FetchAndUpdateInBackground] Sample.svc_empty))
    as [r2 s2] eqn:E2.
  vm_compute in E2. injection E2 as <- <-.
  do 4 eexists. split; [reflexivity|].
  split; [reflexivity|]. split; [reflexivity|].
  split; [vm_compute; reflexivity|].
  split; [reflexivity|]. split; [reflexivity|].
  vm_compute. reflexivity.
Qed.

End ServiceProperties.

(* ===================================================================== *)
(** * The tree: the stated properties *)
(* ===================================================================== *)

Section TreeProperties.

Lemma same_item_refl n : same_item n n.
Proof. by repeat split. Qed.

Lemma same_item_trans n1 n2 n3 :
  same_item n1 n2 -> same_item n2 n3 -> same_item n1 n3.
Proof. unfold same_item. intros (?&?&?&?&?&?) (?&?&?&?&?&?). split_and!; congruence. Qed.

Lemma alter_same_item (f : GitHubIssue -> GitHubIssue) (h : heap) i x n :
  (forall m, same_item m (f m)) ->
  h !! x = Some n ->
  exists n', alter f i h !! x = Some n' /\ same_item n n'.
Proof.
  intros Hf Hx. rewrite list_lookup_alter. case_decide as Hi.
  - subst i. rewrite Hx. simpl. eexists. split; [reflexivity|apply Hf].
  - exists n. split; [exact Hx|apply same_item_refl].
Qed.

Lemma mapM_lookup_total {A} (h : list A) (cs : list nat) :
  Forall (fun c => c < length h) cs ->
  exists kids, mapM (fun c => h !! c) cs = Some kids.
Proof.
  induction 1 as [|c cs Hc _ IH].
  - by exists [].
  - destruct IH as (kids & Hk).
    destruct (lookup_lt_is_Some_2 h c Hc) as (x & Hx).
    exists (x :: kids). apply mapM_Some_2. constructor; [exact Hx|].
    by apply mapM_Some_1.
Qed.

(** What a run of [calculateProgress] on the node at [p] does: the
    node gets the percentage of its children, as they are counted, and
    nothing else of any node that matters to the tree changes. *)
Lemma calculateProgress_spec (h : heap) p pn kids :
  h !! p = Some pn ->
  mapM (fun c => h !! c) (children pn) = Some kids ->
  exists h' pn',
    calculateProgress p h = Some h'
    /\ h' !! p = Some pn'
    /\ progress pn' = percent (length (List.filter checked kids))
                              (length (children pn))
    /\ (forall x n, h !! x = Some n -> exists n', h' !! x = Some n' /\ same_item n n').
Proof.
  intros Hp Hk. rewrite (calculateProgress_eq h p pn kids Hp Hk).
  set (q := percent _ _).
  assert (Hp1 : alter (set_progress q) p h !! p = Some (set_progress q pn))
    by (by rewrite list_lookup_alter_eq, Hp).
  assert (Hsame1 : forall x n, h !! x = Some n ->
            exists n', alter (set_progress q) p h !! x = Some n' /\ same_item n n').
  { intros x n Hx. apply alter_same_item; [|exact Hx]. intros m. by repeat split. }
  destruct (progressBar pn) as [pb|] eqn:Hpb.
  - rewrite (updateProgressBar_old _ p (set_progress q pn) pb Hp1 Hpb). simpl.
    destruct (alter_same_item (fill_progressBar q) _ pb p _
                ltac:(intros m; by repeat split) Hp1) as (pn' & Hpn' & _).
    exists (alter (fill_progressBar q) pb (alter (set_progress q) p h)), pn'.
    split; [reflexivity|]. split; [exact Hpn'|]. split.
    + rewrite list_lookup_alter in Hpn'. case_decide.
      * subst pb. rewrite Hp1 in Hpn'. by injection Hpn' as <-.
      * rewrite Hp1 in Hpn'. by injection Hpn' as <-.
    + intros x n Hx. destruct (Hsame1 x n Hx) as (n1 & Hn1 & Hs1).
      destruct (alter_same_item (fill_progressBar q) _ pb x n1
                  ltac:(intros m; by repeat split) Hn1) as (n2 & Hn2 & Hs2).
      exists n2. split; [exact Hn2|by eapply same_item_trans].
  - rewrite (updateProgressBar_new _ p (set_progress q pn) Hp1 Hpb).
    rewrite length_alter.
    assert (Hlt : p < length h) by (by eapply lookup_lt_Some).
    eexists _, (link_progressBar (length h) (set_progress q pn)).
    split; [reflexivity|]. split.
    { rewrite lookup_app_l by (by rewrite !length_alter).
      by rewrite list_lookup_alter_eq, Hp1. }
    split; [reflexivity|].
    intros x n Hx. destruct (Hsame1 x n Hx) as (n1 & Hn1 & Hs1).
    destruct (alter_same_item (link_progressBar (length h)) _ p x n1
                ltac:(intros m; by repeat split) Hn1) as (n2 & Hn2 & Hs2).
    exists n2. split; [|by eapply same_item_trans].
    rewrite lookup_app_l; [exact Hn2|].
    rewrite !length_alter. by eapply lookup_lt_Some.
Qed.


Lemma omap_lookup_seq {A} (l pre post : list A) :
  omap (fun c => (pre ++ l ++ post) !! c) (seq (length pre) (length l)) = l.
Proof.
  revert pre. induction l as [|x l IH]; intros pre; simpl; [reflexivity|].
  rewrite list_lookup_middle by reflexivity. f_equal.
  specialize (IH (pre ++ [x])). rewrite length_app in IH. simpl in IH.
  replace (length pre + 1) with (S (length pre)) in IH by lia.
  by rewrite <- app_assoc in IH.
Qed.

Lemma filter_all {A} (f : A -> bool) (l : list A) :
  Forall (fun x => f x = true) l -> List.filter f l = l.
Proof. induction 1 as [|x l Hx _ IH]; simpl; [done|]. by rewrite Hx, IH. Qed.

Lemma filter_none {A} (f : A -> bool) (l : list A) :
  Forall (fun x => f x = false) l -> List.filter f l = [].
Proof. induction 1 as [|x l Hx _ IH]; simpl; [done|]. by rewrite Hx, IH. Qed.

Lemma subItems_imap (pi : Issue) a (ms : list MatchResult) :
  Forall (fun n => isCheckbox n = true /\ type n = TIssue)
         (imap (fun j m => subItem pi a j m) ms).
Proof.
  apply Forall_forall. intros n Hn.
  apply list_elem_of_lookup in Hn as (j & Hj).
  rewrite list_lookup_imap in Hj.
  destruct (ms !! j) as [m|]; [|discriminate]. simpl in Hj.
  injection Hj as <-. by split.
Qed.

(** On construction the claims C1 and C4 make hold in this form: the
    sub-items of the node are the matches of the pattern in the body,
    one for one and in order; the node has one progress node; and its
    progress is the percentage of the checked ones among the sub-items
    alone. *)
Lemma construct_sub_items depth lbl cs i ty par isCb chk (h : heap) ms :
  ty <> TProgressBar ->
  execLoop (S (length (body_or_empty (body i)))) checkboxRegex
           (body_or_empty (body i)) 0 = Some ms ->
  ms <> [] ->
  exists h' n,
    construct (S (S depth)) lbl cs i ty par isCb chk h = Some (length h, h')
    /\ h' !! length h = Some n
    /\ sub_items h' (length h)
       = imap (fun j m => subItem (set_body (Some (body_or_empty (body i))) i)
                                  (length h) j m) ms
    /\ length (progress_children h' (length h)) = 1
    /\ progress n = percent (length (List.filter checked (sub_items h' (length h))))
                            (length (sub_items h' (length h))).
Proof.
  intros Hty Hms Hne.
  rewrite (construct_spec depth lbl cs i ty par isCb chk h ms Hty Hms Hne).
  set (a := length h). set (k := length ms).
  set (i' := set_body (Some (body_or_empty (body i))) i).
  set (leaves := imap (fun j m => subItem i' a j m) ms).
  set (q := percent (length (List.filter checked leaves)) k).
  set (root := link_progressBar (S a + k) _).
  assert (Hlen : length leaves = k) by (subst leaves; by rewrite length_imap).
  assert (Hroot : ((h ++ [root]) ++ leaves ++ [progressNode i' a q]) !! a = Some root)
    by apply lookup_root.
  assert (Hkids : omap (fun c => ((h ++ [root]) ++ leaves ++ [progressNode i' a q]) !! c)
                       (children root)
                  = progressNode i' a q :: leaves).
  { simpl. rewrite lookup_app_r by (rewrite length_app; simpl; lia).
    rewrite lookup_app_r by (rewrite length_app; simpl; lia).
    replace (S (a + k) - length (h ++ [root]) - length leaves) with 0
      by (rewrite length_app, Hlen; simpl; lia).
    simpl. f_equal.
    pose proof (omap_lookup_seq leaves (h ++ [root]) [progressNode i' a q]) as H.
    rewrite length_app, Hlen in H. simpl in H.
    replace (length h + 1) with (S a) in H by (subst a; lia).
    exact H. }
  pose proof (subItems_imap i' a ms) as Hall. fold leaves in Hall.
  assert (Hsub : sub_items ((h ++ [root]) ++ leaves ++ [progressNode i' a q]) a = leaves).
  { unfold sub_items. rewrite Hroot, Hkids. simpl.
    apply filter_all. eapply Forall_impl; [exact Hall|]. by intros n [? _]. }
  exists ((h ++ [root]) ++ leaves ++ [progressNode i' a q]), root.
  split; [reflexivity|]. split; [exact Hroot|]. split; [exact Hsub|]. split.
  - unfold progress_children. rewrite Hroot, Hkids. simpl.
    rewrite filter_none; [reflexivity|].
    eapply Forall_impl; [exact Hall|]. intros n [_ ->]. reflexivity.
  - rewrite Hsub, Hlen. reflexivity.
Qed.

(** The defect behind C1 and C2, in general: run again on a node just
    built, [calculateProgress] divides by the number of sub-items plus
    one. *)
Lemma calculateProgress_after_construct depth lbl cs i ty par isCb chk (h : heap) ms :
  ty <> TProgressBar ->
  execLoop (S (length (body_or_empty (body i)))) checkboxRegex
           (body_or_empty (body i)) 0 = Some ms ->
  ms <> [] ->
  exists h' h'' n'',
    construct (S (S depth)) lbl cs i ty par isCb chk h = Some (length h, h')
    /\ calculateProgress (length h) h' = Some h''
    /\ h'' !! length h = Some n''
    /\ progress n'' = percent (length (List.filter checked (sub_items h' (length h))))
                              (S (length (sub_items h' (length h)))).
Proof.
  intros Hty Hms Hne.
  destruct (construct_sub_items depth lbl cs i ty par isCb chk h ms Hty Hms Hne)
    as (h' & n & Hc & Hn & Hsub & _ & _).
  rewrite Hc. rewrite (construct_spec depth lbl cs i ty par isCb chk h ms Hty Hms Hne) in Hc.
  injection Hc as Hh'.
  set (a := length h) in *. set (k := length ms) in *.
  set (i' := set_body (Some (body_or_empty (body i))) i) in *.
  set (leaves := imap (fun j m => subItem i' a j m) ms) in *.
  set (q := percent (length (List.filter checked leaves)) k) in *.
  assert (Hlen : length leaves = k) by (subst leaves; by rewrite length_imap).
  assert (Hn' : children n = (S a + k) :: seq (S a) k).
  { rewrite <- Hh' in Hn. unfold a in Hn. rewrite lookup_root in Hn.
    by injection Hn as <-. }
  assert (Hkids : mapM (fun c => h' !! c) (children n)
                  = Some (progressNode i' a q :: leaves)).
  { rewrite Hn'. apply mapM_Some_2. constructor.
    - rewrite <- Hh'.
      rewrite lookup_app_r by (rewrite length_app; simpl; lia).
      rewrite lookup_app_r by (rewrite length_app; simpl; lia).
      replace (S a + k - length (h ++ [_]) - length leaves) with 0
        by (rewrite length_app, Hlen; simpl; lia).
      reflexivity.
    - apply mapM_Some_1. rewrite <- Hh'.
      match goal with |- context [(h ++ [?r]) ++ _] => set (root := r) end.
      pose proof (mapM_lookup_seq leaves (h ++ [root]) [progressNode i' a q]) as H.
      rewrite length_app, Hlen in H. simpl in H.
      replace (length h + 1) with (S a) in H by (subst a; lia).
      exact H. }
  destruct (calculateProgress_spec h' a n _ Hn Hkids)
    as (h'' & n'' & Hcalc & Hn'' & Hprog & _).
  exists h', h'', n''. split; [reflexivity|]. split; [exact Hcalc|].
  split; [exact Hn''|]. rewrite Hprog, Hsub, Hn'. simpl.
  by rewrite length_seq, Hlen.
Qed.

Lemma set_progress_same q n : progress n = q -> set_progress q n = n.
Proof. intros <-. by destruct n. Qed.

Lemma alter_fixed {A} (f : A -> A) (l : list A) i x :
  l !! i = Some x -> f x = x -> alter f i l = l.
Proof.
  intros Hx Hf. rewrite <- (list_alter_id id l i) at 2 by done.
  apply list_alter_ext; [|reflexivity]. intros y Hy.
  rewrite Hx in Hy. by injection Hy as <-.
Qed.

Lemma mapM_same_checked (h h' : heap) cs kids kids' :
  (forall x n, h !! x = Some n -> exists n', h' !! x = Some n' /\ same_item n n') ->
  mapM (fun c => h !! c) cs = Some kids ->
  mapM (fun c => h' !! c) cs = Some kids' ->
  length (List.filter checked kids') = length (List.filter checked kids).
Proof.
  intros Hsame Hk Hk'.
  apply mapM_Some_1 in Hk. apply mapM_Some_1 in Hk'.
  revert kids' Hk'. induction Hk as [|c n cs kids Hc _ IH]; intros kids' Hk'.
  - by inversion Hk'.
  - inversion Hk' as [|c' n' cs' kids0 Hc' Hrest]; subst.
    destruct (Hsame c n Hc) as (n0 & Hn0 & Hs). rewrite Hn0 in Hc'.
    injection Hc' as <-. destruct Hs as (_ & _ & _ & _ & _ & Hchk).
    simpl. rewrite Hchk. specialize (IH _ Hrest).
    destruct (checked n); simpl; lia.
Qed.

(** From its second run on, [calculateProgress] is stable: on a node
    that has its progress node, a run followed by another run, with the
    children untouched, gives the store of the first of the two. *)
Lemma calculateProgress_stable (h : heap) a n pb kids h' :
  h !! a = Some n ->
  progressBar n = Some pb ->
  mapM (fun c => h !! c) (children n) = Some kids ->
  calculateProgress a h = Some h' ->
  calculateProgress a h' = Some h'.
Proof.
  intros Ha Hpb Hk Hcalc.
  destruct (calculateProgress_spec h a n kids Ha Hk)
    as (h1 & n1 & Hcalc1 & Hn1 & Hprog & Hsame).
  rewrite Hcalc in Hcalc1. injection Hcalc1 as <-.
  rewrite (calculateProgress_eq h a n kids Ha Hk) in Hcalc.
  set (q := percent _ _) in *.
  assert (Ha1 : alter (set_progress q) a h !! a = Some (set_progress q n))
    by (by rewrite list_lookup_alter_eq, Ha).
  rewrite (updateProgressBar_old _ a _ pb Ha1 Hpb) in Hcalc.
  simpl in Hcalc. injection Hcalc as Hh'.
  assert (Hn1' : children n1 = children n /\ progressBar n1 = Some pb).
  { rewrite <- Hh', list_lookup_alter in Hn1. case_decide as Hd.
    - subst pb. rewrite Ha1 in Hn1. injection Hn1 as <-. by split.
    - rewrite Ha1 in Hn1. injection Hn1 as <-. by split. }
  destruct Hn1' as [Hch Hpb1].
  destruct (mapM_lookup_total h' (children n)) as (kids' & Hk').
  { apply Forall_forall. intros c Hc.
    apply mapM_Some_1 in Hk.
    apply list_elem_of_lookup in Hc as (j & Hj).
    destruct (Forall2_lookup_l _ _ _ _ _ Hk Hj) as (y & _ & Hy).
    destruct (Hsame c y Hy) as (y' & Hy' & _). by eapply lookup_lt_Some. }
  rewrite <- Hch in Hk'.
  rewrite (calculateProgress_eq h' a n1 kids' Hn1 Hk').
  rewrite Hch in Hk'.
  rewrite (mapM_same_checked h h' (children n) kids kids' Hsame Hk Hk'), Hch.
  fold q.
  rewrite (alter_fixed _ h' a n1 Hn1) by (by apply set_progress_same).
  rewrite (updateProgressBar_old _ a n1 pb Hn1 Hpb1), Hprog. f_equal.
  subst h'. rewrite list_alter_alter_eq.
  by apply list_alter_ext.
Qed.

(** C1 (defect of the code). A node built from four checklist lines,
    one of them checked, has progress 25 on construction, and a node
    without checklist lines has neither children nor a progress node,
    as the specification says. But [calculateProgress] counts all of
    [children], and after the first run the progress node is one of
    them: run again on the same sub-items it stores 100 * 1 / 5 = 20
    where the specification has 100 * 1 / 4; and after a second item
    is checked it stores 40 where the specification has 50. *)
Theorem C1_recompute_counts_progress_node :
  exists a h n h' n' h'' n'',
    newGitHubIssue (js "T") CNone (Sample.an_issue 7 "T" Sample.body4)
                   TIssue None false false [] = Some (a, h)
    /\ h !! a = Some n
    /\ map checked (sub_items h a) = [true; false; false; false]
    /\ progress n = 25%Q
    /\ calculateProgress a h = Some h'
    /\ h' !! a = Some n'
    /\ map checked (sub_items h' a) = [true; false; false; false]
    /\ progress n' = 20%Q
    /\ ~ (progress n' == 100 * 1 / 4)%Q
    /\ toggleCheckbox 2 h = Some h''
    /\ h'' !! a = Some n''
    /\ map checked (sub_items h'' a) = [true; true; false; false]
    /\ progress n'' = 40%Q
    /\ ~ (progress n'' == 100 * 2 / 4)%Q
    /\ exists n0,
         newGitHubIssue (js "T") CNone (Sample.an_issue 7 "T" (js "no list"))
                        TIssue None false false [] = Some (0, [n0])
         /\ children n0 = [] /\ progressBar n0 = None.
Proof.
  destruct (newGitHubIssue (js "T") CNone (Sample.an_issue 7 "T" Sample.body4)
              TIssue None false false []) as [[a h]|] eqn:E;
    vm_compute in E; [|discriminate].
  injection E as <- <-.
  do 7 eexists.
  split; [reflexivity|]. split; [reflexivity|]. split; [reflexivity|].
  split; [reflexivity|].
  split; [vm_compute; reflexivity|]. split; [reflexivity|].
  split; [reflexivity|]. split; [reflexivity|].
  split; [vm_compute; discriminate|].
  split; [vm_compute; reflexivity|]. split; [reflexivity|].
  split; [reflexivity|]. split; [reflexivity|].
  split; [vm_compute; discriminate|].
  eexists. split; [vm_compute; reflexivity|]. split; reflexivity.
Qed.

(** C2 (defect of the code, the one of C1). Take the node of C1 as it
    is when the constructor reaches its call of [calculateProgress]:
    four sub-items, no progress node. Two runs in a row, with the
    sub-items untouched, leave the same children, with one progress
    node among them, as the specification says; but the first run
    stores progress 25 and the second 20. *)
Theorem C2_recompute_not_idempotent :
  exists h0 h1 h2 n0 n1 n2,
    parseCheckboxes (construct 1) 0
      [beforeParse (js "T") CNone (Sample.an_issue 7 "T" Sample.body4)
                   TIssue None false false] = Some h0
    /\ h0 !! 0 = Some n0 /\ progressBar n0 = None
    /\ map checked (sub_items h0 0) = [true; false; false; false]
    /\ calculateProgress 0 h0 = Some h1
    /\ calculateProgress 0 h1 = Some h2
    /\ h1 !! 0 = Some n1 /\ h2 !! 0 = Some n2
    /\ children n2 = children n1
    /\ sub_items h1 0 = sub_items h0 0
    /\ sub_items h2 0 = sub_items h0 0
    /\ length (progress_children h1 0) = 1
    /\ length (progress_children h2 0) = 1
    /\ progress n1 = 25%Q
    /\ progress n2 = 20%Q
    /\ ~ (progress n2 == progress n1)%Q.
Proof.
  destruct (parseCheckboxes (construct 1) 0
              [beforeParse (js "T") CNone (Sample.an_issue 7 "T" Sample.body4)
                           TIssue None false false]) as [h0|] eqn:E0;
    vm_compute in E0; [|discriminate].
  injection E0 as <-.
  do 6 eexists.
  split; [reflexivity|]. split; [reflexivity|]. split; [reflexivity|].
  split; [reflexivity|].
  split; [vm_compute; reflexivity|].
  split; [vm_compute; reflexivity|].
  split; [reflexivity|]. split; [reflexivity|].
  repeat (split; [reflexivity|]).
  vm_compute. discriminate.
Qed.

(** C4 (defect of the code). The whitespace class of the pattern
    contains the line terminators, so a match can start on one line and
    end on the next. A body of the two lines [- [ ]] and [foo] has no
    line that is a checklist item, and the code makes a sub-item [7.1]
    titled [foo] of it. In a body of the lines [- [ ]] and [- [x] a] the
    second line is the one checklist item, checked and with text [a];
    the code makes one sub-item, unchecked and titled [- [x] a]. *)
Theorem C4_match_spans_lines :
  exists a h a' h',
    spec_items Sample.body_split = []
    /\ newGitHubIssue (js "T") CNone (Sample.an_issue 7 "T" Sample.body_split)
         TIssue None false false [] = Some (a, h)
    /\ map (fun c => (render_number (number (issue c)), title (issue c), checked c))
           (sub_items h a)
       = [(js "7.1", Some (js "foo"), false)]
    /\ spec_items (js "- [ ]" ++ [LF] ++ js "- [x] a") = [(true, js "a")]
    /\ newGitHubIssue (js "T") CNone
         (Sample.an_issue 7 "T" (js "- [ ]" ++ [LF] ++ js "- [x] a"))
         TIssue None false false [] = Some (a', h')
    /\ map item_view (sub_items h' a') = [(false, js "- [x] a")].
Proof.
  do 4 eexists.
  split; [vm_compute; reflexivity|].
  split; [vm_compute; reflexivity|].
  split; [vm_compute; reflexivity|].
  split; [vm_compute; reflexivity|].
  split; [vm_compute; reflexivity|].
  vm_compute. reflexivity.
Qed.

(** C8. On a node that is a sub-item, [toggleCheckbox] flips [checked]
    and, when the node has a parent, runs [calculateProgress] of the
    parent on the store with the flag flipped, so that the parent's
    progress is the percentage of its children as they are then. On a
    node that is no sub-item it changes nothing and raises nothing. *)
Theorem C8_toggle (h : heap) a n :
  h !! a = Some n ->
  (isCheckbox n = false -> toggleCheckbox a h = Some h)
  /\ (isCheckbox n = true -> parent n = None ->
      toggleCheckbox a h = Some (alter flip_checked a h)
      /\ alter flip_checked a h !! a = Some (flip_checked n)
      /\ checked (flip_checked n) = negb (checked n))
  /\ (isCheckbox n = true ->
      forall p pn, parent n = Some p -> h !! p = Some pn ->
        Forall (fun c => c < length h) (children pn) ->
        exists h' n' pn' kids,
          toggleCheckbox a h = Some h'
          /\ calculateProgress p (alter flip_checked a h) = Some h'
          /\ h' !! a = Some n'
          /\ checked n' = negb (checked n)
          /\ mapM (fun c => alter flip_checked a h !! c) (children pn) = Some kids
          /\ h' !! p = Some pn'
          /\ progress pn' = percent (length (List.filter checked kids))
                                    (length (children pn))).
Proof.
  intros Ha.
  assert (Hflip : alter (fun m => set_checkboxState
                                    (Some (getCheckboxState (negb (checked n))))
                                    (set_checked (negb (checked n)) m)) a h
                  = alter flip_checked a h).
  { apply list_alter_ext; [|reflexivity]. intros x Hx.
    rewrite Ha in Hx. by injection Hx as <-. }
  assert (Ha1 : alter flip_checked a h !! a = Some (flip_checked n))
    by (by rewrite list_lookup_alter_eq, Ha).
  split_and!.
  - intros Hcb. unfold toggleCheckbox. rewrite Ha. simpl. by rewrite Hcb.
  - intros Hcb Hpar. unfold toggleCheckbox. rewrite Ha. simpl.
    rewrite Hcb, Hpar, Hflip. done.
  - intros Hcb p pn Hpar Hp Hkids.
    unfold toggleCheckbox. rewrite Ha. simpl. rewrite Hcb, Hpar, Hflip.
    assert (Hp1 : exists pn1, alter flip_checked a h !! p = Some pn1
                              /\ children pn1 = children pn).
    { rewrite list_lookup_alter. case_decide as Hap.
      - subst p. rewrite Ha in *. injection Hp as <-. by eexists.
      - rewrite Hp. by eexists. }
    destruct Hp1 as (pn1 & Hp1 & Hch).
    destruct (mapM_lookup_total (alter flip_checked a h) (children pn)) as (kids & Hk).
    { by rewrite length_alter. }
    rewrite <- Hch in Hk.
    destruct (calculateProgress_spec _ p pn1 kids Hp1 Hk)
      as (h' & pn' & Hcalc & Hpn' & Hprog & Hsame).
    destruct (Hsame a _ Ha1) as (n' & Hn' & Hs).
    exists h', n', pn', kids. rewrite Hch in *.
    split_and!; try done.
    destruct Hs as (_ & _ & _ & _ & _ & ->). reflexivity.
Qed.

Lemma C8_toggle_witness :
  exists n h' pn',
    Sample.tree4 !! 2 = Some n
    /\ isCheckbox n = true /\ checked n = false /\ parent n = Some 0
    /\ toggleCheckbox 2 Sample.tree4 = Some h'
    /\ (checked <$> h' !! 2) = Some true
    /\ h' !! 0 = Some pn'
    /\ progress pn' = 40%Q.
Proof.
  assert (Hn : exists n, Sample.tree4 !! 2 = Some n /\ isCheckbox n = true
                         /\ checked n = false /\ parent n = Some 0)
    by (eexists; vm_compute; repeat split).
  destruct Hn as (n & Hn & Hcb & Hchk & Hpar).
  assert (Hp : exists pn, Sample.tree4 !! 0 = Some pn
                          /\ Forall (fun c => c < length Sample.tree4) (children pn))
    by (eexists; split; [vm_compute; reflexivity|vm_compute; repeat constructor]).
  destruct Hp as (pn & Hpn & Hkids).
  destruct (C8_toggle Sample.tree4 2 n Hn) as (_ & _ & H).
  destruct (H Hcb 0 pn Hpar Hpn Hkids)
    as (h' & n' & pn' & kids & Ht & Hcalc & Hn' & Hchk' & _ & Hpn' & _).
  exists n, h', pn'.
  split; [exact Hn|]. split; [exact Hcb|]. split; [exact Hchk|].
  split; [exact Hpar|]. split; [exact Ht|].
  split; [rewrite Hn'; simpl; by rewrite Hchk', Hchk|].
  split; [exact Hpn'|].
  vm_compute in Hcalc. injection Hcalc as <-.
  vm_compute in Hpn'. injection Hpn' as <-. reflexivity.
Defined.

End TreeProperties.

(* ===================================================================== *)
(** * The provider: the stated property *)
(* ===================================================================== *)

Section ProviderProperties.

Lemma set_issueService_same s svc :
  issueService s = Some svc -> set_issueService (Some svc) s = s.
Proof. intros H. destruct s. simpl in *. by rewrite H. Qed.

Lemma on_service_ok {A} (c : M Service A) s svc a :
  issueService s = Some svc -> c svc = (Ok a, svc) ->
  on_service c s = (Ok a, s).
Proof.
  intros Hs Hc. unfold on_service. rewrite Hs, Hc.
  by rewrite set_issueService_same.
Qed.

Lemma on_service_throw {A} (c : M Service A) s svc e :
  issueService s = Some svc -> (c svc).1 = Throw e ->
  on_service c s = (Throw e, set_issueService (Some (c svc).2) s).
Proof.
  intros Hs Hc. unfold on_service. rewrite Hs.
  destruct (c svc) as [r svc']. simpl in *. by rewrite Hc.
Qed.

(** C9. When the update of the body on the remote raises, the handler
    raises the same error before it touches the tree: the store of
    nodes is as it was, so the parent's body, the item's [checked] and
    the parent's progress keep their values, and no change of the tree
    is announced. The items after the failing one are not handled. *)
Theorem C9_failed_update_leaves_tree env s a n p pn b svc owner repo st e rest :
  tree s !! a = Some n ->
  isCheckbox n = true ->
  parent n = Some p ->
  tree s !! p = Some pn ->
  body (issue pn) = Some b ->
  issueService s = Some svc ->
  getGitHubRepoInfo env svc = (Ok (owner, repo), svc) ->
  (forall newBody,
     (updateIssueBody env owner repo (number (issue pn)) newBody svc).1 = Throw e) ->
  exists s',
    handleItem env (ElemIssue a) st s = (Throw e, s')
    /\ handleCheckboxChange env ((ElemIssue a, st) :: rest) s = (Throw e, s')
    /\ tree s' = tree s
    /\ tree s' !! a = Some n
    /\ tree s' !! p = Some pn
    /\ treeDataChanged s' = treeDataChanged s
    /\ viewUpdates s' = viewUpdates s.
Proof.
  intros Ha Hcb Hpar Hp Hb Hsvc Hrepo Hthrow.
  assert (Hitem : exists s', handleItem env (ElemIssue a) st s = (Throw e, s')
                             /\ tree s' = tree s
                             /\ treeDataChanged s' = treeDataChanged s
                             /\ viewUpdates s' = viewUpdates s).
  { unfold handleItem.
    erewrite bind_ok by (unfold deref; by rewrite Ha).
    rewrite Hcb, Hpar.
    erewrite bind_ok by (unfold deref; by rewrite Hp).
    rewrite Hb.
    erewrite bind_ok by reflexivity.
    erewrite bind_ok by reflexivity.
    rewrite Hsvc.
    erewrite bind_ok by (by eapply on_service_ok).
    cbv beta iota.
    erewrite bind_throw by (eapply on_service_throw; [exact Hsvc|apply Hthrow]).
    eexists. split; [reflexivity|]. by repeat split. }
  destruct Hitem as (s' & Hi & Ht & Hd & Hv).
  exists s'. split; [exact Hi|]. split.
  { simpl. by erewrite bind_throw by exact Hi. }
  rewrite Ht. by repeat split.
Qed.

Lemma C9_failed_update_leaves_tree_witness :
  exists s',
    handleCheckboxChange Sample.env_down [(ElemIssue 2, Checked)] Sample.app4
    = (Throw (js "Network error"), s')
    /\ tree s' = tree Sample.app4.
Proof.
  assert (Ha : exists n, tree Sample.app4 !! 2 = Some n /\ isCheckbox n = true
                         /\ parent n = Some 0)
    by (eexists; vm_compute; repeat split).
  destruct Ha as (n & Ha & Hcb & Hpar).
  assert (Hp : exists pn, tree Sample.app4 !! 0 = Some pn
                          /\ body (issue pn) = Some Sample.body4)
    by (eexists; vm_compute; repeat split).
  destruct Hp as (pn & Hp & Hb).
  assert (Hsvc : issueService Sample.app4
                 = Some (mkService true ∅ [] [] [] [] true [] 5000)) by reflexivity.
  assert (Hrepo : getGitHubRepoInfo Sample.env_down
                    (mkService true ∅ [] [] [] [] true [] 5000)
                  = (Ok (js "MadcowD", js "github-issues"),
                     mkService true ∅ [] [] [] [] true [] 5000))
    by (vm_compute; reflexivity).
  assert (Hthrow : forall newBody,
            (updateIssueBody Sample.env_down (js "MadcowD") (js "github-issues")
               (number (issue pn)) newBody
               (mkService true ∅ [] [] [] [] true [] 5000)).1
            = Throw (js "Network error"))
    by (intros newBody; reflexivity).
  destruct (C9_failed_update_leaves_tree Sample.env_down Sample.app4 2 n 0 pn
              Sample.body4 _ _ _ Checked _ []
              Ha Hcb Hpar Hp Hb Hsvc Hrepo Hthrow)
    as (s' & _ & Hh & Ht & _).
  exists s'. split; [exact Hh|exact Ht].
Defined.

End ProviderProperties.

(* ===================================================================== *)
(** * The tree: construction, progress and toggling, in general *)
(* ===================================================================== *)

Section TreeBeyond.




(** The store [calculateProgress] returns, in closed form. *)
Lemma calculateProgress_shape (h : heap) a n kids :
  h !! a = Some n ->
  mapM (fun c => h !! c) (children n) = Some kids ->
  calculateProgress a h
  = Some (let q := percent (length (List.filter checked kids)) (length (children n)) in
          match progressBar n with
          | Some pb => alter (fill_progressBar q) pb (alter (set_progress q) a h)
          | None => alter (link_progressBar (length h)) a (alter (set_progress q) a h)
                    ++ [progressNode (issue n) a q]
          end).
Proof.
  intros Ha Hk. rewrite (calculateProgress_eq h a n kids Ha Hk). cbv zeta.
  set (q := percent _ _).
  assert (Ha1 : alter (set_progress q) a h !! a = Some (set_progress q n))
    by (by rewrite list_lookup_alter_eq, Ha).
  destruct (progressBar n) as [pb|] eqn:Hpb.
  - by rewrite (updateProgressBar_old _ a _ pb Ha1 Hpb).
  - rewrite (updateProgressBar_new _ a _ Ha1 Hpb). by rewrite length_alter.
Qed.

(** X1. A node whose body holds no match of the checklist pattern is
    built as one new object at the end of the store: no children, no
    progress node, progress 0, not collapsible, and the absent body
    replaced by the empty string. *)
Theorem X1_no_match_no_children lbl cs i ty par isCb chk (h : heap) :
  ty <> TProgressBar ->
  exec checkboxRegex (body_or_empty (body i)) 0 = None ->
  exists n,
    newGitHubIssue lbl cs i ty par isCb chk h = Some (length h, h ++ [n])
    /\ children n = [] /\ progressBar n = None /\ progress n = 0%Q
    /\ collapsibleState n = CNone
    /\ label n = lbl /\ type n = ty /\ parent n = par
    /\ isCheckbox n = isCb /\ checked n = chk
    /\ body (issue n) = Some (body_or_empty (body i)).
Proof.
  intros Hty Hex. unfold newGitHubIssue.
  rewrite construct_no_match by done.
  eexists. split; [reflexivity|]. by repeat split.
Qed.

Lemma X1_no_match_no_children_witness :
  exec checkboxRegex (body_or_empty (Some (js "no list here"))) 0 = None
  /\ exists n,
       newGitHubIssue (js "T") CCollapsed (Sample.an_issue 7 "T" (js "no list here"))
                      TPullRequest None false false Sample.tree4
       = Some (6, Sample.tree4 ++ [n])
       /\ children n = [] /\ progressBar n = None.
Proof.
  assert (H : exec checkboxRegex (body_or_empty (Some (js "no list here"))) 0 = None)
    by (vm_compute; reflexivity).
  split; [exact H|].
  destruct (X1_no_match_no_children (js "T") CCollapsed
              (Sample.an_issue 7 "T" (js "no list here")) TPullRequest None false false
              Sample.tree4 ltac:(discriminate) H)
    as (n & Hn & Hc & Hp & _).
  assert (Hl : length Sample.tree4 = 6) by (vm_compute; reflexivity).
  exists n. split; [|by split].
  rewrite Hn, Hl. reflexivity.
Defined.

(** X2. A node whose body holds matches of the checklist pattern gets
    one sub-item per match, in match order: the sub-item of the match
    number [j] (from 0) has the number of the parent followed by a dot
    and [j + 1], the text of the match as title and label, an empty
    body, state closed exactly when the marker is [x], [checked] set
    exactly then, the node as parent and no children of its own. The
    node is expanded, has exactly one progress node, and its progress is
    the percentage of checked sub-items among the sub-items. *)
Theorem X2_sub_items_are_matches lbl cs i ty par isCb chk (h : heap) ms :
  ty <> TProgressBar ->
  execLoop (S (length (body_or_empty (body i)))) checkboxRegex
           (body_or_empty (body i)) 0 = Some ms ->
  ms <> [] ->
  exists h' n,
    newGitHubIssue lbl cs i ty par isCb chk h = Some (length h, h')
    /\ h' !! length h = Some n
    /\ collapsibleState n = CExpanded
    /\ map (fun c => (number (issue c), title (issue c), body (issue c),
                      state (issue c), checked c, label c, parent c, children c,
                      isCheckbox c))
           (sub_items h' (length h))
       = imap (fun j m =>
                 let mark := nth 1 (m_groups m) [] in
                 let text := nth 2 (m_groups m) [] in
                 (NumStr (render_number (number i) ++ js "." ++ string_of_nat (j + 1)),
                  Some text, Some [],
                  Some (if is_x mark then StClosed else StOpen),
                  is_x mark, text, Some (length h), [], true)) ms
    /\ length (progress_children h' (length h)) = 1
    /\ progress n = percent (length (List.filter checked (sub_items h' (length h))))
                            (length (sub_items h' (length h))).
Proof.
  intros Hty Hms Hne. unfold newGitHubIssue.
  destruct (construct_sub_items 0 lbl cs i ty par isCb chk h ms Hty Hms Hne)
    as (h' & n & Hc & Hn & Hsub & Hpc & Hprog).
  exists h', n. split; [exact Hc|]. split; [exact Hn|].
  split.
  { rewrite (construct_spec 0 lbl cs i ty par isCb chk h ms Hty Hms Hne) in Hc.
    injection Hc as <-. rewrite lookup_root in Hn. by injection Hn as <-. }
  split; [|by split].
  rewrite Hsub. change (map ?f ?l) with (f <$> l). rewrite fmap_imap.
  apply imap_ext. intros j m _. reflexivity.
Qed.

Lemma X2_sub_items_are_matches_witness :
  exists ms h' n,
    execLoop (S (length Sample.body4)) checkboxRegex Sample.body4 0 = Some ms
    /\ length ms = 4
    /\ newGitHubIssue (js "T") CNone (Sample.an_issue 7 "T" Sample.body4)
         TIssue None false false [] = Some (0, h')
    /\ h' !! 0 = Some n
    /\ map (fun c => (label c, checked c)) (sub_items h' 0)
       = [(js "a", true); (js "b", false); (js "c", false); (js "d", false)]
    /\ progress n = 25%Q.
Proof.
  destruct (execLoop (S (length Sample.body4)) checkboxRegex Sample.body4 0)
    as [ms|] eqn:Hms; vm_compute in Hms; [|discriminate].
  injection Hms as Hms.
  assert (Hex : execLoop (S (length (body_or_empty
                    (body (Sample.an_issue 7 "T" Sample.body4)))))
                  checkboxRegex
                  (body_or_empty (body (Sample.an_issue 7 "T" Sample.body4))) 0
                = Some ms) by (rewrite <- Hms; vm_compute; reflexivity).
  destruct (X2_sub_items_are_matches (js "T") CNone
              (Sample.an_issue 7 "T" Sample.body4) TIssue None false false [] ms
              ltac:(discriminate) Hex ltac:(rewrite <- Hms; discriminate))
    as (h' & n & Hc & Hn & _ & _ & _ & _).
  exists ms, h', n. split; [reflexivity|].
  split; [by rewrite <- Hms|]. split; [exact Hc|]. split; [exact Hn|].
  vm_compute in Hc. injection Hc as <-.
  vm_compute in Hn. injection Hn as <-.
  split; vm_compute; reflexivity.
Defined.

(** X3. The constructor always returns, whatever the bound on the
    nesting of its calls from two on, and it only appends to the store:
    the objects that were there are untouched, the new node is the
    first new object, and each child of the new node is a new object
    that names the node as its parent and has no children and no
    progress node of its own (the tree is one level deep). *)
Theorem X3_construct_appends_one_level depth lbl cs i ty par isCb chk (h : heap) :
  exists new n,
    construct (2 + depth) lbl cs i ty par isCb chk h = Some (length h, h ++ new)
    /\ new !! 0 = Some n
    /\ label n = lbl /\ type n = ty /\ parent n = par
    /\ isCheckbox n = isCb /\ checked n = chk
    /\ Forall (fun c =>
                 length h < c
                 /\ exists cn, (h ++ new) !! c = Some cn
                              /\ parent cn = Some (length h)
                              /\ children cn = [] /\ progressBar cn = None)
              (children n).
Proof.
  change (2 + depth) with (S (S depth)).
  destruct (decide (ty = TProgressBar)) as [->|Hty].
  { eexists [_], _. split; [reflexivity|]. split; [reflexivity|].
    repeat split. simpl. constructor. }
  destruct (execLoop_total checkboxRegex ltac:(rewrite min_len_checkboxRegex; lia)
              (S (length (body_or_empty (body i)))) (body_or_empty (body i)) 0
              ltac:(lia)) as [ms Hms].
  destruct ms as [|m0 ms0] eqn:Ems.
  - apply execLoop_nil in Hms. rewrite construct_no_match by done.
    eexists [_], _. split; [reflexivity|]. split; [reflexivity|].
    repeat split. simpl. constructor.
  - rewrite <- Ems in Hms.
    rewrite (construct_spec depth lbl cs i ty par isCb chk h ms Hty Hms)
      by (rewrite Ems; discriminate).
    set (a := length h). set (k := length ms).
    set (i' := set_body (Some (body_or_empty (body i))) i).
    set (leaves := imap (fun j m => subItem i' a j m) ms).
    set (q := percent _ _). set (root := link_progressBar _ _).
    assert (Hlen : length leaves = k) by (subst leaves; by rewrite length_imap).
    exists ([root] ++ leaves ++ [progressNode i' a q]), root.
    split; [by rewrite !app_assoc|]. split; [reflexivity|].
    do 5 (split; [reflexivity|]).
    rewrite (app_assoc h [root]). simpl. constructor.
    + split; [lia|]. exists (progressNode i' a q).
      split; [|by repeat split].
      rewrite lookup_app_r by (rewrite length_app; simpl; lia).
      rewrite lookup_app_r by (rewrite length_app; simpl; lia).
      replace (S (a + k) - length (h ++ [root]) - length leaves) with 0
        by (rewrite length_app, Hlen; simpl; lia).
      reflexivity.
    + apply Forall_seq. intros c Hc. split; [lia|].
      assert (Hj : exists j, c = S a + j /\ j < k) by (exists (c - S a); lia).
      destruct Hj as (j & -> & Hj).
      destruct (lookup_lt_is_Some_2 ms j Hj) as (m & Hm).
      exists (subItem i' a j m). split; [|by repeat split].
      rewrite lookup_app_r by (rewrite length_app; simpl; lia).
      rewrite lookup_app_l by (rewrite length_app, Hlen; simpl; lia).
      replace (S a + j - length (h ++ [root])) with j
        by (rewrite length_app; simpl; lia).
      subst leaves. by rewrite list_lookup_imap, Hm.
Qed.





(** X5. From its second run on [calculateProgress] is stable: on a node
    that has its progress node, a run followed by another run with the
    children untouched returns the store of the first of the two. *)
Theorem X5_recompute_stable_after_first (h : heap) a n pb kids h' :
  h !! a = Some n ->
  progressBar n = Some pb ->
  mapM (fun c => h !! c) (children n) = Some kids ->
  calculateProgress a h = Some h' ->
  calculateProgress a h' = Some h'.
Proof. apply calculateProgress_stable. Qed.

Lemma X5_recompute_stable_after_first_witness :
  exists h', calculateProgress 0 Sample.tree4 = Some h'
             /\ calculateProgress 0 h' = Some h'.
Proof.
  assert (Hn : exists n, Sample.tree4 !! 0 = Some n /\ progressBar n = Some 5
                         /\ exists kids, mapM (fun c => Sample.tree4 !! c) (children n)
                                          = Some kids)
    by (eexists; split; [vm_compute; reflexivity|];
        split; [reflexivity|]; eexists; vm_compute; reflexivity).
  destruct Hn as (n & Hn & Hpb & kids & Hk).
  destruct (calculateProgress 0 Sample.tree4) as [h'|] eqn:Hc;
    [|vm_compute in Hc; discriminate].
  exists h'. split; [reflexivity|].
  exact (X5_recompute_stable_after_first Sample.tree4 0 n 5 kids h' Hn Hpb Hk Hc).
Defined.

(** X6. A run of [calculateProgress] on a node just built, with the
    sub-items untouched, stores the percentage of the checked sub-items
    among the sub-items plus one: the progress node the constructor
    inserted counts as a child. *)
Theorem X6_recompute_after_construction lbl cs i ty par isCb chk (h : heap) ms :
  ty <> TProgressBar ->
  execLoop (S (length (body_or_empty (body i)))) checkboxRegex
           (body_or_empty (body i)) 0 = Some ms ->
  ms <> [] ->
  exists h' h'' n'',
    newGitHubIssue lbl cs i ty par isCb chk h = Some (length h, h')
    /\ calculateProgress (length h) h' = Some h''
    /\ h'' !! length h = Some n''
    /\ progress n'' = percent (length (List.filter checked (sub_items h' (length h))))
                              (S (length (sub_items h' (length h)))).
Proof. apply (calculateProgress_after_construct 0). Qed.

Lemma X6_recompute_after_construction_witness :
  exists h' h'' n'',
    newGitHubIssue (js "T") CNone (Sample.an_issue 7 "T" Sample.body4)
                   TIssue None false false [] = Some (0, h')
    /\ calculateProgress 0 h' = Some h''
    /\ h'' !! 0 = Some n''
    /\ progress n'' = percent 1 5.
Proof.
  destruct (execLoop (S (length Sample.body4)) checkboxRegex Sample.body4 0)
    as [ms|] eqn:Hms; vm_compute in Hms; [|discriminate].
  injection Hms as Hms.
  assert (Hex : execLoop (S (length (body_or_empty
                    (body (Sample.an_issue 7 "T" Sample.body4)))))
                  checkboxRegex
                  (body_or_empty (body (Sample.an_issue 7 "T" Sample.body4))) 0
                = Some ms) by (rewrite <- Hms; vm_compute; reflexivity).
  destruct (X6_recompute_after_construction (js "T") CNone
              (Sample.an_issue 7 "T" Sample.body4) TIssue None false false [] ms
              ltac:(discriminate) Hex ltac:(rewrite <- Hms; discriminate))
    as (h' & h'' & n'' & Hc & Hcalc & Hn & Hp).
  exists h', h'', n''. split; [exact Hc|]. split; [exact Hcalc|].
  split; [exact Hn|]. rewrite Hp.
  vm_compute in Hc. injection Hc as <-. vm_compute. reflexivity.
Defined.

Lemma flip_checked_twice n :
  checkboxState n = Some (getCheckboxState (checked n)) ->
  flip_checked (flip_checked n) = n.
Proof.
  intros H. destruct n. simpl in *. unfold flip_checked. simpl.
  rewrite negb_involutive. by rewrite H.
Qed.

Lemma toggleCheckbox_eq (h : heap) a n p :
  h !! a = Some n -> isCheckbox n = true -> parent n = Some p ->
  toggleCheckbox a h = calculateProgress p (alter flip_checked a h).
Proof.
  intros Ha Hcb Hpar. unfold toggleCheckbox. rewrite Ha. simpl.
  rewrite Hcb, Hpar. f_equal.
  apply list_alter_ext; [|reflexivity]. intros x Hx.
  rewrite Ha in Hx. by injection Hx as <-.
Qed.

(** X7. Toggling a sub-item twice comes to one run of
    [calculateProgress] of its parent on the store as it was: the flag
    and its view are back, and the progress is recomputed from the
    flags as they were. On a store whose parent is up to date (a run of
    [calculateProgress] changes nothing) toggling twice gives the store
    back. *)
Theorem X7_toggle_twice (h : heap) a n p pn pb :
  h !! a = Some n ->
  isCheckbox n = true ->
  checkboxState n = Some (getCheckboxState (checked n)) ->
  parent n = Some p ->
  h !! p = Some pn ->
  progressBar pn = Some pb ->
  a <> p -> a <> pb -> p <> pb ->
  Forall (fun c => c < length h) (children pn) ->
  exists h1,
    toggleCheckbox a h = Some h1
    /\ toggleCheckbox a h1 = calculateProgress p h
    /\ (calculateProgress p h = Some h -> toggleCheckbox a h1 = Some h).
Proof.
  intros Ha Hcb Hview Hpar Hp Hpb Hap Hab Hpp Hkids.
  set (F := alter flip_checked a h).
  assert (HpF : F !! p = Some pn)
    by (subst F; by rewrite list_lookup_alter_ne).
  destruct (mapM_lookup_total F (children pn)) as (kids1 & Hk1);
    [subst F; by rewrite length_alter|].
  rewrite (toggleCheckbox_eq h a n p Ha Hcb Hpar). fold F.
  rewrite (calculateProgress_shape F p pn kids1 HpF Hk1). cbv zeta.
  rewrite Hpb. set (q1 := percent _ _).
  eexists. split; [reflexivity|].
  assert (Ha1 : alter (fill_progressBar q1) pb (alter (set_progress q1) p F) !! a
                = Some (flip_checked n)).
  { rewrite !list_lookup_alter_ne by done. subst F.
    by rewrite list_lookup_alter_eq, Ha. }
  assert (Hboth : toggleCheckbox a
                    (alter (fill_progressBar q1) pb (alter (set_progress q1) p F))
                  = calculateProgress p h).
  { rewrite (toggleCheckbox_eq _ a (flip_checked n) p Ha1 Hcb Hpar).
    rewrite (list_alter_alter_ne _ _ _ a pb) by done.
    rewrite (list_alter_alter_ne _ _ _ a p) by done.
    subst F. rewrite list_alter_alter_eq.
    rewrite (alter_fixed _ h a n Ha) by (simpl; by apply flip_checked_twice).
    set (H' := alter (fill_progressBar q1) pb (alter (set_progress q1) p h)).
    assert (HpH : H' !! p = Some (set_progress q1 pn)).
    { subst H'. rewrite list_lookup_alter_ne by done.
      by rewrite list_lookup_alter_eq, Hp. }
    destruct (mapM_lookup_total H' (children pn)) as (kids2 & Hk2);
      [subst H'; by rewrite !length_alter|].
    destruct (mapM_lookup_total h (children pn)) as (kids0 & Hk0); [done|].
    rewrite (calculateProgress_shape H' p _ kids2 HpH Hk2).
    rewrite (calculateProgress_shape h p pn kids0 Hp Hk0). cbv zeta.
    simpl progressBar. simpl children. rewrite Hpb.
    assert (Hsame : forall x m, h !! x = Some m ->
              exists m', H' !! x = Some m' /\ same_item m m').
    { intros x m Hx.
      destruct (alter_same_item (set_progress q1) h p x m
                  ltac:(intros; by repeat split) Hx) as (m1 & Hm1 & Hs1).
      destruct (alter_same_item (fill_progressBar q1) _ pb x m1
                  ltac:(intros; by repeat split) Hm1) as (m2 & Hm2 & Hs2).
      exists m2. split; [exact Hm2|by eapply same_item_trans]. }
    rewrite (mapM_same_checked h H' (children pn) kids0 kids2 Hsame Hk0 Hk2).
    set (q0 := percent _ _). f_equal. subst H'.
    rewrite (list_alter_alter_ne _ _ _ p pb) by done.
    rewrite list_alter_alter_eq.
    rewrite list_alter_alter_eq.
    f_equal. }
  split; [exact Hboth|]. intros Hfix. by rewrite Hboth.
Qed.

Lemma X7_toggle_twice_witness :
  exists h1,
    toggleCheckbox 3 Sample.tree4_toggled = Some h1
    /\ toggleCheckbox 3 h1 = Some Sample.tree4_toggled.
Proof.
  assert (Hn : exists n, Sample.tree4_toggled !! 3 = Some n
                         /\ isCheckbox n = true
                         /\ checkboxState n = Some (getCheckboxState (checked n))
                         /\ parent n = Some 0)
    by (eexists; split; [vm_compute; reflexivity|]; by repeat split).
  destruct Hn as (n & Hn & Hcb & Hview & Hpar).
  assert (Hp : exists pn, Sample.tree4_toggled !! 0 = Some pn
                          /\ progressBar pn = Some 5
                          /\ Forall (fun c => c < length Sample.tree4_toggled)
                                    (children pn))
    by (eexists; split; [vm_compute; reflexivity|];
        split; [reflexivity|vm_compute; repeat constructor]).
  destruct Hp as (pn & Hp & Hpb & Hkids).
  assert (Hfix : calculateProgress 0 Sample.tree4_toggled = Some Sample.tree4_toggled)
    by (vm_compute; reflexivity).
  destruct (X7_toggle_twice Sample.tree4_toggled 3 n 0 pn 5 Hn Hcb Hview Hpar Hp Hpb
              ltac:(lia) ltac:(lia) ltac:(lia) Hkids)
    as (h1 & H1 & _ & H2).
  exists h1. split; [exact H1|exact (H2 Hfix)].
Defined.

End TreeBeyond.

(* ===================================================================== *)
(** * The provider: the progress bar of the view *)
(* ===================================================================== *)

Section ViewBeyond.







End ViewBeyond.

(* ===================================================================== *)
(** * The service: the cache, the repository and the errors, in general *)
(* ===================================================================== *)

Section ServiceBeyond.

Lemma getCacheKey_throw env s e :
  getGitHubRepoInfo env s = (Throw e, s) ->
  forall s', getCacheKey env s' = (Throw e, s').
Proof.
  intros H s'. destruct (getGitHubRepoInfo_pure env s s' _ _ H) as [_ H'].
  unfold getCacheKey. by erewrite bind_throw by exact H'.
Qed.

Lemma getGitHubRepoInfo_any env s owner repo :
  getGitHubRepoInfo env s = (Ok (owner, repo), s) ->
  forall s', getGitHubRepoInfo env s' = (Ok (owner, repo), s').
Proof. intros H s'. by destruct (getGitHubRepoInfo_pure env s s' _ _ H). Qed.

(** X10. What a fetch that succeeded has cached is what the reads
    return: [getCachedIssues] at any later time, and
    [getCachedOrFetchIssues] up to five minutes after the fetch, return
    the fetched issues and pull requests and do nothing but write one
    line to the output channel (no request, no pending refresh, no
    notification). *)
Theorem X10_fetched_is_served env s owner repo :
  getGitHubRepoInfo env s = (Ok (owner, repo), s) ->
  octokit s = true ->
  list_error env = None ->
  exists r s1,
    fetchAndCacheIssues env s = (Ok r, s1)
    /\ forall s2,
         workspaceState s2 = workspaceState s1 ->
         getCachedIssues env s2
         = (Ok r, set_output (output s2 ++ [using_cached]) s2)
         /\ ((now s <= now s2 <= now s + 5 * 60 * 1000)%Z ->
             getCachedOrFetchIssues env s2
             = (Ok r, set_output (output s2 ++ [using_cached]) s2)).
Proof.
  intros Hrepo Hok Hlist.
  rewrite (fetchAndCacheIssues_success env s owner repo Hrepo Hok Hlist).
  eexists _, _. split; [reflexivity|]. intros s2 Hw.
  assert (Hc : workspaceState s2 !! cacheKey_of owner repo
               = Some (CachedIssues.mk (now s)
                         (Items.issues (fetched owner repo
                            (firstPage env StOpen ++ firstPage env StClosed) s).1)
                         (Items.pullRequests (fetched owner repo
                            (firstPage env StOpen ++ firstPage env StClosed) s).1))).
  { rewrite Hw. simpl. apply lookup_insert_eq. }
  split.
  - unfold getCachedIssues.
    erewrite bind_ok by (by eapply getCacheKey_ok).
    erewrite bind_ok by reflexivity.
    rewrite Hc. reflexivity.
  - intros Hage. unfold getCachedOrFetchIssues.
    erewrite bind_ok by (by eapply getCacheKey_ok).
    erewrite bind_ok by reflexivity.
    erewrite bind_ok by reflexivity.
    rewrite Hc. cbv beta iota zeta delta [CachedIssues.timestamp].
    assert (H30 : (now s2 - now s <? 30 * 60 * 1000)%Z = true)
      by (apply Z.ltb_lt; lia).
    assert (H5 : (5 * 60 * 1000 <? now s2 - now s)%Z = false)
      by (apply Z.ltb_ge; lia).
    rewrite H30, H5. reflexivity.
Qed.

Lemma X10_fetched_is_served_witness :
  exists r s1,
    fetchAndCacheIssues Sample.env Sample.svc_empty = (Ok r, s1)
    /\ (getCachedOrFetchIssues Sample.env (set_now (5000 + 60000) s1)).1 = Ok r
    /\ pending (getCachedOrFetchIssues Sample.env (set_now (5000 + 60000) s1)).2 = [].
Proof.
  destruct (X10_fetched_is_served Sample.env Sample.svc_empty
              (js "MadcowD") (js "github-issues")
              ltac:(vm_compute; reflexivity) eq_refl eq_refl)
    as (r & s1 & Hf & Hs).
  exists r, s1. split; [exact Hf|].
  destruct (Hs (set_now (5000 + 60000) s1) eq_refl) as [_ Hq].
  rewrite Hq by (simpl; lia).
  split; [reflexivity|].
  assert (Hp : pending (fetchAndCacheIssues Sample.env Sample.svc_empty).2 = [])
    by (vm_compute; reflexivity).
  rewrite Hf in Hp. exact Hp.
Defined.

(** X11. [clearCache] removes the entry of the repository and no other
    entry. Right after it [getCachedIssues] returns the empty result;
    [getCachedOrFetchIssues] returns the empty result without a request
    when the client is not signed in, and fetches when it is; with the
    remote answering, the fetch writes an entry stamped with the
    current time. *)
Theorem X11_clearCache env s owner repo :
  getGitHubRepoInfo env s = (Ok (owner, repo), s) ->
  exists s1,
    clearCache env s = (Ok tt, s1)
    /\ workspaceState s1 = delete (cacheKey_of owner repo) (workspaceState s)
    /\ workspaceState s1 !! cacheKey_of owner repo = None
    /\ (forall k, k <> cacheKey_of owner repo ->
                  workspaceState s1 !! k = workspaceState s !! k)
    /\ getCachedIssues env s1 = (Ok Items.empty, s1)
    /\ (octokit s = false ->
        getCachedOrFetchIssues env s1
        = (Ok Items.empty,
           set_output (output s1 ++ [js "Not authenticated yet, returning empty result"])
                      s1))
    /\ (octokit s = true ->
        getCachedOrFetchIssues env s1 = fetchAndCacheIssues env s1)
    /\ (octokit s = true -> list_error env = None ->
        exists c,
          workspaceState (getCachedOrFetchIssues env s1).2 !! cacheKey_of owner repo
          = Some c
          /\ CachedIssues.timestamp c = now s).
Proof.
  intros Hrepo.
  pose proof (getCacheKey_ok env s owner repo Hrepo) as Hkey.
  unfold clearCache.
  erewrite bind_ok by apply Hkey.
  erewrite bind_ok by reflexivity.
  eexists. split; [reflexivity|]. simpl.
  set (s1 := set_output _ _).
  assert (Hnone : workspaceState s1 !! cacheKey_of owner repo = None)
    by (subst s1; simpl; apply lookup_delete_eq).
  split; [reflexivity|]. split; [exact Hnone|].
  split; [intros k Hk; subst s1; simpl; by apply lookup_delete_ne|].
  assert (Hq : forall b, octokit s = b ->
            getCachedOrFetchIssues env s1
            = if b then fetchAndCacheIssues env s1
              else (Ok Items.empty,
                    set_output (output s1
                      ++ [js "Not authenticated yet, returning empty result"]) s1)).
  { intros b Hb. unfold getCachedOrFetchIssues.
    erewrite bind_ok by apply Hkey.
    erewrite bind_ok by reflexivity.
    erewrite bind_ok by reflexivity.
    rewrite Hnone.
    erewrite bind_ok by reflexivity.
    change (octokit s1) with (octokit s). rewrite Hb. by destruct b. }
  split.
  { unfold getCachedIssues.
    erewrite bind_ok by apply Hkey.
    erewrite bind_ok by reflexivity.
    by rewrite Hnone. }
  split; [intros Hb; by rewrite (Hq false Hb)|].
  split; [intros Hb; by rewrite (Hq true Hb)|].
  intros Hb Hlist. rewrite (Hq true Hb).
  rewrite (fetchAndCacheIssues_success env s1 owner repo
             (getGitHubRepoInfo_any env s owner repo Hrepo s1) Hb Hlist).
  eexists. split; [simpl; apply lookup_insert_eq|reflexivity].
Qed.

Lemma X11_clearCache_witness :
  exists s1,
    clearCache Sample.env (Sample.svc true 0) = (Ok tt, s1)
    /\ workspaceState (Sample.svc true 0) !! Sample.key = Some Sample.entry
    /\ workspaceState s1 !! Sample.key = None
    /\ getCachedIssues Sample.env s1 = (Ok Items.empty, s1).
Proof.
  destruct (X11_clearCache Sample.env (Sample.svc true 0)
              (js "MadcowD") (js "github-issues") ltac:(vm_compute; reflexivity))
    as (s1 & Hc & _ & Hn & _ & Hg & _).
  exists s1. split; [exact Hc|]. split; [vm_compute; reflexivity|].
  split; [|exact Hg].
  rewrite <- Hn. f_equal.
Defined.


Lemma handleError_eq message error s :
  handleError message error s = (Ok tt, reported message error s).
Proof. reflexivity. Qed.

Lemma fetchAndCacheIssues_unresolved env s e :
  getGitHubRepoInfo env s = (Throw e, s) ->
  fetchAndCacheIssues env s
  = (Throw e, reported (js "Error fetching GitHub issues and pull requests") e s).
Proof.
  intros H. unfold fetchAndCacheIssues, try_catch.
  erewrite bind_throw by exact H.
  erewrite bind_ok by apply handleError_eq.
  unfold getFallbackItems.
  erewrite bind_throw by (by eapply getCacheKey_throw). reflexivity.
Qed.

(** X12. When the repository of the workspace cannot be determined
    (no workspace root, no [origin] remote, or a remote that is no
    GitHub URL), every operation on the cache rejects with that error
    and changes nothing: [getCachedIssues], [getCachedOrFetchIssues],
    [clearCache], and [loadCacheAndFetch], which then starts no
    background fetch either. [fetchAndCacheIssues] reports the error
    and rejects as well, its fallback needing the repository too; so
    [refreshInBackground] rejects, while [fetchAndUpdateInBackground]
    catches the rejection, reports it a second time and fulfils. *)
Theorem X12_unresolved_repository env s e :
  getGitHubRepoInfo env s = (Throw e, s) ->
  let s1 := reported (js "Error fetching GitHub issues and pull requests") e s in
  getCachedIssues env s = (Throw e, s)
  /\ getCachedOrFetchIssues env s = (Throw e, s)
  /\ clearCache env s = (Throw e, s)
  /\ loadCacheAndFetch env s = (Throw e, s)
  /\ fetchAndCacheIssues env s = (Throw e, s1)
  /\ (refreshInBackground env s).1 = Throw e
  /\ fetchAndUpdateInBackground env s
     = (Ok tt,
        reported (js "Error fetching and updating GitHub issues and pull requests") e s1).
Proof.
  intros H s1.
  pose proof (getCacheKey_throw env s e H) as Hk.
  assert (Hg : getCachedIssues env s = (Throw e, s)).
  { unfold getCachedIssues. by erewrite bind_throw by apply Hk. }
  split; [exact Hg|].
  split; [unfold getCachedOrFetchIssues; by erewrite bind_throw by apply Hk|].
  split; [unfold clearCache; by erewrite bind_throw by apply Hk|].
  split; [unfold loadCacheAndFetch; by erewrite bind_throw by exact Hg|].
  split; [by apply fetchAndCacheIssues_unresolved|].
  split.
  - unfold refreshInBackground.
    erewrite bind_ok by reflexivity.
    erewrite bind_throw; [reflexivity|].
    apply fetchAndCacheIssues_unresolved.
    by destruct (getGitHubRepoInfo_pure env s
                   (set_output (output s
                      ++ [js "Starting background refresh of GitHub issues"]) s) _ _ H).
  - unfold fetchAndUpdateInBackground, try_catch.
    erewrite bind_throw by (by apply fetchAndCacheIssues_unresolved).
    reflexivity.
Qed.

Lemma X12_unresolved_repository_witness :
  getCachedOrFetchIssues Sample.env_gitlab (Sample.svc true 0)
  = (Throw (js "Unable to parse GitHub repository information"), Sample.svc true 0)
  /\ (fetchAndUpdateInBackground Sample.env_gitlab (Sample.svc true 0)).1 = Ok tt.
Proof.
  destruct (X12_unresolved_repository Sample.env_gitlab (Sample.svc true 0)
              (js "Unable to parse GitHub repository information")
              ltac:(vm_compute; reflexivity))
    as (_ & Hq & _ & _ & _ & _ & Hu).
  split; [exact Hq|]. by rewrite Hu.
Defined.

Lemma fetchAndCacheIssues_frame env s :
  same_frame s (fetchAndCacheIssues env s).2.
Proof.
  destruct (getGitHubRepoInfo env s) as [[[owner repo]|e] s0] eqn:Hrepo.
  - destruct (getGitHubRepoInfo_pure env s s _ _ Hrepo) as [-> _].
    destruct (fetch_error env s) as [e|] eqn:He.
    + rewrite (fetchAndCacheIssues_failure env s owner repo e Hrepo He).
      unfold fallen_back.
      by destruct (workspaceState s !! cacheKey_of owner repo).
    + unfold fetch_error in He. destruct (octokit s) eqn:Ho; [|discriminate].
      by rewrite (fetchAndCacheIssues_success env s owner repo Hrepo Ho He).
  - destruct (getGitHubRepoInfo_pure env s s _ _ Hrepo) as [-> _].
    by rewrite (fetchAndCacheIssues_unresolved env s e Hrepo).
Qed.

(** X13. [fetchAndUpdateInBackground] never rejects, whatever the
    remote and the workspace do: a failure ends in [handleError]. As
    [fetchAndCacheIssues], it leaves the client and the timer as they
    are, starts no task and sends no update to the remote. *)
Theorem X13_fetchAndUpdateInBackground_fulfils env s :
  same_frame s (fetchAndCacheIssues env s).2
  /\ exists s1, fetchAndUpdateInBackground env s = (Ok tt, s1) /\ same_frame s s1.
Proof.
  split; [apply fetchAndCacheIssues_frame|].
  pose proof (fetchAndCacheIssues_frame env s) as Hf.
  unfold fetchAndUpdateInBackground, try_catch, bind.
  destruct (fetchAndCacheIssues env s) as [[r|e] s'];
    (eexists; split; [reflexivity|exact Hf]).
Qed.

(** X14. When no session is granted, [initializeInBackground] does
    nothing but report: the client stays unset, nothing is fetched,
    cached or notified; one line goes to the output channel and one
    error message to the user. The cache reads then serve what was
    cached before, and without an entry return the empty result. *)
Theorem X14_no_session env s e :
  session env = Throw e ->
  octokit s = false ->
  let s1 := reported (js "Failed to authenticate with GitHub") e s in
  initializeInBackground env s = (Ok tt, s1)
  /\ octokit s1 = false
  /\ workspaceState s1 = workspaceState s
  /\ dataUpdated s1 = dataUpdated s
  /\ (forall owner repo,
        getGitHubRepoInfo env s = (Ok (owner, repo), s) ->
        workspaceState s !! cacheKey_of owner repo = None ->
        (getCachedOrFetchIssues env s1).1 = Ok Items.empty
        /\ workspaceState (getCachedOrFetchIssues env s1).2 = workspaceState s
        /\ dataUpdated (getCachedOrFetchIssues env s1).2 = dataUpdated s).
Proof.
  intros Hs Ho s1.
  assert (Hi : initializeInBackground env s = (Ok tt, s1)).
  { unfold initializeInBackground, try_catch.
    erewrite bind_throw by (by rewrite Hs). reflexivity. }
  split; [exact Hi|]. split; [exact Ho|]. split; [reflexivity|]. split; [reflexivity|].
  intros owner repo Hrepo Hnone.
  unfold getCachedOrFetchIssues.
  erewrite bind_ok by (by eapply getCacheKey_ok).
  erewrite bind_ok by reflexivity.
  erewrite bind_ok by reflexivity.
  change (workspaceState s1) with (workspaceState s). rewrite Hnone.
  erewrite bind_ok by reflexivity.
  change (octokit s1) with (octokit s). rewrite Ho. done.
Qed.

Lemma X14_no_session_witness :
  initializeInBackground Sample.env_declined (newService ∅ 0)
  = (Ok tt, reported (js "Failed to authenticate with GitHub")
                     (js "User did not consent to login.") (newService ∅ 0))
  /\ (getCachedOrFetchIssues Sample.env_declined
        (reported (js "Failed to authenticate with GitHub")
                  (js "User did not consent to login.") (newService ∅ 0))).1
     = Ok Items.empty.
Proof.
  destruct (X14_no_session Sample.env_declined (newService ∅ 0)
              (js "User did not consent to login.") eq_refl eq_refl)
    as (Hi & _ & _ & _ & Hq).
  split; [exact Hi|].
  destruct (Hq (js "MadcowD") (js "github-issues") ltac:(vm_compute; reflexivity)
               ltac:(apply lookup_empty)) as [Hr _].
  exact Hr.
Defined.

(** X15. When the session is granted and the user lookup that follows
    is refused, [initializeInBackground] reports a failure to
    authenticate and fetches nothing, but the client it created stays
    in place: the cache and the subscribers are as before, and the
    next [getCachedOrFetchIssues] that finds no entry young enough does
    fetch. *)
Theorem X15_user_lookup_refused env s scopes e :
  session env = Ok scopes ->
  user env = Throw e ->
  exists s1,
    initializeInBackground env s = (Ok tt, s1)
    /\ octokit s1 = true
    /\ workspaceState s1 = workspaceState s
    /\ dataUpdated s1 = dataUpdated s
    /\ output s1
       = output s
         ++ [js "Successfully authenticated with GitHub";
             js "Authenticated with the following scopes: " ++ join (js ", ") scopes;
             js "Failed to authenticate with GitHub" ++ js ": " ++ e]
    /\ errorMessages s1
       = errorMessages s
         ++ [js "Failed to authenticate with GitHub" ++ js ". Check output for details."]
    /\ (forall owner repo,
          getGitHubRepoInfo env s = (Ok (owner, repo), s) ->
          workspaceState s !! cacheKey_of owner repo = None ->
          getCachedOrFetchIssues env s1 = fetchAndCacheIssues env s1).
Proof.
  intros Hs Hu.
  unfold initializeInBackground, try_catch.
  erewrite bind_ok by (by rewrite Hs).
  erewrite bind_ok by reflexivity.
  erewrite bind_ok by reflexivity.
  erewrite bind_ok by reflexivity.
  erewrite bind_throw by (by rewrite Hu).
  rewrite handleError_eq.
  eexists. split; [reflexivity|].
  split; [reflexivity|]. split; [reflexivity|]. split; [reflexivity|].
  split; [simpl; by rewrite <- !app_assoc|].
  split; [reflexivity|].
  intros owner repo Hrepo Hnone.
  unfold getCachedOrFetchIssues.
  erewrite bind_ok by (by eapply getCacheKey_ok).
  erewrite bind_ok by reflexivity.
  erewrite bind_ok by reflexivity.
  match goal with
  | |- context [workspaceState ?x !! _] =>
      change (workspaceState x) with (workspaceState s)
  end.
  rewrite Hnone.
  erewrite bind_ok by reflexivity. reflexivity.
Qed.

Lemma X15_user_lookup_refused_witness :
  exists s1,
    initializeInBackground Sample.env_no_user (newService ∅ 0) = (Ok tt, s1)
    /\ octokit s1 = true
    /\ workspaceState s1 = ∅
    /\ dataUpdated s1 = [].
Proof.
  destruct (X15_user_lookup_refused Sample.env_no_user (newService ∅ 0)
              [js "repo"] (js "Bad credentials") eq_refl eq_refl)
    as (s1 & Hi & Ho & Hw & Hd & _).
  exists s1. split; [exact Hi|]. split; [exact Ho|]. split; [exact Hw|exact Hd].
Defined.

(** X16. A fetch that fails while the repository resolves notifies
    nobody through [refreshInBackground], but through
    [fetchAndUpdateInBackground] the subscribers are sent the fallback
    once: the cached entry, whatever its age, or two empty lists when
    nothing is cached. *)
Theorem X16_failed_fetch_notification env s owner repo e :
  getGitHubRepoInfo env s = (Ok (owner, repo), s) ->
  fetch_error env s = Some e ->
  let fallback :=
    match workspaceState s !! cacheKey_of owner repo with
    | Some c => Items.mk (CachedIssues.issues c) (CachedIssues.pullRequests c)
    | None => Items.empty
    end in
  dataUpdated (refreshInBackground env s).2 = dataUpdated s
  /\ dataUpdated (fetchAndUpdateInBackground env s).2 = dataUpdated s ++ [fallback]
  /\ workspaceState (fetchAndUpdateInBackground env s).2 = workspaceState s
  /\ errorMessages (fetchAndUpdateInBackground env s).2
     = errorMessages s
       ++ [js "Error fetching GitHub issues and pull requests"
           ++ js ". Check output for details."].
Proof.
  intros Hrepo He fallback. split.
  - unfold refreshInBackground.
    erewrite bind_ok by reflexivity.
    set (s0 := set_output _ s).
    pose proof (fetchAndCacheIssues_failure env s0 owner repo e
                  (getGitHubRepoInfo_any env s owner repo Hrepo s0) He) as Hf.
    unfold fallen_back in Hf.
    destruct (workspaceState s0 !! cacheKey_of owner repo);
      erewrite bind_ok by exact Hf; reflexivity.
  - unfold fetchAndUpdateInBackground, try_catch, bind.
    rewrite (fetchAndCacheIssues_failure env s owner repo e Hrepo He).
    unfold fallen_back. subst fallback.
    by destruct (workspaceState s !! cacheKey_of owner repo).
Qed.

Lemma X16_failed_fetch_notification_witness :
  dataUpdated (fetchAndUpdateInBackground Sample.env_down Sample.svc_empty).2
  = [Items.empty]
  /\ dataUpdated (refreshInBackground Sample.env_down Sample.svc_empty).2 = [].
Proof.
  destruct (X16_failed_fetch_notification Sample.env_down Sample.svc_empty
              (js "MadcowD") (js "github-issues") (js "Network error")
              ltac:(vm_compute; reflexivity) eq_refl)
    as (Hr & Hf & _).
  split; [exact Hf|exact Hr].
Defined.

End ServiceBeyond.

(* ===================================================================== *)
(** * The pattern of [getGitHubRepoInfo] *)
(* ===================================================================== *)

Section RepoInfo.

Lemma includes_false s t :
  includes s t = false -> forall k, take (length t) (drop k s) <> t.
Proof.
  induction s as [|c s IH]; simpl; intros H k.
  - apply orb_false_iff in H as [H _]. apply bool_decide_eq_false in H.
    by rewrite drop_nil.
  - apply orb_false_iff in H as [H1 H2]. apply bool_decide_eq_false in H1.
    destruct k as [|k]; [exact H1|]. simpl. by apply IH.
Qed.

Lemma includes_false_app s t a b : includes s t = false -> s <> a ++ t ++ b.
Proof.
  intros H ->. apply (includes_false _ _ H (length a)).
  rewrite drop_app_length. by rewrite take_app_length.
Qed.

Lemma run_length_take k s j :
  j <= run_length k s ->
  length (take j s) = j /\ Forall (fun c => cls_matches k c = true) (take j s).
Proof.
  revert j. induction s as [|c s IH]; intros j; simpl.
  - intros H. assert (j = 0) as -> by lia. by split.
  - destruct (cls_matches k c) eqn:E.
    + destruct j as [|j]; simpl; [by split|]. intros H.
      destruct (IH j) as [Hl Hf]; [lia|]. split; [by rewrite Hl|by constructor].
    + intros H. assert (j = 0) as -> by lia. by split.
Qed.

Lemma run_length_all k s :
  Forall (fun c => cls_matches k c = true) s -> run_length k s = length s.
Proof. induction 1 as [|c s Hc _ IH]; simpl; [done|]. by rewrite Hc, IH. Qed.

Lemma rmatch_rep_inv cap k lo hi r prev s caps len :
  rmatch (Rep cap k lo hi :: r) prev s = Some (caps, len) ->
  exists j caps' len',
    lo <= j <= run_length k s
    /\ (forall h, hi = Some h -> j <= h)
    /\ rmatch r (last_char prev (take j s)) (drop j s) = Some (caps', len')
    /\ caps = (if cap then take j s :: caps' else caps')
    /\ len = j + len'.
Proof.
  simpl.
  set (n := match hi with Some h => Nat.min h (run_length k s) | None => run_length k s end).
  destruct (n <? lo) eqn:E; [discriminate|]. apply Nat.ltb_ge in E.
  intros H. apply backtrack_Some in H as (j & Hj & H).
  destruct (rmatch r (last_char prev (take j s)) (drop j s))
    as [[caps' len']|] eqn:Er; [|discriminate].
  injection H as <- <-. exists j, caps', len'.
  split; [subst n; destruct hi; lia|].
  split; [intros h ->; subst n; lia|]. done.
Qed.

(** One character of a class, then the rest. *)
Lemma rmatch_class1 cap k r prev c s :
  cls_matches k c = true ->
  rmatch (Rep cap k 1 (Some 1) :: r) prev (c :: s)
  = match rmatch r (Some c) s with
    | Some (caps, len) => Some (if cap then [c] :: caps else caps, 1 + len)
    | None => None
    end.
Proof.
  intros Hc. simpl. rewrite Hc. simpl.
  rewrite take_0, drop_0. change (last_char prev [c]) with (Some c).
  by destruct (rmatch r (Some c) s) as [[caps len]|].
Qed.

Lemma rmatch_class1_fail cap k r prev s :
  match s with [] => True | c :: _ => cls_matches k c = false end ->
  rmatch (Rep cap k 1 (Some 1) :: r) prev s = None.
Proof. destruct s as [|c s]; simpl; [done|]. by intros ->. Qed.

Lemma last_char_cons prev c t : last_char prev (c :: t) = last_char (Some c) t.
Proof. unfold last_char. rewrite last_cons. by destruct (last t). Qed.

Lemma rmatch_lit_app t r : forall prev s,
  rmatch (lit t ++ r) prev (t ++ s)
  = match rmatch r (last_char prev t) s with
    | Some (caps, len) => Some (caps, length t + len)
    | None => None
    end.
Proof.
  induction t as [|c t IH]; intros prev s.
  - simpl. unfold last_char. simpl. by destruct (rmatch r prev s) as [[caps len]|].
  - change (lit (c :: t) ++ r) with (one c :: (lit t ++ r)).
    change ((c :: t) ++ s) with (c :: (t ++ s)).
    unfold one. rewrite rmatch_class1 by (simpl; apply N.eqb_refl).
    rewrite IH, last_char_cons.
    by destruct (rmatch r (last_char (Some c) t) s) as [[caps len]|].
Qed.

Lemma rmatch_lit_fail t r : forall prev s,
  take (length t) s <> t -> rmatch (lit t ++ r) prev s = None.
Proof.
  induction t as [|c t IH]; intros prev s Hne; [by destruct Hne; rewrite take_0|].
  change (lit (c :: t) ++ r) with (one c :: (lit t ++ r)). unfold one.
  destruct s as [|c' s]; [by apply rmatch_class1_fail|].
  destruct (N.eqb_spec c' c) as [->|Hc].
  - rewrite rmatch_class1 by (simpl; apply N.eqb_refl).
    rewrite IH; [done|]. intros E. apply Hne. simpl. by rewrite E.
  - apply rmatch_class1_fail. simpl. by apply N.eqb_neq.
Qed.

Lemma rmatch_lit_inv t r prev s caps len :
  rmatch (lit t ++ r) prev s = Some (caps, len) ->
  exists s' len',
    s = t ++ s' /\ rmatch r (last_char prev t) s' = Some (caps, len')
    /\ len = length t + len'.
Proof.
  intros H. destruct (decide (take (length t) s = t)) as [E|E].
  - rewrite <- (take_drop (length t) s), E in H. rewrite rmatch_lit_app in H.
    destruct (rmatch r (last_char prev t) (drop (length t) s))
      as [[caps' len']|] eqn:Er; [|discriminate].
    injection H as <- <-. exists (drop (length t) s), len'.
    split; [|done]. by rewrite <- E at 1; rewrite take_drop.
  - by rewrite rmatch_lit_fail in H.
Qed.

Lemma backtrack_first {A} (attempt : nat -> option A) lo d j x :
  lo <= j <= lo + d ->
  attempt j = Some x ->
  (forall j', j < j' <= lo + d -> attempt j' = None) ->
  backtrack attempt lo d = Some x.
Proof.
  induction d as [|d IH]; intros Hj Hx Hn; simpl.
  - replace (lo + 0) with j by lia. by rewrite Hx.
  - destruct (decide (j = lo + S d)) as [->|Hne]; [by rewrite Hx|].
    rewrite Hn by lia. apply IH; [lia|done|]. intros j' Hj'. apply Hn. lia.
Qed.

(** The longest run that lets the rest match is the one taken. *)
Lemma rmatch_plus_greedy cap k r prev s j caps len :
  1 <= j <= run_length k s ->
  rmatch r (last_char prev (take j s)) (drop j s) = Some (caps, len) ->
  (forall j', j < j' <= run_length k s ->
              rmatch r (last_char prev (take j' s)) (drop j' s) = None) ->
  rmatch (plus cap k :: r) prev s
  = Some (if cap then take j s :: caps else caps, j + len).
Proof.
  intros Hj Hm Hn. unfold plus. simpl.
  destruct (Nat.ltb_spec (run_length k s) 1) as [?|_]; [lia|].
  apply (backtrack_first _ 1 (run_length k s - 1) j); [lia|by rewrite Hm|].
  intros j' Hj'. rewrite Hn; [done|lia].
Qed.

Lemma search_inv r : forall s prev i m,
  search r prev s i = Some m ->
  exists k p len,
    k <= length s /\ m_index m = i + k /\ m_end m = i + k + len
    /\ rmatch r p (drop k s) = Some (m_groups m, len).
Proof.
  induction s as [|c s IH]; intros prev i m; simpl.
  - destruct (rmatch r prev []) as [[caps len]|] eqn:E; [|discriminate].
    intros [= <-]. exists 0, prev, len. simpl. split; [lia|]. split; [lia|].
    split; [lia|done].
  - destruct (rmatch r prev (c :: s)) as [[caps len]|] eqn:E.
    + intros [= <-]. exists 0, prev, len. simpl. split; [lia|]. split; [lia|].
      split; [lia|done].
    + intros H. apply IH in H as (k & p & len & Hk & Hi & He & Hm).
      exists (S k), p, len. simpl. split; [lia|]. split; [lia|]. split; [lia|done].
Qed.

Lemma search_skip r : forall pre s prev i,
  (forall k p, k < length pre -> rmatch r p (drop k (pre ++ s)) = None) ->
  search r prev (pre ++ s) i = search r (last_char prev pre) s (i + length pre).
Proof.
  induction pre as [|c pre IH]; intros s prev i Hn.
  - simpl. unfold last_char. simpl. by rewrite Nat.add_0_r.
  - pose proof (Hn 0 prev ltac:(simpl; lia)) as H0. simpl in H0.
    simpl. rewrite H0. rewrite IH.
    + rewrite last_char_cons. f_equal. lia.
    + intros k p Hk. apply (Hn (S k) p). simpl. lia.
Qed.

(** What a match of the pattern at the start of [u] looks like. *)
Lemma githubRegex_inv p u caps len :
  rmatch githubRegex p u = Some (caps, len) ->
  exists sep owner repo,
    u = js "github.com" ++ [sep] ++ owner ++ js "/" ++ repo ++ js ".git" ++ drop len u
    /\ caps = [owner; repo]
    /\ (sep = 58%N \/ sep = 47%N)
    /\ owner <> [] /\ repo <> []
    /\ Forall (fun c => is_line_terminator c = false) (owner ++ repo).
Proof.
  unfold githubRegex. intros H.
  apply rmatch_lit_inv in H as (u1 & l1 & -> & H & ->).
  cbn [app] in H.
  apply rmatch_rep_inv in H as (j & caps1 & l2 & Hj & Hh & H & -> & ->).
  assert (j = 1) as -> by (specialize (Hh 1 eq_refl); lia).
  destruct (run_length_take _ _ 1 (proj2 Hj)) as [Hl1 Hf1].
  destruct u1 as [|sep u1]; [discriminate|]. simpl in Hf1.
  apply Forall_cons in Hf1 as [Hsep _].
  change (drop 1 (sep :: u1)) with u1 in H.
  unfold plus in H.
  apply rmatch_rep_inv in H as (jo & caps2 & l3 & Hjo & _ & H & -> & ->).
  destruct (run_length_take _ _ jo (proj2 Hjo)) as [Hlo Hfo].
  change (one 47%N :: ?r) with (lit (js "/") ++ r) in H.
  apply rmatch_lit_inv in H as (u2 & l4 & Hu2 & H & ->).
  apply rmatch_rep_inv in H as (jr & caps3 & l5 & Hjr & _ & H & -> & ->).
  destruct (run_length_take _ _ jr (proj2 Hjr)) as [Hlr Hfr].
  rewrite <- (app_nil_r (lit (js ".git"))) in H.
  apply rmatch_lit_inv in H as (u3 & l6 & Hu3 & H & ->).
  simpl in H. injection H as <- <-.
  assert (Hd : drop (length (js "github.com")
                     + (1 + (jo + (length (js "/") + (jr + (length (js ".git") + 0))))))
                    (js "github.com" ++ sep :: u1) = u3).
  { rewrite drop_app_add.
    change (drop (1 + ?n) (sep :: u1)) with (drop n u1).
    rewrite <- drop_drop, Hu2, drop_app_add.
    rewrite <- drop_drop, Hu3, drop_app_add. apply drop_0. }
  assert (E2 : u2 = take jr u2 ++ js ".git" ++ u3).
  { transitivity (take jr u2 ++ drop jr u2); [symmetry; apply take_drop|].
    by rewrite Hu3. }
  assert (E1 : u1 = take jo u1 ++ js "/" ++ take jr u2 ++ js ".git" ++ u3).
  { transitivity (take jo u1 ++ drop jo u1); [symmetry; apply take_drop|].
    rewrite Hu2. by rewrite <- E2. }
  exists sep, (take jo u1), (take jr u2).
  split.
  { rewrite Hd. change ([sep] ++ ?x) with (sep :: x). by rewrite <- E1. }
  split; [done|].
  split.
  { simpl in Hsep. rewrite !orb_true_iff in Hsep.
    destruct Hsep as [Hs|[Hs|Hs]]; [left|right|discriminate]; by apply N.eqb_eq in Hs. }
  split; [intros E; rewrite E in Hlo; simpl in Hlo; lia|].
  split; [intros E; rewrite E in Hlr; simpl in Hlr; lia|].
  apply Forall_app. split.
  - eapply Forall_impl; [exact Hfo|]. simpl. intros c Hc. by apply negb_true_iff.
  - eapply Forall_impl; [exact Hfr|]. simpl. intros c Hc. by apply negb_true_iff.
Qed.


Lemma run_length_dot s :
  Forall (fun c => is_line_terminator c = false) s -> run_length CDot s = length s.
Proof.
  intros H. apply run_length_all. eapply Forall_impl; [exact H|].
  simpl. intros c Hc. by rewrite Hc.
Qed.

(** The second group takes all up to the final [.git]. *)
Lemma rmatch_repo prev repo :
  repo <> [] ->
  Forall (fun c => is_line_terminator c = false) repo ->
  rmatch (plus true CDot :: lit (js ".git")) prev (repo ++ js ".git")
  = Some ([repo], length repo + 4).
Proof.
  intros Hne Hlt.
  assert (Hrun : run_length CDot (repo ++ js ".git") = length repo + 4).
  { rewrite run_length_dot; [by rewrite length_app|].
    apply Forall_app. split; [exact Hlt|]. by repeat constructor. }
  rewrite (rmatch_plus_greedy true CDot _ prev _ (length repo) [] 4).
  - by rewrite take_app_length.
  - rewrite Hrun. destruct repo; [done|]. simpl. lia.
  - rewrite drop_app_length.
    change (rmatch (lit (js ".git")) ?q (js ".git"))
      with (rmatch (lit (js ".git") ++ []) q (js ".git" ++ [])).
    by rewrite rmatch_lit_app.
  - intros j' Hj'. rewrite Hrun in Hj'.
    change (lit (js ".git")) with (lit (js ".git") ++ []).
    apply rmatch_lit_fail. intros E.
    apply (f_equal length) in E. rewrite length_take, length_drop, length_app in E.
    change (length (js ".git")) with 4 in E. lia.
Qed.

(** On a canonical URL the pattern finds the owner and the
    repository: the first group runs up to the last slash. *)
Lemma githubRegex_canonical p sep owner repo :
  sep = 58%N \/ sep = 47%N ->
  owner <> [] -> repo <> [] ->
  Forall (fun c => is_line_terminator c = false) (owner ++ repo) ->
  Forall (fun c => c <> 47%N) repo ->
  rmatch githubRegex p
    (js "github.com" ++ [sep] ++ owner ++ js "/" ++ repo ++ js ".git")
  = Some ([owner; repo], 10 + (1 + (length owner + (1 + (length repo + 4))))).
Proof.
  intros Hsep Ho Hr Hlt Hslash.
  apply Forall_app in Hlt as [Hlo Hlr].
  unfold githubRegex. rewrite rmatch_lit_app. cbn [app].
  change ([sep] ++ ?x) with (sep :: x).
  rewrite rmatch_class1 by (destruct Hsep as [-> | ->]; reflexivity).
  set (rest := owner ++ js "/" ++ repo ++ js ".git").
  assert (Hrun : run_length CDot rest = length owner + (1 + (length repo + 4))).
  { subst rest. rewrite run_length_dot; [by rewrite !length_app|].
    apply Forall_app. split; [exact Hlo|].
    apply Forall_app. split; [by repeat constructor|].
    apply Forall_app. split; [exact Hlr|]. by repeat constructor. }
  rewrite (rmatch_plus_greedy true CDot _ (Some sep) rest (length owner)
             [repo] (1 + (length repo + 4))).
  - subst rest. by rewrite take_app_length.
  - rewrite Hrun. destruct owner; [done|]. simpl. lia.
  - subst rest. rewrite drop_app_length.
    change (js "/" ++ ?x) with (47%N :: x). unfold one at 1.
    rewrite rmatch_class1 by reflexivity.
    by rewrite rmatch_repo.
  - intros j' Hj'. rewrite Hrun in Hj'. unfold one at 1.
    apply rmatch_class1_fail.
    subst rest. rewrite drop_app_ge by lia.
    change (js "/" ++ ?x) with ([47%N] ++ x).
    rewrite drop_app_ge by (simpl; lia).
    assert (Hall : Forall (fun c => c <> 47%N)
                     (drop (j' - length owner - length [47%N]) (repo ++ js ".git"))).
    { apply Forall_drop, Forall_app. split; [exact Hslash|].
      by repeat constructor. }
    destruct (drop (j' - length owner - length [47%N]) (repo ++ js ".git"))
      as [|c l]; [done|].
    apply Forall_cons in Hall as [Hc _]. simpl. by apply N.eqb_neq.
Qed.

End RepoInfo.

(* ===================================================================== *)
(** * The service: which repository, which cache key *)
(* ===================================================================== *)

Section RepoInfoProperties.

Lemma search_hit r prev s i caps len :
  rmatch r prev s = Some (caps, len) ->
  search r prev s i = Some (mkMatch i caps (i + len)).
Proof. intros H. destruct s; simpl; by rewrite H. Qed.

Lemma search_githubRegex_inv url m :
  search githubRegex None url 0 = Some m ->
  exists pre sep owner repo post,
    url = pre ++ js "github.com" ++ [sep] ++ owner ++ js "/" ++ repo ++ js ".git" ++ post
    /\ m_groups m = [owner; repo]
    /\ (sep = 58%N \/ sep = 47%N)
    /\ owner <> [] /\ repo <> []
    /\ Forall (fun c => is_line_terminator c = false) (owner ++ repo).
Proof.
  intros H. apply search_inv in H as (k & p & len & _ & _ & _ & H).
  apply githubRegex_inv in H as (sep & owner & repo & Hu & Hg & Hrest).
  exists (take k url), sep, owner, repo, (drop len (drop k url)).
  split; [|by split].
  rewrite <- Hu. symmetry. apply take_drop.
Qed.

(** X17. A repository [getGitHubRepoInfo] returns was read off the
    first remote named [origin]: its URL holds [github.com], a colon
    or a slash, the owner, a slash, the repository and [.git], in this
    order; owner and repository are not empty and hold no line
    terminator. The service is left as it was. *)
Theorem X17_repo_info_sound env s owner repo s1 :
  getGitHubRepoInfo env s = (Ok (owner, repo), s1) ->
  s1 = s
  /\ exists url pre sep post,
       origin_url env = Some url
       /\ url = pre ++ js "github.com" ++ [sep] ++ owner ++ js "/" ++ repo
                ++ js ".git" ++ post
       /\ (sep = 58%N \/ sep = 47%N)
       /\ owner <> [] /\ repo <> []
       /\ Forall (fun c => is_line_terminator c = false) (owner ++ repo).
Proof.
  unfold getGitHubRepoInfo, origin_url, throw, ret.
  destruct (workspaceRoot env) as [[|c root]|]; [discriminate| |discriminate].
  destruct (List.find _ (git_remotes env)) as [[name url]|]; [|discriminate].
  change (snd <$> Some (name, url)) with (Some url). cbv beta iota delta [snd].
  destruct (search githubRegex None url 0) as [m|] eqn:Hm; [|discriminate].
  destruct (search_githubRegex_inv url m Hm)
    as (pre & sep & o & r & post & Hu & Hg & Hrest).
  destruct m as [i g e]. simpl in Hg. subst g.
  intros [= <- <- <-]. split; [done|].
  exists url, pre, sep, post. by split.
Qed.

Lemma X17_repo_info_sound_witness :
  exists url pre sep post,
    origin_url Sample.env = Some url
    /\ url = pre ++ js "github.com" ++ [sep] ++ js "MadcowD" ++ js "/"
             ++ js "github-issues" ++ js ".git" ++ post.
Proof.
  destruct (X17_repo_info_sound Sample.env Sample.svc_empty
              (js "MadcowD") (js "github-issues") Sample.svc_empty
              ltac:(vm_compute; reflexivity))
    as (_ & url & pre & sep & post & Ho & Hu & _).
  by exists url, pre, sep, post.
Defined.

(** X18. Completeness on the URLs git hosts hand out: when the
    [origin] remote is some prefix without [github.com] in it, then
    [github.com], a colon or a slash, an owner, a slash, a repository
    without a slash, and a final [.git], [getGitHubRepoInfo] returns
    this owner and this repository (an owner with slashes in it
    included), and the cache key is made of the two. *)
Theorem X18_repo_info_canonical env s pre sep owner repo :
  (exists c root, workspaceRoot env = Some (c :: root)) ->
  origin_url env
  = Some (pre ++ js "github.com" ++ [sep] ++ owner ++ js "/" ++ repo ++ js ".git") ->
  includes (pre ++ js "github.co") (js "github.com") = false ->
  sep = 58%N \/ sep = 47%N ->
  owner <> [] -> repo <> [] ->
  Forall (fun c => is_line_terminator c = false) (owner ++ repo) ->
  Forall (fun c => c <> 47%N) repo ->
  getGitHubRepoInfo env s = (Ok (owner, repo), s)
  /\ getCacheKey env s = (Ok (js "githubIssues_" ++ owner ++ js "_" ++ repo), s).
Proof.
  intros (c & root & Hroot) Hurl Hpre Hsep Ho Hr Hlt Hslash.
  assert (Hinfo : getGitHubRepoInfo env s = (Ok (owner, repo), s)).
  { unfold getGitHubRepoInfo. rewrite Hroot.
    unfold origin_url in Hurl.
    destruct (List.find _ (git_remotes env)) as [[name url]|]; [|discriminate].
    change (snd <$> Some (name, url)) with (Some url) in Hurl.
    apply (inj Some) in Hurl. subst. cbv beta iota delta [snd].
    rewrite search_skip.
    - erewrite search_hit by (by apply githubRegex_canonical). reflexivity.
    - intros k p Hk. unfold githubRegex. apply rmatch_lit_fail.
      set (x := [sep] ++ owner ++ js "/" ++ repo ++ js ".git").
      replace (pre ++ js "github.com" ++ x)
        with ((pre ++ js "github.co") ++ (js "m" ++ x))
        by (by rewrite <- app_assoc).
      rewrite drop_app_le by (rewrite length_app; simpl; lia).
      rewrite take_app_le
        by (rewrite length_drop, length_app; simpl; lia).
      by apply includes_false. }
  split; [exact Hinfo|].
  unfold getCacheKey. by erewrite bind_ok by exact Hinfo.
Qed.

Lemma X18_repo_info_canonical_witness :
  getGitHubRepoInfo Sample.env Sample.svc_empty
  = (Ok (js "MadcowD", js "github-issues"), Sample.svc_empty)
  /\ getCacheKey Sample.env Sample.svc_empty = (Ok Sample.key, Sample.svc_empty).
Proof.
  apply (X18_repo_info_canonical Sample.env Sample.svc_empty (js "git@") 58%N
           (js "MadcowD") (js "github-issues")).
  - by exists 47%N, (js "w").
  - reflexivity.
  - reflexivity.
  - by left.
  - discriminate.
  - discriminate.
  - by repeat constructor.
  - repeat constructor; discriminate.
Defined.

(** X19. A URL of the [origin] remote without [.git] in it, as an
    HTTPS clone of the address shown in the browser has, or without
    [github.com] in it, is rejected: [getGitHubRepoInfo] raises
    [Unable to parse GitHub repository information], and with it every
    operation on the cache. *)
Theorem X19_repo_info_needs_suffix env s url :
  (exists c root, workspaceRoot env = Some (c :: root)) ->
  origin_url env = Some url ->
  includes url (js ".git") = false \/ includes url (js "github.com") = false ->
  getGitHubRepoInfo env s
  = (Throw (js "Unable to parse GitHub repository information"), s)
  /\ getCachedOrFetchIssues env s
     = (Throw (js "Unable to parse GitHub repository information"), s).
Proof.
  intros (c & root & Hroot) Hurl Hinc.
  assert (Hinfo : getGitHubRepoInfo env s
                  = (Throw (js "Unable to parse GitHub repository information"), s)).
  { unfold getGitHubRepoInfo. rewrite Hroot.
    unfold origin_url in Hurl.
    destruct (List.find _ (git_remotes env)) as [[name url']|]; [|discriminate].
    change (snd <$> Some (name, url')) with (Some url') in Hurl.
    apply (inj Some) in Hurl. subst. cbv beta iota delta [snd].
    destruct (search githubRegex None url 0) as [m|] eqn:Hm; [|done].
    exfalso.
    destruct (search_githubRegex_inv url m Hm)
      as (pre & sep & o & r & post & Hu & _).
    destruct Hinc as [Hinc|Hinc].
    - apply (includes_false_app _ _
               (pre ++ js "github.com" ++ [sep] ++ o ++ js "/" ++ r) post Hinc).
      rewrite Hu. by rewrite <- !app_assoc.
    - by apply (includes_false_app _ _ pre
                  ([sep] ++ o ++ js "/" ++ r ++ js ".git" ++ post) Hinc). }
  split; [exact Hinfo|].
  unfold getCachedOrFetchIssues.
  by erewrite bind_throw by (by eapply getCacheKey_throw).
Qed.

Lemma X19_repo_info_needs_suffix_witness :
  getGitHubRepoInfo Sample.env_bare Sample.svc_empty
  = (Throw (js "Unable to parse GitHub repository information"), Sample.svc_empty).
Proof.
  apply (X19_repo_info_needs_suffix Sample.env_bare Sample.svc_empty
           (js "https://github.com/MadcowD/github-issues")).
  - by exists 47%N, (js "w").
  - reflexivity.
  - left. reflexivity.
Defined.

Lemma split_at_first {A} (c : A) o1 r1 o2 r2 :
  Forall (fun x => x <> c) o1 ->
  Forall (fun x => x <> c) o2 ->
  o1 ++ c :: r1 = o2 ++ c :: r2 ->
  o1 = o2 /\ r1 = r2.
Proof.
  intros Hu1. revert o2.
  induction Hu1 as [|c1 o1 Hc1 Hu1 IH]; intros o2 Hu2 Hk.
  - destruct Hu2 as [|c2 o2 Hc2 Hu2]; simpl in Hk.
    + by injection Hk as <-.
    + injection Hk as <- _. done.
  - destruct Hu2 as [|c2 o2 Hc2 Hu2]; simpl in Hk.
    + injection Hk as -> _. done.
    + injection Hk as <- Hk. destruct (IH o2 Hu2 Hk) as [-> ->]. done.
Qed.

(** X20. The cache key tells repositories apart as long as the owners
    hold no underscore: two workspaces whose keys are equal then have
    the same owner and the same repository. *)
Theorem X20_cache_key_injective env1 s1 o1 r1 env2 s2 o2 r2 k :
  getGitHubRepoInfo env1 s1 = (Ok (o1, r1), s1) ->
  getGitHubRepoInfo env2 s2 = (Ok (o2, r2), s2) ->
  Forall (fun c => c <> 95%N) o1 ->
  Forall (fun c => c <> 95%N) o2 ->
  getCacheKey env1 s1 = (Ok k, s1) ->
  getCacheKey env2 s2 = (Ok k, s2) ->
  o1 = o2 /\ r1 = r2.
Proof.
  intros H1 H2 Hu1 Hu2 Hk1 Hk2.
  rewrite (getCacheKey_ok env1 s1 o1 r1 H1 s1) in Hk1.
  rewrite (getCacheKey_ok env2 s2 o2 r2 H2 s2) in Hk2.
  assert (Hk : cacheKey_of o1 r1 = cacheKey_of o2 r2) by congruence.
  unfold cacheKey_of in Hk. apply app_inv_head in Hk.
  by apply (split_at_first 95%N).
Qed.

Lemma X20_cache_key_injective_witness :
  js "MadcowD" = js "MadcowD" /\ js "github-issues" = js "github-issues".
Proof.
  apply (X20_cache_key_injective Sample.env Sample.svc_empty (js "MadcowD")
           (js "github-issues") Sample.env_down (Sample.svc true 0) (js "MadcowD")
           (js "github-issues") Sample.key).
  - vm_compute; reflexivity.
  - vm_compute; reflexivity.
  - repeat constructor; discriminate.
  - repeat constructor; discriminate.
  - vm_compute; reflexivity.
  - vm_compute; reflexivity.
Defined.

End RepoInfoProperties.

(* ===================================================================== *)
(** * The provider: what is written back *)
(* ===================================================================== *)

Section WriteBack.

Lemma rmatch_lit_self t p rest : rmatch (lit t) p (t ++ rest) = Some ([], length t).
Proof.
  rewrite <- (app_nil_r (lit t)), rmatch_lit_app. simpl. by rewrite Nat.add_0_r.
Qed.

Lemma rmatch_lit_none t p s : take (length t) s <> t -> rmatch (lit t) p s = None.
Proof. intros H. rewrite <- (app_nil_r (lit t)). by apply rmatch_lit_fail. Qed.

Lemma search_none r : forall s prev i,
  (forall k p, rmatch r p (drop k s) = None) -> search r prev s i = None.
Proof.
  induction s as [|c s IH]; intros prev i H; simpl.
  - pose proof (H 0 prev) as H0. rewrite drop_0 in H0. by rewrite H0.
  - pose proof (H 0 prev) as H0. rewrite drop_0 in H0. rewrite H0.
    apply IH. intros k p. apply (H (S k) p).
Qed.

Lemma execLoop_none fuel r input lastIndex :
  exec r input lastIndex = None -> execLoop fuel r input lastIndex = Some [].
Proof. intros H. destruct fuel; simpl; by rewrite H. Qed.

Lemma no_early_occurrence t seg rest k :
  none_starts_in t seg -> k < length seg ->
  take (length t) (drop k (seg ++ t ++ rest)) <> t.
Proof.
  unfold none_starts_in. intros H Hk.
  rewrite <- (take_drop (length t - 1) t) at 2.
  rewrite <- app_assoc, (app_assoc seg).
  rewrite drop_app_le by (rewrite length_app; lia).
  destruct t as [|c t]; [simpl in *|].
  - rewrite take_0. intros _. revert H. clear. rewrite app_nil_r.
    destruct seg; simpl; discriminate.
  - rewrite take_app_le.
    + by apply includes_false.
    + rewrite length_drop, length_app, length_take. simpl. lia.
Qed.

Lemma getSubstitution_plain rep matched before after :
  Forall (fun c => c <> 36%N) rep ->
  getSubstitution rep matched before after = rep.
Proof.
  induction 1 as [|c rep Hc _ IH]; simpl; [done|].
  destruct (N.eqb_spec c 36) as [->|_]; [done|]. by rewrite IH.
Qed.

(** The loop of [replace] on a literal pattern: every occurrence, from
    left to right and without overlap, is a match. *)
Lemma replace_lit_from t rep :
  t <> [] ->
  Forall (fun c => c <> 36%N) rep ->
  forall segs done last fuel,
    Forall (none_starts_in t) segs ->
    includes last t = false ->
    length (interleave segs t last) <= fuel ->
    exists ms,
      execLoop fuel (lit t) (done ++ interleave segs t last) (length done) = Some ms
      /\ replace_matches rep (done ++ interleave segs t last) ms (length done)
         = interleave segs rep last.
Proof.
  intros Ht Hrep. induction segs as [|seg segs IH]; intros done last fuel Hs Hl Hf.
  - exists []. simpl interleave. split; [|simpl; by rewrite drop_app_length].
    apply execLoop_none. unfold exec.
    destruct (Nat.ltb_spec (length (done ++ last)) (length done)) as [H|_];
      [rewrite length_app in H; lia|].
    rewrite drop_app_length. apply search_none.
    intros k p. apply rmatch_lit_none. by apply includes_false.
  - apply Forall_cons in Hs as [Hseg Hs]. simpl interleave in *.
    remember (interleave segs t last) as rest eqn:Hrest.
    assert (Hexec : exec (lit t) (done ++ seg ++ t ++ rest) (length done)
                    = Some (mkMatch (length done + length seg) []
                              (length done + length seg + length t))).
    { unfold exec.
      destruct (Nat.ltb_spec (length (done ++ seg ++ t ++ rest)) (length done)) as [H|_];
        [rewrite length_app in H; lia|].
      rewrite drop_app_length. rewrite search_skip.
      - by erewrite search_hit by apply rmatch_lit_self.
      - intros k p Hk. apply rmatch_lit_none. by apply no_early_occurrence. }
    assert (Hlen : 0 < length t) by (destruct t; [done|simpl; lia]).
    rewrite !length_app in Hf.
    destruct fuel as [|fuel]; [lia|].
    destruct (IH (done ++ seg ++ t) last fuel Hs Hl ltac:(rewrite <- Hrest; lia))
      as (ms & Hms & Hr).
    rewrite <- Hrest in Hms, Hr.
    rewrite <- !app_assoc in Hms, Hr. rewrite !length_app in Hms, Hr.
    rewrite !Nat.add_assoc in Hms, Hr.
    eexists. split.
    + simpl execLoop. rewrite Hexec. cbn [m_end]. rewrite Hms. reflexivity.
    + cbn [replace_matches m_index m_end]. rewrite Hr.
      rewrite getSubstitution_plain by exact Hrep.
      rewrite drop_app_length.
      replace (length done + length seg - length done) with (length seg) by lia.
      by rewrite take_app_length.
Qed.

Lemma replace_lit t rep segs last :
  t <> [] ->
  Forall (fun c => c <> 36%N) rep ->
  Forall (none_starts_in t) segs ->
  includes last t = false ->
  replace (lit t) rep (interleave segs t last) = interleave segs rep last.
Proof.
  intros Ht Hrep Hs Hl. unfold replace.
  destruct (replace_lit_from t rep Ht Hrep segs (@nil N) last
              (length (interleave segs t last)) Hs Hl) as (ms & Hms & Hr); [done|].
  simpl in Hms, Hr. by rewrite Hms.
Qed.

(** X21. The body [handleCheckboxChange] sends, for a label without a
    dollar sign: every occurrence of the old line text in the parent's
    body, found from left to right, is rewritten with the new mark, be
    it the line of the item, the line of an item with the same label,
    or the beginning of a longer line; the rest of the body is kept.
    A body without the old line text is sent as it is. *)
Theorem X21_every_occurrence_rewritten (chk : bool) itemLabel segs last :
  let old := itemLine (if chk then 32%N else 120%N) itemLabel in
  let new := itemLine (if chk then 120%N else 32%N) itemLabel in
  Forall (fun c => c <> 36%N) itemLabel ->
  Forall (none_starts_in old) segs ->
  includes last old = false ->
  updatedBody chk itemLabel (interleave segs old last) = interleave segs new last
  /\ updatedBody chk itemLabel last = last.
Proof.
  intros old new Hlabel Hs Hl.
  assert (Hold : old <> []) by (subst old; destruct chk; discriminate).
  assert (Hnew : Forall (fun c => c <> 36%N) new).
  { subst new. unfold itemLine. repeat apply Forall_app_2; try exact Hlabel.
    - repeat constructor; discriminate.
    - destruct chk; repeat constructor; discriminate.
    - repeat constructor; discriminate. }
  split.
  - apply (replace_lit old new segs last Hold Hnew Hs Hl).
  - apply (replace_lit old new [] last Hold Hnew (Forall_nil_2 _) Hl).
Qed.

Lemma X21_every_occurrence_rewritten_witness :
  updatedBody true (js "a")
    (interleave [js "- [x] z" ++ [LF]; [LF]] (js "- [ ] a") (js "b"))
  = interleave [js "- [x] z" ++ [LF]; [LF]] (js "- [x] a") (js "b").
Proof.
  apply (X21_every_occurrence_rewritten true (js "a")
           [js "- [x] z" ++ [LF]; [LF]] (js "b")).
  - repeat constructor; discriminate.
  - repeat constructor.
  - reflexivity.
Defined.

End WriteBack.

(* ===================================================================== *)
(** * The provider: a change that goes through, and the updates *)
(* ===================================================================== *)

Section HandlerBeyond.






(** X23. The elements the handler passes over: group nodes of the
    view, tree nodes that are no checklist item and checklist items
    without a parent. A change event that holds only such elements
    does nothing at all: no request, no change of the tree, no
    announcement. *)
Theorem X23_passed_over_elements env s items :
  Forall (fun it => passed_over (tree s) it.1) items ->
  handleCheckboxChange env items s = (Ok tt, s).
Proof.
  induction 1 as [|[item st] items Hi _ IH]; simpl; [done|].
  assert (Hitem : handleItem env item st s = (Ok tt, s)).
  { destruct item as [lbl|a]; simpl in *; [done|].
    destruct Hi as (n & Ha & Hn).
    erewrite bind_ok by (unfold deref; by rewrite Ha).
    destruct Hn as [-> | ->]; [done|]. by destruct (isCheckbox n). }
  by erewrite bind_ok by exact Hitem.
Qed.

Lemma X23_passed_over_elements_witness :
  handleCheckboxChange Sample.env
    [(ElemTreeItem (js "Issues (1)"), Checked); (ElemIssue 0, Checked);
     (ElemIssue 5, Unchecked)] Sample.app4
  = (Ok tt, Sample.app4).
Proof.
  apply (X23_passed_over_elements Sample.env Sample.app4).
  repeat constructor.
  - eexists. split; [vm_compute; reflexivity|]. by left.
  - eexists. split; [vm_compute; reflexivity|]. by left.
Defined.

Lemma getCachedIssues_result env s0 o r :
  getGitHubRepoInfo env s0 = (Ok (o, r), s0) ->
  forall s,
    (getCachedIssues env s).1
    = Ok (match workspaceState s !! cacheKey_of o r with
          | Some c => Items.mk (CachedIssues.issues c) (CachedIssues.pullRequests c)
          | None => Items.empty
          end).
Proof.
  intros H s. unfold getCachedIssues.
  erewrite bind_ok by (by eapply getCacheKey_ok).
  erewrite bind_ok by reflexivity.
  by destruct (workspaceState s !! cacheKey_of o r).
Qed.

(** X24. [updateIssue] and [updateIssueBody] send exactly one update
    when they fulfil and none when they reject; without a client they
    reject before anything is logged, and a refusal of the remote is
    logged, shown to the user and raised again. Neither touches the
    cache or notifies the subscribers, so the cache reads return after
    an update what was cached before it. *)
Theorem X24_update_outcomes env owner repo num newBody newTitle svc :
  update_outcome env svc (js "Failed to update body of issue #") num (PatchBody newBody)
    (updateIssueBody env owner repo num newBody svc)
  /\ update_outcome env svc (js "Failed to update issue #") num (PatchTitle newTitle)
       (updateIssue env owner repo num newTitle svc)
  /\ (getCachedIssues env (updateIssueBody env owner repo num newBody svc).2).1
     = (getCachedIssues env svc).1.
Proof.
  assert (Hb : update_outcome env svc (js "Failed to update body of issue #") num
                 (PatchBody newBody) (updateIssueBody env owner repo num newBody svc)).
  { unfold update_outcome, updateIssueBody, try_catch, bind, gets.
    destruct (octokit svc) eqn:Ho; simpl negb; cbv iota.
    - destruct (update_error env) as [e|] eqn:He; simpl.
      + split_and!; try done. right. by split_and!.
      + by split_and!.
    - simpl. split_and!; try done. left. by split_and!. }
  split; [exact Hb|]. split.
  { unfold update_outcome, updateIssue, try_catch, bind, gets.
    destruct (octokit svc) eqn:Ho; simpl negb; cbv iota.
    - destruct (update_error env) as [e|] eqn:He; simpl.
      + split_and!; try done. right. by split_and!.
      + by split_and!.
    - simpl. split_and!; try done. left. by split_and!. }
  destruct Hb as (Hw & _).
  destruct (getGitHubRepoInfo env svc) as [[[o r]|e] svc0] eqn:Hrepo;
    destruct (getGitHubRepoInfo_pure env svc svc _ _ Hrepo) as [-> _].
  - rewrite !(getCachedIssues_result env svc o r Hrepo). by rewrite Hw.
  - unfold getCachedIssues.
    erewrite (bind_throw _ _ svc) by (by eapply getCacheKey_throw).
    by erewrite bind_throw by (by eapply getCacheKey_throw).
Qed.

End HandlerBeyond.

(* ===================================================================== *)
(** * The provider: roots, groups and search *)
(* ===================================================================== *)

Section ViewItems.
Variable toLowerCase : jsstring -> jsstring.

Lemma newGitHubIssue_root lbl cs i ty par isCb chk (h : heap) :
  ty <> TProgressBar ->
  exists n new,
    newGitHubIssue lbl cs i ty par isCb chk h = Some (length h, h ++ n :: new)
    /\ label n = lbl /\ type n = ty /\ parent n = par /\ isCheckbox n = isCb
    /\ issue n = set_body (Some (body_or_empty (body i))) i.
Proof.
  intros Hty. unfold newGitHubIssue.
  destruct (execLoop_total checkboxRegex ltac:(rewrite min_len_checkboxRegex; lia)
              (S (length (body_or_empty (body i)))) (body_or_empty (body i)) 0
              ltac:(lia)) as [ms Hms].
  destruct ms as [|m0 ms0] eqn:Ems.
  - apply execLoop_nil in Hms. rewrite construct_no_match by done.
    eexists _, []. split; [reflexivity|]. by repeat split.
  - rewrite <- Ems in Hms.
    rewrite (construct_spec 0 lbl cs i ty par isCb chk h ms Hty Hms)
      by (rewrite Ems; discriminate).
    cbv zeta. rewrite <- app_assoc.
    eexists _, _. split; [reflexivity|]. by repeat split.
Qed.

Lemma root_of_app (h new : list GitHubIssue) ty a i :
  root_of h ty a i -> root_of (h ++ new) ty a i.
Proof.
  intros (n & Hn & H). exists n. split; [|exact H].
  by apply lookup_app_l_Some.
Qed.

(** The map of [setIssues]: one new root per record, in order, each
    allocated after what was there. *)
Lemma newRoots_spec ty items :
  ty <> TProgressBar ->
  Forall (fun i => is_Some (title i)) items ->
  forall h : list GitHubIssue,
    exists roots new,
      newRoots ty items h = Some (roots, h ++ new)
      /\ Forall2 (fun a i => length h <= a /\ root_of (h ++ new) ty a i) roots items.
Proof.
  intros Hty. induction 1 as [|i items [lbl Hlbl] _ IH]; intros h.
  - exists [], []. rewrite app_nil_r. by split.
  - simpl. rewrite Hlbl.
    destruct (newGitHubIssue_root lbl CNone i ty None false false h Hty)
      as (n & new1 & Hnew & Hl & Ht & Hp & Hc & Hi).
    rewrite Hnew.
    destruct (IH (h ++ n :: new1)) as (roots & new2 & Hr & Hall).
    rewrite Hr, <- app_assoc.
    exists (length h :: roots), ((n :: new1) ++ new2). split; [reflexivity|].
    constructor.
    + split; [lia|]. exists n. split; [by apply list_lookup_middle|].
      rewrite Hl. by repeat split.
    + eapply Forall2_impl; [exact Hall|]. simpl. intros a j [Ha Hroot].
      rewrite length_app in Ha. split; [lia|]. by rewrite <- app_assoc in Hroot.
Qed.

Lemma setIssues_roots items prs (p : GitHubIssuesProvider.t) :
  Forall (fun i => is_Some (title i)) items ->
  Forall (fun i => is_Some (title i)) prs ->
  exists p',
    setIssues items prs p = Some p'
    /\ Forall2 (root_of (GitHubIssuesProvider.nodes p') TIssue)
               (GitHubIssuesProvider.issues p') items
    /\ Forall2 (root_of (GitHubIssuesProvider.nodes p') TPullRequest)
               (GitHubIssuesProvider.pullRequests p') prs
    /\ GitHubIssuesProvider.searchQuery p' = GitHubIssuesProvider.searchQuery p.
Proof.
  intros Hi Hp. unfold setIssues.
  destruct (newRoots_spec TIssue items ltac:(done) Hi (GitHubIssuesProvider.nodes p))
    as (roots & new1 & Hr & Hall1).
  rewrite Hr.
  destruct (newRoots_spec TPullRequest prs ltac:(done) Hp
              (GitHubIssuesProvider.nodes p ++ new1)) as (proots & new2 & Hpr & Hall2).
  rewrite Hpr.
  eexists. split; [reflexivity|]. simpl.
  split; [|split; [|reflexivity]].
  - eapply Forall2_impl; [exact Hall1|]. simpl. intros a i [_ Hroot].
    by apply root_of_app.
  - eapply Forall2_impl; [exact Hall2|]. simpl. by intros a i [_ Hroot].
Qed.

(** X25. [setIssues] (and the same map in [fetchIssues]) builds the
    roots anew on every call: for records that carry a title it
    returns, the objects that were in the store are untouched, and the
    new roots are new objects, one per record and in the order of the
    records, issues first; a root has the title as label, the type of
    its list, no parent, and the record with an absent body replaced by
    the empty string. The search query is kept. *)
Theorem X25_setIssues_builds_roots items prs (p : GitHubIssuesProvider.t) :
  Forall (fun i => is_Some (title i)) items ->
  Forall (fun i => is_Some (title i)) prs ->
  exists p' new,
    setIssues items prs p = Some p'
    /\ GitHubIssuesProvider.nodes p' = GitHubIssuesProvider.nodes p ++ new
    /\ Forall2 (fun a i => length (GitHubIssuesProvider.nodes p) <= a
                           /\ root_of (GitHubIssuesProvider.nodes p') TIssue a i)
               (GitHubIssuesProvider.issues p') items
    /\ Forall2 (fun a i => length (GitHubIssuesProvider.nodes p) <= a
                           /\ root_of (GitHubIssuesProvider.nodes p') TPullRequest a i)
               (GitHubIssuesProvider.pullRequests p') prs
    /\ GitHubIssuesProvider.searchQuery p' = GitHubIssuesProvider.searchQuery p.
Proof.
  intros Hi Hp. unfold setIssues.
  destruct (newRoots_spec TIssue items ltac:(done) Hi (GitHubIssuesProvider.nodes p))
    as (roots & new1 & Hr & Hall1).
  rewrite Hr.
  destruct (newRoots_spec TPullRequest prs ltac:(done) Hp
              (GitHubIssuesProvider.nodes p ++ new1)) as (proots & new2 & Hpr & Hall2).
  rewrite Hpr, <- app_assoc.
  eexists _, (new1 ++ new2). split; [reflexivity|]. simpl.
  split; [reflexivity|]. split; [|split; [|reflexivity]].
  - eapply Forall2_impl; [exact Hall1|]. simpl. intros a i [Ha Hroot].
    split; [exact Ha|]. rewrite app_assoc. by apply root_of_app.
  - eapply Forall2_impl; [exact Hall2|]. simpl. intros a i [Ha Hroot].
    rewrite length_app in Ha. split; [lia|]. by rewrite <- app_assoc in Hroot.
Qed.

Lemma X25_setIssues_builds_roots_witness :
  exists p',
    setIssues [Sample.an_issue 1 "one" []; Sample.an_issue 3 "three" Sample.body4] []
              Sample.provider0 = Some p'
    /\ GitHubIssuesProvider.issues p' = [0; 1].
Proof.
  destruct (X25_setIssues_builds_roots
              [Sample.an_issue 1 "one" []; Sample.an_issue 3 "three" Sample.body4] []
              Sample.provider0
              ltac:(repeat constructor; by eexists) ltac:(constructor))
    as (p' & new & Hs & _).
  exists p'. split; [exact Hs|].
  vm_compute in Hs. injection Hs as <-. reflexivity.
Defined.

Lemma Array_filter_roots (h : list GitHubIssue) ty st roots items :
  Forall2 (root_of h ty) roots items ->
  exists sel,
    Array_filter (state_is h st) roots = Some sel
    /\ Forall2 (root_of h ty) sel (List.filter (has_state st) items).
Proof.
  induction 1 as [|a i roots items Hroot _ (sel & Hsel & Hall)]; simpl.
  - by exists [].
  - pose proof Hroot as (n & Hn & _ & _ & _ & _ & Hi).
    assert (Hst : state_is h st a = Some (has_state st i)).
    { unfold state_is, has_state. rewrite Hn, Hi. reflexivity. }
    rewrite Hst, Hsel.
    destruct (has_state st i); eexists; (split; [reflexivity|]);
      [by constructor|exact Hall].
Qed.

Lemma filter_states_le (items : list Issue) :
  length (List.filter (has_state StOpen) items)
  + length (List.filter (has_state StClosed) items) <= length items.
Proof.
  induction items as [|i items IH]; simpl; [lia|].
  destruct (has_state StOpen i) eqn:E1, (has_state StClosed i) eqn:E2;
    simpl; try lia.
  unfold has_state in E1, E2. by destruct (state i) as [[|]|].
Qed.

(** X26. The roots the view shows without a search query, for the
    records handed to [setIssues]: the group [Issues] counts all
    issue records, its two groups hold the roots of the records in
    state open and of those in state closed, in the order of the
    records, and their labels count them; the same for the pull
    requests. A record without a state is counted in the total and
    shown in neither group. *)
Theorem X26_root_groups items prs (p : GitHubIssuesProvider.t) :
  Forall (fun i => is_Some (title i)) items ->
  Forall (fun i => is_Some (title i)) prs ->
  GitHubIssuesProvider.searchQuery p = [] ->
  exists p' oi ci op cp,
    setIssues items prs p = Some p'
    /\ getRootItems toLowerCase p'
       = Some [state_groups "Issues" "Open Issues" "Closed Issues" CExpanded CExpanded
                 (length items) (length (List.filter (has_state StOpen) items))
                 (length (List.filter (has_state StClosed) items)) oi ci;
               state_groups "Pull Requests" "Open Pull Requests" "Closed Pull Requests"
                 CCollapsed CCollapsed
                 (length prs) (length (List.filter (has_state StOpen) prs))
                 (length (List.filter (has_state StClosed) prs)) op cp]
    /\ Forall2 (root_of (GitHubIssuesProvider.nodes p') TIssue) oi
               (List.filter (has_state StOpen) items)
    /\ Forall2 (root_of (GitHubIssuesProvider.nodes p') TIssue) ci
               (List.filter (has_state StClosed) items)
    /\ Forall2 (root_of (GitHubIssuesProvider.nodes p') TPullRequest) op
               (List.filter (has_state StOpen) prs)
    /\ Forall2 (root_of (GitHubIssuesProvider.nodes p') TPullRequest) cp
               (List.filter (has_state StClosed) prs)
    /\ length (List.filter (has_state StOpen) items)
       + length (List.filter (has_state StClosed) items) <= length items.
Proof.
  intros Hi Hp Hq.
  destruct (setIssues_roots items prs p Hi Hp) as (p' & Hs & Hri & Hrp & Hq').
  destruct (Array_filter_roots _ TIssue StOpen _ _ Hri) as (oi & Hoi & Hoi2).
  destruct (Array_filter_roots _ TIssue StClosed _ _ Hri) as (ci & Hci & Hci2).
  destruct (Array_filter_roots _ TPullRequest StOpen _ _ Hrp) as (op & Hop & Hop2).
  destruct (Array_filter_roots _ TPullRequest StClosed _ _ Hrp) as (cp & Hcp & Hcp2).
  exists p', oi, ci, op, cp. split; [exact Hs|].
  split.
  { unfold getRootItems. rewrite Hq', Hq, Hoi, Hci, Hop, Hcp.
    unfold state_groups.
    rewrite (Forall2_length _ _ _ Hri), (Forall2_length _ _ _ Hrp).
    rewrite (Forall2_length _ _ _ Hoi2), (Forall2_length _ _ _ Hci2).
    rewrite (Forall2_length _ _ _ Hop2), (Forall2_length _ _ _ Hcp2).
    reflexivity. }
  split; [exact Hoi2|]. split; [exact Hci2|]. split; [exact Hop2|].
  split; [exact Hcp2|]. apply filter_states_le.
Qed.

Lemma Array_some_leaves (f : nat -> option bool) (g : GitHubIssue -> bool)
    (h : list GitHubIssue) cs kids :
  mapM (fun c => h !! c) cs = Some kids ->
  (forall c k, h !! c = Some k -> In k kids -> f c = Some (g k)) ->
  Array_some f cs = Some (existsb g kids).
Proof.
  intros Hk. apply mapM_Some_1 in Hk.
  induction Hk as [|c k cs kids Hc _ IH]; intros Hf; simpl; [done|].
  rewrite (Hf c k Hc (or_introl eq_refl)).
  destruct (g k); [done|]. apply IH. intros c' k' Hc' Hin. apply Hf; [done|by right].
Qed.

Lemma matchesSearch_node fuel (h : list GitHubIssue) q a n :
  q <> [] -> h !! a = Some n ->
  matchesSearch_from toLowerCase (S fuel) h q (NodeItem a)
  = match Array_some
            (fun child => matchesSearch_from toLowerCase fuel h q (NodeItem child))
            (children n) with
    | None => None
    | Some matchesChildren => Some (matches_own toLowerCase q n || matchesChildren)
    end.
Proof.
  intros Hq Ha. destruct q as [|c q]; [done|].
  cbn [matchesSearch_from]. by rewrite Ha.
Qed.

Lemma matchesSearch_leaf fuel (h : list GitHubIssue) q a n :
  q <> [] -> h !! a = Some n -> children n = [] ->
  matchesSearch_from toLowerCase (S fuel) h q (NodeItem a)
  = Some (matches_own toLowerCase q n).
Proof.
  intros Hq Ha Hc. rewrite (matchesSearch_node fuel h q a n Hq Ha), Hc.
  cbn [Array_some]. by rewrite orb_false_r.
Qed.

(** X27. What a search finds in a tree one level deep: a node matches
    exactly when its own label or body holds the query, both in lower
    case, or when one of its children does; a child is a sub-item or
    the progress node. With the empty query every element matches, and
    the children of a group are its items as they are. *)
Theorem X27_search_one_level (h : list GitHubIssue) q a n kids :
  q <> [] ->
  h !! a = Some n ->
  mapM (fun c => h !! c) (children n) = Some kids ->
  Forall (fun k => children k = []) kids ->
  (forall fuel,
     matchesSearch_from toLowerCase (2 + fuel) h q (NodeItem a)
     = Some (matches_own toLowerCase q n || existsb (matches_own toLowerCase q) kids))
  /\ (forall fuel h' item, matchesSearch_from toLowerCase fuel h' [] item = Some true)
  /\ (forall p lbl cs items,
        GitHubIssuesProvider.searchQuery p = [] ->
        getChildren_of toLowerCase p (IssueTreeItem lbl cs (Some items)) = Some items).
Proof.
  intros Hq Ha Hk Hleaf.
  assert (Hempty : forall fuel h' item,
            matchesSearch_from toLowerCase fuel h' [] item = Some true)
    by (intros fuel h' item; by destruct fuel).
  split; [|split; [exact Hempty|]].
  - intros fuel. change (2 + fuel) with (S (S fuel)).
    rewrite (matchesSearch_node (S fuel) h q a n Hq Ha).
    erewrite (Array_some_leaves _ (matches_own toLowerCase q) h _ _ Hk); [done|].
    intros c' k Hc' Hin. apply matchesSearch_leaf; [done|done|].
    rewrite Forall_forall in Hleaf. apply Hleaf. by apply list_elem_of_In.
  - intros p lbl cs items Hp. simpl. unfold matchesSearch. rewrite Hp.
    induction items as [|x items IH]; [done|].
    cbn [Array_filter]. by rewrite Hempty, IH.
Qed.

(** X28. Searching for [progress], or for any text the lower-cased
    label [Progress] holds, finds every node that was built with a
    checklist, whatever its title and body say: the progress node is
    the first of its children, and its label is searched as the label
    of a sub-item is. *)
Theorem X28_search_finds_progress_node lbl cs i ty par isCb chk
    (h : list GitHubIssue) ms q :
  ty <> TProgressBar ->
  execLoop (S (length (body_or_empty (body i)))) checkboxRegex
           (body_or_empty (body i)) 0 = Some ms ->
  ms <> [] ->
  q <> [] ->
  includes (toLowerCase (js "Progress")) (toLowerCase q) = true ->
  exists h',
    newGitHubIssue lbl cs i ty par isCb chk h = Some (length h, h')
    /\ forall fuel,
         matchesSearch_from toLowerCase (2 + fuel) h' q (NodeItem (length h))
         = Some true.
Proof.
  intros Hty Hms Hne Hq Hinc. unfold newGitHubIssue.
  rewrite (construct_spec 0 lbl cs i ty par isCb chk h ms Hty Hms Hne). cbv zeta.
  set (a := length h). set (k := length ms).
  set (i' := set_body (Some (body_or_empty (body i))) i).
  set (leaves := imap (fun j m => subItem i' a j m) ms).
  set (q0 := percent _ _). set (root := link_progressBar _ _).
  assert (Hlen : length leaves = k) by (subst leaves; by rewrite length_imap).
  eexists. split; [reflexivity|]. intros fuel.
  assert (Ha : ((h ++ [root]) ++ leaves ++ [progressNode i' a q0]) !! a = Some root).
  { rewrite <- app_assoc. by apply list_lookup_middle. }
  assert (Hpb : ((h ++ [root]) ++ leaves ++ [progressNode i' a q0]) !! (S a + k)
                = Some (progressNode i' a q0)).
  { rewrite app_assoc. apply list_lookup_middle.
    rewrite !length_app, Hlen. simpl. lia. }
  change (2 + fuel) with (S (S fuel)).
  rewrite (matchesSearch_node (S fuel) _ q a root Hq Ha).
  assert (Hc : children root
               = (S a + k) :: seq (S a) k) by reflexivity.
  rewrite Hc. cbn [Array_some].
  rewrite (matchesSearch_leaf fuel _ q (S a + k) _ Hq Hpb eq_refl).
  unfold matches_own at 1. cbn [label progressNode]. rewrite Hinc.
  cbn [orb]. by rewrite orb_true_r.
Qed.




End ViewItems.

Lemma X26_root_groups_witness :
  exists p' oi ci op cp,
    setIssues [Sample.an_issue 1 "one" []] [] Sample.provider0 = Some p'
    /\ getRootItems Sample.lower p'
       = Some [state_groups "Issues" "Open Issues" "Closed Issues" CExpanded CExpanded
                 1 1 0 oi ci;
               state_groups "Pull Requests" "Open Pull Requests" "Closed Pull Requests"
                 CCollapsed CCollapsed 0 0 0 op cp].
Proof.
  destruct (X26_root_groups Sample.lower [Sample.an_issue 1 "one" []] [] Sample.provider0
              ltac:(repeat constructor; by eexists) ltac:(constructor) eq_refl)
    as (p' & oi & ci & op & cp & Hs & Hg & _).
  exists p', oi, ci, op, cp. split; [exact Hs|exact Hg].
Defined.

Lemma X27_search_one_level_witness :
  matchesSearch_from Sample.lower 2 Sample.tree4 (js "B") (NodeItem 0) = Some true.
Proof.
  assert (Hn : exists n kids,
             Sample.tree4 !! 0 = Some n
             /\ mapM (fun c => Sample.tree4 !! c) (children n) = Some kids
             /\ Forall (fun k => children k = []) kids
             /\ (matches_own Sample.lower (js "B") n
                 || existsb (matches_own Sample.lower (js "B")) kids) = true).
  { eexists _, _. split; [vm_compute; reflexivity|].
    split; [vm_compute; reflexivity|].
    split; [repeat constructor|vm_compute; reflexivity]. }
  destruct Hn as (n & kids & Hn & Hk & Hleaf & Hres).
  destruct (X27_search_one_level Sample.lower Sample.tree4 (js "B") 0 n kids
              ltac:(discriminate) Hn Hk Hleaf) as (H & _).
  pose proof (H 0) as H0. rewrite Hres in H0. exact H0.
Defined.

Lemma X28_search_finds_progress_node_witness :
  exists h',
    newGitHubIssue (js "T") CNone (Sample.an_issue 7 "T" Sample.body4) TIssue None
                   false false [] = Some (0, h')
    /\ matchesSearch_from Sample.lower 2 h' (js "gress") (NodeItem 0) = Some true.
Proof.
  assert (Hms : exists ms,
             execLoop (S (length (body_or_empty (body (Sample.an_issue 7 "T" Sample.body4)))))
               checkboxRegex (body_or_empty (body (Sample.an_issue 7 "T" Sample.body4))) 0
             = Some ms /\ ms <> [])
    by (eexists; split; [vm_compute; reflexivity|discriminate]).
  destruct Hms as (ms & Hms & Hne).
  destruct (X28_search_finds_progress_node Sample.lower (js "T") CNone
              (Sample.an_issue 7 "T" Sample.body4) TIssue None false false [] ms
              (js "gress") ltac:(discriminate) Hms Hne ltac:(discriminate) eq_refl)
    as (h' & Hnew & Hm).
  exists h'. split; [exact Hnew|exact (Hm 0)].
Defined.


(* ===================================================================== *)
(** * The service: signing in *)
(* ===================================================================== *)

Section SigningIn.

(** X30. [initialize] only starts the work: when it returns nobody is
    signed in yet and nothing was fetched. Once the task it started
    has run, with the session granted, the user found, the repository
    resolved and the remote answering, the client is set, the first
    pages of the repository are cached under the key of the
    repository, stamped with the time of the fetch, the subscribers
    were notified once with them, and no error was shown. *)
Theorem X30_initialize_then_fetch env s scopes login id type owner repo :
  session env = Ok scopes ->
  user env = Ok (login, id, type) ->
  list_error env = None ->
  getGitHubRepoInfo env s = (Ok (owner, repo), s) ->
  pending s = [] ->
  let allItems := firstPage env StOpen ++ firstPage env StClosed in
  let issues := List.filter (fun item => negb (pull_request item)) allItems in
  let pullRequests := List.filter (fun item => pull_request item) allItems in
  exists s1 s2,
    initialize s = (Ok tt, s1)
    /\ pending s1 = [InitializeInBackground]
    /\ octokit s1 = octokit s
    /\ workspaceState s1 = workspaceState s
    /\ run_next env s1 = (Ok tt, s2)
    /\ pending s2 = []
    /\ octokit s2 = true
    /\ workspaceState s2
       = <[cacheKey_of owner repo := CachedIssues.mk (now s) issues pullRequests]>
           (workspaceState s)
    /\ dataUpdated s2 = dataUpdated s ++ [Items.mk issues pullRequests]
    /\ errorMessages s2 = errorMessages s.
Proof.
  intros Hs Hu Hl Hrepo Hp allItems issues pullRequests.
  eexists _, _. split; [reflexivity|].
  split; [simpl; by rewrite Hp|]. split; [reflexivity|]. split; [reflexivity|].
  unfold run_next.
  erewrite bind_ok by reflexivity.
  cbn [pending initialize spawn modify set_pending fst snd]. rewrite Hp. cbn [app].
  erewrite bind_ok by reflexivity.
  cbn [run_task]. unfold initializeInBackground, try_catch.
  erewrite bind_ok by (by rewrite Hs).
  erewrite bind_ok by reflexivity.
  erewrite bind_ok by reflexivity.
  erewrite bind_ok by reflexivity.
  erewrite bind_ok by (by rewrite Hu).
  cbv beta iota.
  erewrite bind_ok by reflexivity.
  erewrite bind_ok by reflexivity.
  erewrite bind_ok by reflexivity.
  erewrite bind_ok.
  2:{ apply (fetchAndCacheIssues_success env _ owner repo);
        [by apply (getGitHubRepoInfo_any env s)|reflexivity|exact Hl]. }
  split; [reflexivity|]. by repeat split.
Qed.

Lemma X30_initialize_then_fetch_witness :
  exists s1 s2,
    initialize (newService ∅ 0) = (Ok tt, s1)
    /\ run_next Sample.env s1 = (Ok tt, s2)
    /\ octokit s2 = true
    /\ dataUpdated s2
       = [Items.mk [Sample.an_issue 1 "one" []; Sample.an_issue 3 "three" Sample.body4]
                   [mkIssue (NumInt 2) (Some (js "two")) None (Some StOpen) true]].
Proof.
  destruct (X30_initialize_then_fetch Sample.env (newService ∅ 0) [js "repo"]
              (js "octocat") 1%Z (js "User") (js "MadcowD") (js "github-issues")
              eq_refl eq_refl eq_refl ltac:(vm_compute; reflexivity) eq_refl)
    as (s1 & s2 & Hi & _ & _ & _ & Hr & _ & Ho & _ & Hd & _).
  exists s1, s2. split; [exact Hi|]. split; [exact Hr|]. split; [exact Ho|exact Hd].
Defined.

End SigningIn.
